(** * pyar.mlatom: the model layer, its composition and its validation engine

    A shallow embedding of [src/pyar/mlatom/models.py] and of the ANI
    front end of [src/pyar/mlatom/interfaces/torchani_interface.py].

    Conventions of the embedding.
    - A Python call that may raise returns a [result]; [Raise e] is the
      exception leaving the call.
    - An argument that defaults to [None] is an [option].
    - An object mutated in place (a molecule, a database, a kernel matrix)
      is passed in and handed back.
    - Floating-point payloads are exact rationals ([Q]) where a statement
      needs arithmetic on them, real numbers where a square root is taken,
      and an abstract carrier where only the data flow matters.

    Part I holds the definitions, Part II the theorems. *)

From Stdlib Require Import ZArith QArith Reals Lra Lia.
From Stdlib Require Import Ascii String List.
From stdpp Require Import base option strings list gmap.

#[global] Set Warnings "-register-all".

Open Scope string_scope.
Open Scope list_scope.
Open Scope nat_scope.

(* ===================================================================== *)
(** * Part I: the embedding                                               *)
(* ===================================================================== *)

(** ** Python exceptions and the calls that raise them *)

Module Py.

Inductive exception :=
| ValueError (msg : string)
| TypeError (msg : string)
| KeyError (key : string)
| IndexError (msg : string)
| AttributeError (name : string)
| UnboundLocalError (name : string)
| NotImplementedError (msg : string)
| RecursionError
| LinAlgError (msg : string).

Inductive result (A : Type) :=
| Ok (a : A)
| Raise (e : exception).

Arguments Ok {A} a.
Arguments Raise {A} e.

#[export] Instance result_ret : MRet result := fun A a => Ok a.

#[export] Instance result_bind : MBind result :=
  fun A B f m => match m with Ok a => f a | Raise e => Raise e end.

#[export] Instance result_fmap : FMap result :=
  fun A B f m => match m with Ok a => Ok (f a) | Raise e => Raise e end.

Definition is_ok {A} (r : result A) : bool :=
  match r with Ok _ => true | Raise _ => false end.

Definition raises {A} (r : result A) : bool := negb (is_ok r).

(** [for x in l: s = body(x, s)], leaving the loop at the first exception. *)
Fixpoint for_each {A S : Type} (body : A → S → result S) (l : list A) (s : S)
  : result S :=
  match l with
  | [] => Ok s
  | x :: l' => s' ← body x s; for_each body l' s'
  end.

(** [str.isascii()]. *)
Definition is_ascii (s : string) : bool :=
  forallb (fun c => (nat_of_ascii c <? 128)%nat) (list_ascii_of_string s).

(** [str.casefold] on ASCII strings, where it is lower-casing; the method
    and program names of the registry are ASCII.  Beyond ASCII the code
    folds characters this function leaves alone (the long s folds to s),
    so what is stated of a name the caller supplies is stated of an ASCII
    name. *)
Definition casefold_ascii (c : ascii) : ascii :=
  let n := nat_of_ascii c in
  if (65 <=? n)%nat && (n <=? 90)%nat then ascii_of_nat (n + 32) else c.

Fixpoint casefold (s : string) : string :=
  match s with
  | EmptyString => EmptyString
  | String c s' => String (casefold_ascii c) (casefold s')
  end.

(** [x in l] for a list of strings. *)
Definition str_in (x : string) (l : list string) : bool :=
  existsb (String.eqb x) l.

(** A loop that rebinds every element of a list in turn, leaving at the
    first exception. *)
Fixpoint map_result {A B : Type} (f : A → result B) (l : list A)
  : result (list B) :=
  match l with
  | [] => Ok []
  | x :: l' => y ← f x; ys ← map_result f l'; Ok (y :: ys)
  end.

(** [d.get(k)] for a dictionary kept as its list of items. *)
Definition dict_get {K V} (eqb : K → K → bool) (k : K) (d : list (K * V))
  : option V :=
  snd <$> List.find (fun kv => eqb k (fst kv)) d.

End Py.

Import Py.

(** ** Molecules and databases ([pyar.mlatom.data], used through its
       attribute surface only) *)

Module Data.

(** Numeric property values: a float, a vector (the gradient on one atom) or
    a matrix (the gradients of all atoms, a Hessian). *)
Inductive ndarray :=
| Scalar (x : Q)
| Vector (v : list Q)
| Matrix (m : list (list Q)).

(** The per-node property container a tree node attaches to a molecule.
    Containers refer to each other by the key under which the molecule's
    [__dict__] holds them. *)
Record properties_tree_node := {
  ptn_name : string;
  ptn_parent : option string;
  ptn_children : option (list string);
  ptn_dict : gmap string ndarray;
}.

(** A value of [molecule.__dict__]. *)
Inductive pyvalue :=
| Num (a : ndarray)
| Node (n : properties_tree_node).

(** An atom; its [__dict__] holds per-atom vectors such as
    [energy_gradients]. *)
Record atom := {
  atomic_number : Z;
  xyz_coordinates : list Q;
  atom_dict : gmap string (list Q);
}.

Record molecule := {
  atoms : list atom;
  mol_dict : gmap string pyvalue;
}.

(** [data.molecular_database]: its [molecules] list. *)
Definition molecular_database := list molecule.

End Data.

Import Data.

(** ** [class model] *)

Module Model.

(** [model.predict]: the input normalisation every subclass starts with. *)
Definition predict (molecular_database : option molecular_database)
    (molecule : option molecule) : result Data.molecular_database :=
  match molecular_database with
  | Some db => Ok db
  | None =>
      match molecule with
      | Some m => Ok [m]
      | None =>
          Raise (ValueError
            "Either molecule or molecular_database should be provided in input")
      end
  end.

End Model.

(** ** The ANI front end ([interfaces/torchani_interface.py]) *)

Module ANI.

(** [needle in hay] for strings. *)
Fixpoint str_contains (needle hay : string) : bool :=
  String.prefix needle hay
  || match hay with
     | EmptyString => false
     | String _ hay' => str_contains needle hay'
     end.

(** [class ani_methods]: the attributes [predict] reads.
    [atomic_number_available] stays unset when [model_setup] does not
    recognise the method. *)
Record ani_methods := {
  method : string;
  atomic_number_available : option (list Z);
}.

(** [ani_methods.model_setup], without the loading of the network. *)
Definition model_setup (method : string) : ani_methods :=
  if str_contains (casefold "ANI-1x") (casefold method) then
    {| method := method; atomic_number_available := Some [1; 6; 7; 8]%Z |}
  else if str_contains (casefold "ANI-1ccx") (casefold method) then
    {| method := method; atomic_number_available := Some [1; 6; 7; 8]%Z |}
  else if str_contains (casefold "ANI-2x") (casefold method) then
    {| method := method;
       atomic_number_available := Some [1; 6; 7; 8; 9; 16; 17]%Z |}
  else
    {| method := method; atomic_number_available := None |}.

(** The class attribute [atomic_energies]. *)
Definition atomic_energies : list (string * list (Z * Q)) :=
  [("ANI-1ccx",
    [(1%Z, (-0.50088088)%Q); (6%Z, (-37.79199048)%Q);
     (7%Z, (-54.53379230)%Q); (8%Z, (-75.00968205)%Q)])].

Definition warning (self : ani_methods) : string :=
  (" * Warning * Molecule contains elements other than "
   ++ (if str_contains (casefold "ANI-2x") (casefold (method self))
       then "C/H/N/O/F/S/Cl" else "CHNO")
   ++ ", no calculations performed")%string.

(** What a call leaves behind: the molecule and the lines it printed. *)
Record outcome := {
  out_molecule : molecule;
  out_stdout : list string;
}.

Definition z_in (z : Z) (l : list Z) : bool := existsb (Z.eqb z) l.

(** The guard loop at the head of [predict_for_molecule]: [true] when some
    atom made the function print the warning and return. *)
Fixpoint guard (available : list Z) (ats : list atom) : bool :=
  match ats with
  | [] => false
  | a :: ats' =>
      if negb (z_in (atomic_number a) available) then true
      else guard available ats'
  end.

Section PredictForMolecule.

(** [self.model.predict(molecule=...)] followed by the
    [standard_deviation] of the ensemble container: the model tree of the
    networks, an external collaborator here. *)
Variable ensemble_predict : bool → bool → bool → molecule → result molecule.

(** The [for atom in molecule.atoms] loop with its membership test;
    reading [self.atomic_number_available] raises when [model_setup] left it
    unset. *)
Definition check_atoms (self : ani_methods) (ats : list atom) : result bool :=
  match ats with
  | [] => Ok false
  | _ :: _ =>
      match atomic_number_available self with
      | None => Raise (AttributeError "atomic_number_available")
      | Some available => Ok (guard available ats)
      end
  end.

(** [ani_methods.predict_for_molecule]. *)
Definition predict_for_molecule (self : ani_methods) (molecule : molecule)
    (calculate_energy calculate_energy_gradients calculate_hessian : bool)
  : result outcome :=
  unsupported ← check_atoms self (atoms molecule);
  if (unsupported : bool) then
    Ok {| out_molecule := molecule; out_stdout := [warning self] |}
  else
    match atoms molecule with
    | [a] =>
        match dict_get String.eqb (method self) atomic_energies with
        | None => Raise (KeyError (method self))
        | Some table =>
            match dict_get Z.eqb (atomic_number a) table with
            | None => Raise (KeyError "atomic_number")
            | Some e =>
                Ok {| out_molecule :=
                        {| atoms := atoms molecule;
                           mol_dict :=
                             <["energy" := Num (Scalar e)]>
                               (mol_dict molecule) |};
                      out_stdout := [] |}
            end
        end
    | _ =>
        m ← ensemble_predict calculate_energy calculate_energy_gradients
              calculate_hessian molecule;
        Ok {| out_molecule := m; out_stdout := [] |}
    end.

(** The loop of [ani_methods.predict] over the molecules of the database. *)
Fixpoint predict_loop (self : ani_methods) (mols : list molecule)
    (ce ceg ch : bool) : result (list molecule * list string) :=
  match mols with
  | [] => Ok ([], [])
  | m :: mols' =>
      o ← predict_for_molecule self m ce ceg ch;
      r ← predict_loop self mols' ce ceg ch;
      Ok (out_molecule o :: fst r, (out_stdout o ++ snd r)%list)
  end.

(** [ani_methods.predict]. *)
Definition predict (self : ani_methods)
    (molecular_database : option molecular_database)
    (molecule : option molecule) (ce ceg ch : bool)
  : result (list Data.molecule * list string) :=
  molDB ← Model.predict molecular_database molecule;
  predict_loop self molDB ce ceg ch.

End PredictForMolecule.

(** The species check at the head of [ani.data_setup]: the species order
    the model keeps, and whether the function printed its message and
    returned before building the training and validation sets. *)
Definition data_setup_species (species_order data_element_symbols : list string)
  : list string * bool :=
  match species_order with
  | [] => (data_element_symbols, false)
  | _ =>
      (species_order,
       existsb (fun element => negb (str_in element species_order))
               data_element_symbols)
  end.

End ANI.

(** ** The validation engine of [class ml_model] *)

Module Validation.

(** A molecule object, by identity: databases share molecules, and
    [predict] annotates them in place. *)
Definition mol_ref := nat.

Definition database := list mol_ref.

(** The three operations a validation trial calls on the model.  The state
    [S] is the model together with the molecules it annotates; the keyword
    arguments of a trial are fixed, so they are part of the instance. *)
Class ml_model (S : Type) := {
  train : database → S → result S;
  predict : database → S → result S;
  reset : S → result S;
}.

(** [ml_model.holdout_validation]. *)
Definition holdout_validation {S} `{ml_model S}
    (subtraining_molecular_database validation_molecular_database : database)
    (self : S) : result S :=
  self ← train subtraining_molecular_database self;
  self ← predict validation_molecular_database self;
  reset self.

(** The inner loop of [cross_validation]:
    [for jj in range(nsplits): if ii != jj: sub.molecules += splits[jj].molecules]. *)
Definition subtraining_molecular_database (cv_splits : list database)
    (ii : nat) : database :=
  fold_left
    (fun molecules jj =>
       if Nat.eqb ii jj then molecules
       else (molecules ++ nth jj cv_splits [])%list)
    (seq 0 (length cv_splits)) [].

(** One pass of the outer loop of [cross_validation]. *)
Definition cross_validation_fold {S} `{ml_model S}
    (cv_splits : list database) (ii : nat) (self : S) : result S :=
  let subtraining := subtraining_molecular_database cv_splits ii in
  let validation_molecular_database := nth ii cv_splits [] in
  self ← train subtraining self;
  self ← predict validation_molecular_database self;
  reset self.

(** [ml_model.cross_validation]. *)
Definition cross_validation {S} `{ml_model S}
    (cv_splits_molecular_databases : list database) (self : S) : result S :=
  let nsplits := length cv_splits_molecular_databases in
  for_each (cross_validation_fold cv_splits_molecular_databases)
           (seq 0 nsplits) self.

(** A model that only records the calls made on it. *)
Inductive event :=
| Train (molecular_database : database)
| Predict (molecular_database : database)
| Reset.

#[export] Instance recorder : ml_model (list event) := {
  train db log := Ok (log ++ [Train db])%list;
  predict db log := Ok (log ++ [Predict db])%list;
  reset log := Ok (log ++ [Reset])%list;
}.

Definition is_train (e : event) : bool :=
  match e with Train _ => true | _ => false end.

Definition is_predict (e : event) : bool :=
  match e with Predict _ => true | _ => false end.

Definition is_reset (e : event) : bool :=
  match e with Reset => true | _ => false end.

(** The molecules handed to [predict], in call order. *)
Definition predicted (log : list event) : list mol_ref :=
  flat_map (fun e => match e with Predict db => db | _ => [] end) log.

(** The splits other than the one at position [ii], counting from [k]. *)
Fixpoint others_from (k ii : nat) (l : list database) : list database :=
  match l with
  | [] => []
  | x :: l' => (if Nat.eqb ii k then [] else [x]) ++ others_from (S k) ii l'
  end.

(** What one fold appends to the record. *)
Definition fold_calls (cv_splits : list database) (ii : nat) : list event :=
  [Train (concat (take ii cv_splits ++ drop (S ii) cv_splits));
   Predict (nth ii cv_splits []);
   Reset].

(** *** The loss of a trial *)

(** The keyword dictionaries, by the keys the engine looks up; [None] is a
    key that is absent, [Some None] a key bound to [None]. *)
Record training_kwargs := {
  tk_property_to_learn : option (option string);
  tk_xyz_derivative_property_to_learn : option (option string);
}.

Record prediction_kwargs := {
  pk_property_to_predict : option string;
  pk_xyz_derivative_property_to_predict : option string;
  pk_calculate_energy : option bool;
  pk_calculate_energy_gradients : option bool;
}.

(** [get_property_to_learn]. *)
Definition get_property_to_learn (kw : option training_kwargs)
  : option string :=
  match kw with
  | None => None
  | Some kw =>
      match tk_property_to_learn kw with
      | Some v => v
      | None => None
      end
  end.

(** [get_xyz_derivative_property_to_learn]. *)
Definition get_xyz_derivative_property_to_learn (kw : option training_kwargs)
  : option string :=
  match kw with
  | None => None
  | Some kw =>
      match tk_xyz_derivative_property_to_learn kw with
      | Some v => v
      | None => None
      end
  end.

(** [get_property_to_predict]. *)
Definition get_property_to_predict (kw : option prediction_kwargs) : string :=
  match kw with
  | Some kw =>
      match pk_property_to_predict kw with
      | Some v => v
      | None =>
          match pk_calculate_energy kw with
          | Some _ => "estimated_energy"
          | None => "estimated_y"
          end
      end
  | None => "estimated_y"
  end.

(** [get_xyz_derivative_property_to_predict]. *)
Definition get_xyz_derivative_property_to_predict
    (kw : option prediction_kwargs) : string :=
  match kw with
  | Some kw =>
      match pk_xyz_derivative_property_to_predict kw with
      | Some v => v
      | None =>
          match pk_calculate_energy_gradients kw with
          | Some _ => "estimated_energy_gradients"
          | None => "estimated_xyz_derivatives_y"
          end
      end
  | None => "estimated_xyz_derivatives_y"
  end.

(** The mean of an array. *)
Definition mean (a : list R) : R :=
  (fold_right Rplus 0 a / INR (length a))%R.

(** Modelled from the spec: [stats.rmse] is not among the sources; the spec
    names it the root-mean-square error of the estimated values against the
    reference values. *)
Definition rmse (estimated reference : list R) : R :=
  sqrt (mean (map (fun p => ((fst p - snd p) * (fst p - snd p))%R)
                  (combine estimated reference))).

(** [a.reshape(a.size)] for the per-molecule, per-atom, per-coordinate
    array of derivatives. *)
Definition reshape_flat (a : list (list (list R))) : list R :=
  concat (concat a).

(** Passing an array that was never fetched. *)
Definition fetched {A} (a : option A) : result A :=
  match a with
  | Some x => Ok x
  | None => Raise (TypeError "NoneType")
  end.

(** The closure [geomRMSEloc] of [calculate_validation_loss]. *)
Definition geomRMSEloc
    (property_to_learn xyz_derivative_property_to_learn : option string)
    (estimated_y y : option (list R))
    (estimated_xyz_derivatives xyz_derivatives : option (list (list (list R))))
  : result R :=
  let total_rmse := 1%R in
  total_rmse ←
    (if bool_decide (property_to_learn ≠ None) then
       e ← fetched estimated_y; r ← fetched y;
       Ok (total_rmse * rmse e r)%R
     else Ok total_rmse);
  total_rmse ←
    (if bool_decide (xyz_derivative_property_to_learn ≠ None) then
       e ← fetched estimated_xyz_derivatives; r ← fetched xyz_derivatives;
       Ok (total_rmse * rmse (reshape_flat e) (reshape_flat r))%R
     else Ok total_rmse);
  if bool_decide (property_to_learn ≠ None)
     && bool_decide (xyz_derivative_property_to_learn ≠ None)
  then Ok (sqrt total_rmse)
  else Ok total_rmse.

(** The trial [calculate_validation_loss] runs, and the molecules it
    scores. *)
Definition trial {S} `{ml_model S} (cv_splits : option (list database))
    (subtraining validation : database) (self : S) : result S :=
  match cv_splits with
  | None => holdout_validation subtraining validation self
  | Some splits => cross_validation splits self
  end.

Definition scored (cv_splits : option (list database))
    (validation : database) : database :=
  match cv_splits with
  | None => validation
  | Some splits => concat splits
  end.

Section CalculateValidationLoss.

Context {S : Type} `{ml_model S}.

(** [molecular_database.get_properties] and
    [molecular_database.get_xyz_vectorial_properties], reading the
    annotations the state holds. *)
Variable get_properties : string → database → S → list R.
Variable get_xyz_vectorial_properties :
  string → database → S → list (list (list R)).

(** [ml_model.calculate_validation_loss], without the per-split errors and
    the debugging output: the error it returns. *)
Definition calculate_validation_loss
    (training_kwargs : option training_kwargs)
    (prediction_kwargs : option prediction_kwargs)
    (cv_splits_molecular_databases : option (list database))
    (subtraining_molecular_database validation_molecular_database : database)
    (validation_loss_function : option (result R))
    (self : S) : result (S * R) :=
  let property_to_learn := get_property_to_learn training_kwargs in
  let property_to_predict := get_property_to_predict prediction_kwargs in
  let xyz_derivative_property_to_learn :=
    get_xyz_derivative_property_to_learn training_kwargs in
  let xyz_derivative_property_to_predict :=
    get_xyz_derivative_property_to_predict prediction_kwargs in
  '(self, scored) ←
    match cv_splits_molecular_databases with
    | None =>
        self ← holdout_validation subtraining_molecular_database
                 validation_molecular_database self;
        Ok (self, validation_molecular_database)
    | Some cv_splits =>
        self ← cross_validation cv_splits self;
        Ok (self, concat cv_splits)
    end;
  let y := (fun p => get_properties p scored self) <$> property_to_learn in
  let estimated_y :=
    (fun _ => get_properties property_to_predict scored self)
      <$> property_to_learn in
  let xyz_derivatives :=
    (fun p => get_xyz_vectorial_properties p scored self)
      <$> xyz_derivative_property_to_learn in
  let estimated_xyz_derivatives :=
    (fun _ => get_xyz_vectorial_properties
                xyz_derivative_property_to_predict scored self)
      <$> xyz_derivative_property_to_learn in
  error ←
    match validation_loss_function with
    | None =>
        geomRMSEloc property_to_learn xyz_derivative_property_to_learn
          estimated_y y estimated_xyz_derivatives xyz_derivatives
    | Some loss => loss
    end;
  Ok (self, error).

End CalculateValidationLoss.

(** Fixed annotations, for closed examples.  The reference energy of a
    molecule is its number and every estimate of it is 1 too high; its
    reference derivatives, under the name [forces], are the number along x
    on its one atom, and every estimated coordinate is 2 too high. *)
Definition example_properties (property_name : string) (db : database)
    (self : list event) : list R :=
  if String.eqb property_name "energy" then map INR db
  else map (fun m => (INR m + 1)%R) db.

Definition example_derivatives (property_name : string) (db : database)
    (self : list event) : list (list (list R)) :=
  if String.eqb property_name "forces"
  then map (fun m => [[INR m; 0; 0]]%R) db
  else map (fun m => [[INR m + 2; 2; 2]]%R) db.

Definition example_loss (training_kwargs : option training_kwargs)
  : result (list event * R) :=
  calculate_validation_loss example_properties example_derivatives
    training_kwargs None None [0; 1] [2] None [].

End Validation.

(** ** [class krr]: solving for the regression weights *)

Module KRRSolve.

(** The calls [krr.train] makes into numpy and scipy, in the order made. *)
Inductive linalg_call :=
| np_linalg_inv
| scipy_cho_factor
| scipy_cho_solve
| scipy_lu_factor
| scipy_lu_solve.

#[export] Instance linalg_call_eq_dec : EqDecision linalg_call.
Proof. solve_decision. Defined.

Section Solve.

(** Kernel matrices, label and weight vectors, Cholesky and LU factors. *)
Context {M V C L : Type}.

Variable linalg_inv : M → result M.
Variable dot : M → V → V.

(** The factorisations are called with [overwrite_a=True]: each hands back
    the array as the call leaves it, next to the factor or the exception. *)
Variable cho_factor : M → M * result C.
Variable cho_solve : C → V → result V.
Variable lu_factor : M → M * result L.
Variable lu_solve : L → V → result V.

(** [c, low = cho_factor(kernel_matrix, ...); cho_solve((c, low), yyref)]:
    the calls made, the array afterwards and the weights or the exception. *)
Definition cholesky (kernel_matrix : M) (yyref : V)
  : list linalg_call * M * result V :=
  match cho_factor kernel_matrix with
  | (kernel_matrix, Ok c) =>
      ([scipy_cho_factor; scipy_cho_solve], kernel_matrix, cho_solve c yyref)
  | (kernel_matrix, Raise e) => ([scipy_cho_factor], kernel_matrix, Raise e)
  end.

(** [c, low = lu_factor(kernel_matrix, ...); lu_solve((c, low), yyref)]. *)
Definition lu (kernel_matrix : M) (yyref : V)
  : list linalg_call * M * result V :=
  match lu_factor kernel_matrix with
  | (kernel_matrix, Ok l) =>
      ([scipy_lu_factor; scipy_lu_solve], kernel_matrix, lu_solve l yyref)
  | (kernel_matrix, Raise e) => ([scipy_lu_factor], kernel_matrix, Raise e)
  end.

(** The tail of [krr.train], from [if invert_matrix:] on: the calls made
    and the new value of [self.alphas] ([None] when no branch assigns it),
    or the exception that leaves [train]. *)
Definition solve (invert_matrix : bool) (matrix_decomposition : option string)
    (kernel_matrix : M) (yyref : V)
  : list linalg_call * result (option V) :=
  if invert_matrix then
    ([np_linalg_inv],
     inverse ← linalg_inv kernel_matrix; Ok (Some (dot inverse yyref)))
  else
    match matrix_decomposition with
    | None =>
        match cholesky kernel_matrix yyref with
        | (calls, _, Ok alphas) => (calls, Ok (Some alphas))
        | (calls, kernel_matrix, Raise _) =>
            let '(calls', _, alphas) := lu kernel_matrix yyref in
            (calls ++ calls', Some <$> alphas)
        end
    | Some name =>
        if String.eqb (casefold name) (casefold "Cholesky") then
          let '(calls, _, alphas) := cholesky kernel_matrix yyref in
          (calls, Some <$> alphas)
        else if String.eqb (casefold name) (casefold "LU") then
          let '(calls, _, alphas) := lu kernel_matrix yyref in
          (calls, Some <$> alphas)
        else ([], Ok None)
    end.

End Solve.

(** One-by-one systems, for closed examples, in exact arithmetic on the
    reals in place of rounding.  A weight is a number, an infinity or a
    NaN, as a division by zero leaves it. *)
Inductive float :=
| Finite (x : R)
| Inf (negative : bool)
| NaN.

(** [y / d] for a float and a real divisor; a zero divisor is [+0.0]. *)
Definition fdiv (y : float) (d : R) : float :=
  match y with
  | Finite r =>
      if Req_EM_T d 0
      then if Req_EM_T r 0 then NaN
           else Inf (if Rlt_dec r 0 then true else false)
      else Finite (r / d)
  | Inf s => Inf (if Rlt_dec d 0 then negb s else s)
  | NaN => NaN
  end.

(** [m * y]. *)
Definition fmul (m : R) (y : float) : float :=
  match y with
  | Finite r => Finite (m * r)
  | Inf s =>
      if Req_EM_T m 0 then NaN else Inf (if Rlt_dec m 0 then negb s else s)
  | NaN => NaN
  end.

(** [cho_factor] on the array [[k]]: an entry that is not positive raises;
    a positive one is overwritten with its square root, the factor. *)
Definition cho_factor_1x1 (k : R) : R * result R :=
  if Rle_dec k 0
  then (k, Raise (LinAlgError
                    "1-th leading minor of the array is not positive definite"))
  else (sqrt k, Ok (sqrt k)).

(** [cho_solve]: the two triangular solves with the factor. *)
Definition cho_solve_1x1 (c : R) (y : float) : result float :=
  Ok (fdiv (fdiv y c) c).

(** [lu_factor] on the array [[k]]: the factor is the entry itself; on a
    zero entry scipy warns and returns. *)
Definition lu_factor_1x1 (k : R) : R * result R := (k, Ok k).

(** [lu_solve]: the division by the entry. *)
Definition lu_solve_1x1 (l : R) (y : float) : result float := Ok (fdiv y l).

(** [np.linalg.inv] on the array [[k]]. *)
Definition inv_1x1 (k : R) : result R :=
  if Req_EM_T k 0 then Raise (LinAlgError "Singular matrix") else Ok (/ k)%R.

Definition solve_1x1 : bool → option string → R → float
    → list linalg_call * result (option float) :=
  solve inv_1x1 fmul cho_factor_1x1 cho_solve_1x1 lu_factor_1x1 lu_solve_1x1.

End KRRSolve.

(** ** [class hyperparameter] *)

Module Hyperparameter.

(** The classes a hyperparameter value or [dtype] can be here. *)
Inductive pytype :=
| py_NoneType
| py_bool
| py_int
| py_float
| py_str
| py_list
| py_tuple
| py_ndarray.

#[export] Instance pytype_eq_dec : EqDecision pytype.
Proof. solve_decision. Defined.

(** Python values; a float is the rational it denotes, an array its
    entries. *)
Inductive pyval :=
| PNone
| PBool (b : bool)
| PInt (z : Z)
| PFloat (x : Q)
| PStr (s : string)
| PList (l : list pyval)
| PTuple (l : list pyval)
| PArray (a : list Q).

(** [type(v)]. *)
Definition type_of (v : pyval) : pytype :=
  match v with
  | PNone => py_NoneType
  | PBool _ => py_bool
  | PInt _ => py_int
  | PFloat _ => py_float
  | PStr _ => py_str
  | PList _ => py_list
  | PTuple _ => py_tuple
  | PArray _ => py_ndarray
  end.

(** [issubclass]: [bool] is the one proper subclass among these classes. *)
Definition issubclass (t u : pytype) : bool :=
  bool_decide (t = u) || (bool_decide (t = py_bool) && bool_decide (u = py_int)).

(** [isinstance(v, t)]. *)
Definition isinstance (v : pyval) (t : pytype) : bool :=
  issubclass (type_of v) t.

(** What [_cast_dtype] holds: a class, called as a constructor, or the
    function [np.array]. *)
Inductive callable :=
| Constructor (t : pytype)
| np_array.

Section Builtins.

(** The parsers behind [int(str)] and [float(str)], the rounding of an
    integer to a float behind [float(int)], which raises [OverflowError]
    beyond the range of the floats, the formatter behind [str(v)], and
    [np.array]. *)
Variable int_of_str : string → result Z.
Variable float_of_str : string → result Q.
Variable float_of_int : Z → result Q.
Variable str_of : pyval → string.
Variable array_of : pyval → result (list Q).

(** Truncation towards zero: [int(x)] for a float. *)
Definition trunc (x : Q) : Z := Z.quot (Qnum x) (Zpos (Qden x)).

(** [bool(v)]. *)
Definition truthy (v : pyval) : bool :=
  match v with
  | PNone => false
  | PBool b => b
  | PInt z => negb (Z.eqb z 0)
  | PFloat x => negb (Qeq_bool x 0)
  | PStr s => negb (String.eqb s "")
  | PList l | PTuple l => negb (Nat.eqb (length l) 0)
  | PArray a => negb (Nat.eqb (length a) 0)
  end.

Definition chars (s : string) : list pyval :=
  map (fun c => PStr (String c EmptyString)) (list_ascii_of_string s).

(** Calling a class on one argument. *)
Definition construct (t : pytype) (v : pyval) : result pyval :=
  match t with
  | py_int =>
      match v with
      | PBool b => Ok (PInt (Z.b2z b))
      | PInt z => Ok (PInt z)
      | PFloat x => Ok (PInt (trunc x))
      | PStr s => PInt <$> int_of_str s
      | _ => Raise (TypeError "int() argument")
      end
  | py_float =>
      match v with
      | PBool b => Ok (PFloat (inject_Z (Z.b2z b)))
      | PInt z => PFloat <$> float_of_int z
      | PFloat x => Ok (PFloat x)
      | PStr s => PFloat <$> float_of_str s
      | _ => Raise (TypeError "float() argument")
      end
  | py_list =>
      match v with
      | PList l | PTuple l => Ok (PList l)
      | PStr s => Ok (PList (chars s))
      | PArray a => Ok (PList (map PFloat a))
      | _ => Raise (TypeError "object is not iterable")
      end
  | py_tuple =>
      match v with
      | PList l | PTuple l => Ok (PTuple l)
      | PStr s => Ok (PTuple (chars s))
      | PArray a => Ok (PTuple (map PFloat a))
      | _ => Raise (TypeError "object is not iterable")
      end
  | py_bool => Ok (PBool (truthy v))
  | py_str => Ok (PStr (str_of v))
  | py_NoneType => Raise (TypeError "NoneType takes no arguments")
  | py_ndarray => Raise (TypeError "ndarray shape")
  end.

(** Calling what [_cast_dtype] holds; [None] is not callable. *)
Definition call (f : option callable) (v : pyval) : result pyval :=
  match f with
  | Some (Constructor t) => construct t v
  | Some np_array => PArray <$> array_of v
  | None => Raise (TypeError "'NoneType' object is not callable")
  end.

(** The attributes of a hyperparameter object. *)
Record hyperparameter := {
  name : string;
  dtype : option pytype;
  _cast_dtype : option callable;
  value : pyval;
  optimization_space : string;
  minval : pyval;
  maxval : pyval;
  step : pyval;
  choices : list pyval;
}.

(** [_set_dtype_cast_method]: the new value of [_cast_dtype]. *)
Definition _set_dtype_cast_method (dtype : option pytype) : option callable :=
  match dtype with
  | Some py_ndarray => Some np_array
  | Some t => Some (Constructor t)
  | None => None
  end.

(** The coercion of [__setattr__] for the key ['value']. *)
Definition coerce (dtype : option pytype) (cast : option callable)
    (value : pyval) : result pyval :=
  match dtype with
  | Some t => if isinstance value t then Ok value else call cast value
  | None => Ok value
  end.

(** [self.value = v]. *)
Definition set_value (self : hyperparameter) (v : pyval)
  : result hyperparameter :=
  v' ← coerce (dtype self) (_cast_dtype self) v;
  Ok {| name := name self; dtype := dtype self;
        _cast_dtype := _cast_dtype self; value := v';
        optimization_space := optimization_space self;
        minval := minval self; maxval := maxval self; step := step self;
        choices := choices self |}.

(** [self.dtype = t]: the cast method follows, the value stays. *)
Definition set_dtype (self : hyperparameter) (t : option pytype)
  : hyperparameter :=
  {| name := name self; dtype := t;
     _cast_dtype := _set_dtype_cast_method t; value := value self;
     optimization_space := optimization_space self;
     minval := minval self; maxval := maxval self; step := step self;
     choices := choices self |}.

(** [hyperparameter.__init__]. *)
Definition __init__ (value : pyval) (optimization_space : string)
    (dtype : option pytype) (name : string) (minval maxval step : pyval)
    (choices : list pyval) : result hyperparameter :=
  let dtype :=
    match dtype with
    | Some t => Some t
    | None => match value with PNone => None | _ => Some (type_of value) end
    end in
  let cast := _set_dtype_cast_method dtype in
  value ← coerce dtype cast value;
  Ok {| name := name; dtype := dtype; _cast_dtype := cast; value := value;
        optimization_space := optimization_space;
        minval := minval; maxval := maxval; step := step;
        choices := choices |}.

(** [hyperparameter.update]: every attribute of the other instance. *)
Definition update (self new_hyperparameter : hyperparameter) : hyperparameter :=
  new_hyperparameter.

End Builtins.

(** The state every assignment to [dtype] establishes: the cast method is
    the one of the current [dtype]. *)
Definition cast_follows_dtype (self : hyperparameter) : Prop :=
  _cast_dtype self = _set_dtype_cast_method (dtype self).

(** [float(int)] on the integers of the closed examples, which are small:
    up to [2**53] every integer is a float and the conversion is exact. *)
Definition float_of_int_ex (z : Z) : result Q := Ok (inject_Z z).

(** A decimal-free stand-in for the string parsers, for closed examples:
    only the empty string fails to parse. *)
Definition parse_len (s : string) : result Z :=
  match s with
  | EmptyString => Raise (ValueError "invalid literal")
  | _ => Ok (Z.of_nat (String.length s))
  end.

Definition set_value_ex : hyperparameter → pyval → result hyperparameter :=
  set_value parse_len (fun s => inject_Z <$> parse_len s) float_of_int_ex
            (fun _ => "") (fun _ => Ok []).

Definition init_ex (value : pyval) (dtype : option pytype)
  : result hyperparameter :=
  __init__ parse_len (fun s => inject_Z <$> parse_len s) float_of_int_ex
           (fun _ => "") (fun _ => Ok [])
           value "linear" dtype "" PNone PNone PNone [].

End Hyperparameter.

(** ** [class methods]: resolving the program behind a method name *)

Module Methods.

(** The class attribute [methods_map], in its order. *)
Definition methods_map : list (string * list string) :=
  [("aiqm1", ["AIQM1"; "AIQM1@DFT"; "AIQM1@DFT*"]);
   ("ani", ["ANI-1x"; "ANI-1ccx"; "ANI-2x"; "ANI-1x-D4"; "ANI-2x-D4"]);
   ("mndo", ["ODM2*"; "ODM2"; "ODM3"; "OM3"; "OM2"; "OM1"; "PM3"; "AM1";
             "MNDO/d"; "MNDOC"; "MNDO"; "MINDO/3"; "CNDO/2"; "SCC-DFTB";
             "SCC-DFTB-heats"; "MNDO/H"; "MNDO/dH"]);
   ("sparrow", ["DFTB0"; "DFTB2"; "DFTB3"; "MNDO"; "MNDO/d"; "AM1"; "RM1";
                "PM3"; "PM6"; "OM2"; "OM3"; "ODM2*"; "ODM3*"; "AIQM1"]);
   ("xtb", ["GFN2-xTB"]);
   ("dftd4", ["D4"]);
   ("ccsdtstarcbs", ["CCSD(T)*/CBS"]);
   ("gaussian", []);
   ("pyscf", [])].

(** [methods_map[program]]; every key used below is present. *)
Definition interfaced_methods (program : string) : list string :=
  default [] (dict_get String.eqb program methods_map).

(** [os.environ]. *)
Definition getenv (environ : gmap string string) (key : string)
  : option string :=
  environ !! key.

(** The truth value of what [os.getenv] returned. *)
Definition set_and_not_empty (v : option string) : bool :=
  match v with
  | Some s => negb (String.eqb s "")
  | None => false
  end.

(** The constructor call that yields [self.interface]. *)
Inductive interface_call :=
| interfaces_dict (program : string) (method : option string)
| mndo_methods (method : string) (mndobin : option string)
| sparrow_methods (method : string).

(** [self.method.casefold() in [mm.casefold() for mm in methods_map[p]]]. *)
Definition casefold_in (method program : string) : bool :=
  str_in (casefold method) (map casefold (interfaced_methods program)).

(** [self.method in [mm.casefold() for mm in methods_map[p]]]: the method
    name is compared as given. *)
Definition verbatim_in (method program : string) : bool :=
  str_in method (map casefold (interfaced_methods program)).

(** The [for ... else] over [methods_map.items()]. *)
Definition first_interface (method : string) : option string :=
  fst <$> List.find
            (fun item => str_in (casefold method) (map casefold (snd item)))
            methods_map.

Definition default_mndobin : string := "~/apps/mndo2020/mndo2020".

(** The body of [methods.__init__] up to the constructor call it settles
    on: the environment as the call leaves it, and the constructor call
    ([None] when no interface is set), or the exception raised. *)
Definition resolve (method program : option string)
    (environ : gmap string string)
  : gmap string string * result (option interface_call) :=
  match program with
  | Some program =>
      if str_in program (map fst methods_map)
      then (environ, Ok (Some (interfaces_dict program method)))
      else (environ, Ok None)
  | None =>
      match method with
      | None => (environ, Raise (AttributeError "casefold"))
      | Some method =>
          if casefold_in method "mndo" || verbatim_in method "sparrow" then
            if casefold_in method "mndo"
               && set_and_not_empty (getenv environ "mndobin")
            then (environ, Ok (Some (mndo_methods method None)))
            else if casefold_in method "sparrow"
                    && set_and_not_empty (getenv environ "sparrowbin")
            then (environ, Ok (Some (sparrow_methods method)))
            else
              match getenv environ "mndobin" with
              | None =>
                  match environ !! "PATH" with
                  | None => (environ, Raise (KeyError "PATH"))
                  | Some path =>
                      let environ :=
                        <["mndobin" := default_mndobin]>
                          (<["PATH" := (path ++ ":" ++ "~/apps/mndo2020")%string]>
                             environ) in
                      if casefold_in method "mndo"
                      then (environ,
                            Ok (Some (mndo_methods method
                                        (Some default_mndobin))))
                      else (environ,
                            Raise (ValueError
                              "Can't find appropriate program for the requested method, please set the environment variable: export mndobin=... or export sparrowbin=..."))
                  end
              | Some mndobin =>
                  if casefold_in method "mndo"
                     && negb (String.eqb mndobin "")
                  then (environ,
                        Ok (Some (mndo_methods method (Some mndobin))))
                  else (environ,
                        Raise (ValueError
                          "Can't find appropriate program for the requested method, please set the environment variable: export mndobin=... or export sparrowbin=..."))
              end
          else
            match first_interface method with
            | Some interface =>
                (environ, Ok (Some (interfaces_dict interface (Some method))))
            | None =>
                (environ,
                 Raise (ValueError
                   "Can't find appropriate interface for the requested method"))
            end
      end
  end.

(** The attributes of a [methods] object. *)
Record methods {I : Type} := {
  method : option string;
  program : option string;
  interface : option I;
}.

Arguments methods I : clear implicits.

Section Init.

(** The interface classes of [pyar.mlatom.interfaces]: what running a
    constructor call yields in a given environment. *)
Context {I : Type}.
Variable construct : interface_call → gmap string string → result I.

(** [methods.__init__]. *)
Definition __init__ (method program : option string)
    (environ : gmap string string)
  : gmap string string * result (methods I) :=
  let '(environ, call) := resolve method program environ in
  (environ,
   call ← call;
   interface ← match call with
               | Some c => Some <$> construct c environ
               | None => Ok None
               end;
   Ok {| method := method; program := program; interface := interface |}).

End Init.

(** MNDO can answer: the name is on its list, and [mndobin] is unset (the
    default path is then used) or set to a non-empty value. *)
Definition mndo_eligible (m : string) (environ : gmap string string) : bool :=
  casefold_in m "mndo"
  && match environ !! "mndobin" with
     | None => true
     | Some b => negb (String.eqb b "")
     end.

(** Sparrow can answer: the name is on its list and [sparrowbin] is set. *)
Definition sparrow_eligible (m : string) (environ : gmap string string) : bool :=
  casefold_in m "sparrow" && set_and_not_empty (environ !! "sparrowbin").

Definition raises_ValueError {A} (r : result A) : bool :=
  match r with Raise (ValueError _) => true | _ => false end.

(** [methods.known_methods()], as a list. *)
Definition known_methods : list string :=
  concat (map snd methods_map).

(** An environment with a search path and no program location. *)
Definition bare_environ : gmap string string := {[ "PATH" := "/usr/bin" ]}.

End Methods.

(** ** [optimize_grid]: the search behind the ['grid'] and ['brute']
       algorithms *)

Module Grid.

(** [val < min_val] on losses. *)
Definition lt (x y : Q) : bool := negb (Qle_bool y x).

Section OptimizeGrid.

(** Hyperparameter values, and the loss of a point of the grid. *)
Context {V : Type}.
Variable func : list V → Q.

(** What a call returns, [(params, min_val)], and the points at which it
    called [func], in call order. *)
Record scan := {
  opt_params : list V;
  min_val : Q;
  evaluated : list (list V);
}.

(** [l[0]]. *)
Definition first_of {A} (l : list A) : result A :=
  match l with
  | x :: _ => Ok x
  | [] => Raise (IndexError "list index out of range")
  end.

(** [[f(x) for x in l]] for an [f] that may raise. *)
Fixpoint comprehension {A B} (f : A → result B) (l : list A) : result (list B) :=
  match l with
  | [] => Ok []
  | x :: l' => y ← f x; ys ← comprehension f l'; Ok (y :: ys)
  end.

(** The first loop: [last] stays [True] when every axis but the last has
    one value. *)
Definition last (grid : list (list V)) : bool :=
  forallb (fun ii => Nat.eqb (length ii) 1) (removelast grid).

(** One pass of [for param in grid[-1][1:]]. *)
Definition scan_step (other_params : list V)
    (kept : V * Q * list (list V)) (param : V) : V * Q * list (list V) :=
  let '(opt_param, min_val, evaluated) := kept in
  let val := func (other_params ++ [param]) in
  if lt val min_val
  then (param, val, evaluated ++ [other_params ++ [param]])
  else (opt_param, min_val, evaluated ++ [other_params ++ [param]]).

(** The branch [if last:]: one scan of the last axis. *)
Definition scan_last_axis (grid : list (list V)) : result scan :=
  other_params ← comprehension first_of (removelast grid);
  match grid with
  | [] => Raise (IndexError "list index out of range")
  | _ =>
      match List.last grid [] with
      | [] => Raise (IndexError "list index out of range")
      | opt_param :: rest =>
          let start :=
            (opt_param, func (other_params ++ [opt_param]),
             [other_params ++ [opt_param]]) in
          let '(opt_param, min_val, evaluated) :=
            fold_left (scan_step other_params) rest start in
          Ok {| opt_params := other_params ++ [opt_param];
                min_val := min_val;
                evaluated := evaluated |}
      end
  end.

(** The position [kk] at which the second loop breaks: the first axis
    before the last with other than one value. *)
Fixpoint first_open_axis (kk : nat) (axes : list (list V)) : option nat :=
  match axes with
  | [] => None
  | ax :: axes' =>
      if Nat.eqb (length ax) 1 then first_open_axis (S kk) axes' else Some kk
  end.

(** One pass of [for param in grid[kk]], given the result of the recursive
    call; [best] is [None] while [min_val == None]. *)
Definition keep_best (best : option (list V * Q) * list (list V)) (r : scan)
  : option (list V * Q) * list (list V) :=
  let '(best, evaluated0) := best in
  (match best with
   | None => Some (opt_params r, min_val r)
   | Some (opt, m) =>
       if lt (min_val r) m then Some (opt_params r, min_val r)
       else Some (opt, m)
   end,
   evaluated0 ++ evaluated r).

(** [optimize_grid], with the depth of the recursion bounded by [fuel];
    running out of it is [RecursionError]. *)
Fixpoint optimize_grid_rec (fuel : nat) (grid : list (list V)) : result scan :=
  match fuel with
  | O => Raise RecursionError
  | S fuel =>
      if last grid then scan_last_axis grid
      else
        match first_open_axis 0 (removelast grid) with
        | None => Raise (UnboundLocalError "opt_params")
        | Some kk =>
            other_params_left ←
              comprehension (fun ax => x ← first_of ax; Ok [x]) (take kk grid);
            let other_params_right := drop (S kk) grid in
            found ←
              for_each
                (fun param best =>
                   r ← optimize_grid_rec fuel
                         (other_params_left ++ [[param]] ++ other_params_right);
                   Ok (keep_best best r))
                (nth kk grid []) (None, []);
            match found with
            | (Some (opt, m), evaluated) =>
                Ok {| opt_params := opt; min_val := m; evaluated := evaluated |}
            | (None, _) => Raise (UnboundLocalError "opt_params")
            end
        end
  end.

(** [optimize_grid(func, grid)]: each level of the recursion closes one
    axis, so the number of axes bounds its depth. *)
Definition optimize_grid (grid : list (list V)) : result scan :=
  optimize_grid_rec (S (length grid)) grid.

(** The exhaustive search over the grid, as the spec speaks of it: every
    point of the Cartesian product, in lexicographic order, and the first
    of them with the least loss. *)
Fixpoint cartesian (grid : list (list V)) : list (list V) :=
  match grid with
  | [] => [[]]
  | axis :: grid' =>
      flat_map (fun x => map (cons x) (cartesian grid')) axis
  end.

Definition pick (best p : list V) : list V :=
  if lt (func p) (func best) then p else best.

(** The first point of a non-empty list with the least loss. *)
Definition argmin (pts : list (list V)) : list V :=
  fold_left pick (tl pts) (hd [] pts).

Definition scan_all (pts : list (list V)) : scan :=
  {| opt_params := argmin pts; min_val := func (argmin pts);
     evaluated := pts |}.

Definition exhaustive_search (grid : list (list V)) : option scan :=
  match cartesian grid with
  | [] => None
  | pts => Some (scan_all pts)
  end.

(** An axis with one value. *)
Definition sing (x : V) : list V := [x].

(** The axes with other than one value. *)
Definition open_axes (axes : list (list V)) : nat :=
  length (List.filter (fun ax => negb (Nat.eqb (length ax) 1)) axes).

(** The sweep the spec describes, one axis at a time: scan the values of
    axis [k] with the axes before it at the values kept so far and the
    axes after it at their first value, keep the best, go on to axis
    [k + 1].  [done] holds the values kept, [todo] the axes still open. *)
Fixpoint coordinate_sweep (done : list V) (todo : list (list V))
  : option (list V) :=
  match todo with
  | [] => Some done
  | axis :: todo' =>
      match comprehension first_of todo' with
      | Raise _ => None
      | Ok firsts =>
          match axis with
          | [] => None
          | x :: xs =>
              let point v := done ++ [v] ++ firsts in
              let best :=
                fold_left
                  (fun b v => if lt (func (point v)) (func (point b)) then v else b)
                  xs x in
              coordinate_sweep (done ++ [best]) todo'
          end
      end
  end.

End OptimizeGrid.

(** A loss on a three-by-three grid whose least value is off both lines
    through the first point. *)
Definition ridge_loss (p : list Z) : Q :=
  match p with
  | [2; 2]%Z => 0
  | [a; b]%Z => inject_Z (1 + a + b)
  | _ => 100
  end.

(** A convex quadratic loss with its minimum at (1, 2). *)
Definition bowl_loss (p : list Z) : Q :=
  match p with
  | [a; b]%Z => inject_Z ((a - 1) * (a - 1) + (b - 2) * (b - 2))
  | _ => 100
  end.

Definition grid3x3 : list (list Z) := [[0; 1; 2]; [0; 1; 2]]%Z.

End Grid.

(** ** [class krr]: building the kernel matrix *)

Module KRRMatrix.

Section KernelMatrix.

(** The numbers of the arrays, with the arithmetic [train] uses, and the
    geometries [xyz[ii]]. *)
Context {F G : Type}.
Variable zero one : F.
Variable add sub mul : F → F → F.

(** What [self.kernel_function(coordi, coordj, ...)] returns under the
    keys ['value'], ['gradients'] (reshaped to [3*Natoms]), ['gradients_j']
    and ['Hessian']; [train] reads an entry only when its flags requested
    it.  The numbers come from automatic differentiation and are not
    modelled. *)
Variable kernel_value : G → G → F.
Variable kernel_gradients : G → G → list F.
Variable kernel_gradients_j : G → G → list F.
Variable kernel_Hessian : G → G → list (list F).

(** A two-dimensional array, by its entries; the arrays of [train] are
    only read and written inside their shape. *)
Definition matrix := nat → nat → F.

Definition within (lo len i : nat) : bool := (lo <=? i) && (i <? lo + len).

(** [np.zeros((size, size)) + np.identity(size) * lambda_]. *)
Definition ridge (lambda_ : F) : matrix :=
  fun r c => add zero (mul (if Nat.eqb r c then one else zero) lambda_).

(** [K[r][c] += v]. *)
Definition add_entry (K : matrix) (r c : nat) (v : F) : matrix :=
  fun r' c' =>
    if Nat.eqb r' r && Nat.eqb c' c then add (K r' c') v else K r' c'.

(** [K[r, c0:c0+len] += vec]. *)
Definition add_row (K : matrix) (r c0 len : nat) (vec : list F) : matrix :=
  fun r' c' =>
    if Nat.eqb r' r && within c0 len c'
    then add (K r' c') (nth (c' - c0) vec zero) else K r' c'.

(** [K[r, c0:c0+len] = vec]. *)
Definition set_row (K : matrix) (r c0 len : nat) (vec : list F) : matrix :=
  fun r' c' =>
    if Nat.eqb r' r && within c0 len c'
    then nth (c' - c0) vec zero else K r' c'.

(** [K[r0:r0+len, c0:c0+len] += H]. *)
Definition add_block (K : matrix) (r0 c0 len : nat) (H : list (list F))
  : matrix :=
  fun r' c' =>
    if within r0 len r' && within c0 len c'
    then add (K r' c') (nth (c' - c0) (nth (r' - r0) H []) zero)
    else K r' c'.

(** [K[n:, :n] = K[:n, n:].T] on an array of shape [(size, size)]. *)
Definition mirror (K : matrix) (n size : nat) : matrix :=
  fun r' c' =>
    if within n (size - n) r' && (c' <? n) then K c' r' else K r' c'.

(** The body of [for jj in range(ii+1, len(yy))]. *)
Definition pair_step (derivatives : bool) (n Natoms : nat)
    (ii : nat) (xi : G) (K : matrix) (jjx : nat * G) : matrix :=
  let '(jj, xj) := jjx in
  let K := add_entry K ii jj (kernel_value xi xj) in
  let K := add_entry K jj ii (kernel_value xi xj) in
  if derivatives then
    let K := set_row K jj (n + ii * 3 * Natoms) (3 * Natoms)
                     (kernel_gradients xi xj) in
    let K := set_row K ii (n + jj * 3 * Natoms) (3 * Natoms)
                     (kernel_gradients_j xi xj) in
    let K := add_block K (n + ii * 3 * Natoms) (n + jj * 3 * Natoms)
                       (3 * Natoms) (kernel_Hessian xi xj) in
    add_block K (n + jj * 3 * Natoms) (n + ii * 3 * Natoms)
              (3 * Natoms) (kernel_Hessian xi xj)
  else K.

(** The body of [for ii in range(len(yy))]; [later] holds the geometries
    after [ii], with their indices. *)
Definition row_step (derivatives : bool) (n Natoms : nat)
    (K : matrix) (iix : nat * G) (later : list (nat * G)) : matrix :=
  let '(ii, xi) := iix in
  let K := add_entry K ii ii (kernel_value xi xi) in
  let K :=
    if derivatives then
      let K := add_row K ii (n + ii * 3 * Natoms) (3 * Natoms)
                       (kernel_gradients xi xi) in
      add_block K (n + ii * 3 * Natoms) (n + ii * 3 * Natoms)
                (3 * Natoms) (kernel_Hessian xi xi)
    else K in
  fold_left (pair_step derivatives n Natoms ii xi) later K.

(** The outer loop, over the geometries still to visit. *)
Fixpoint rows (derivatives : bool) (n Natoms : nat)
    (todo : list (nat * G)) (K : matrix) : matrix :=
  match todo with
  | [] => K
  | iix :: later =>
      rows derivatives n Natoms later
           (row_step derivatives n Natoms K iix later)
  end.

Definition kernel_matrix_size (derivatives : bool) (n Natoms : nat) : nat :=
  n + (if derivatives then 3 * Natoms * n else 0).

(** The kernel matrix of [krr.train] for a scalar property to learn, with
    ([derivatives]) or without xyz-derivative labels, as it stands before
    the solve. *)
Definition kernel_matrix (derivatives : bool) (Natoms : nat)
    (lambda_ : F) (xyz : list G) : matrix :=
  let n := length xyz in
  let K := rows derivatives n Natoms (combine (seq 0 n) xyz) (ridge lambda_) in
  if derivatives
  then mirror K n (kernel_matrix_size derivatives n Natoms)
  else K.

(** Symmetric on the leading [m] by [m] block. *)
Definition symmetric_below (m : nat) (K : nat → nat → F) : Prop :=
  ∀ r c, r < m → c < m → K r c = K c r.

(** The matrix minus the ridge term [lambda * I]. *)
Definition without_ridge (lambda_ : F) (K : matrix) : matrix :=
  fun r c => sub (K r c) (mul (if Nat.eqb r c then one else zero) lambda_).

End KernelMatrix.

(** The Gaussian kernel on the RE descriptor between diatomic geometries
    of bond length 1 with [Req = 1] and [sigma = 1]: the descriptors
    coincide, so the value is 1, both gradients vanish, and the Hessian,
    rows by the coordinates of the first geometry and columns by those of
    the second, is the outer product of the descriptor Jacobians. *)
Definition unit_bond_jacobian (g : list (list Q)) : list Q :=
  match g with
  | [a1; a2] =>
      let d := map (fun p => (fst p - snd p)%Q) (combine a1 a2) in
      map Qopp d ++ d
  | _ => []
  end.

Definition unit_bond_Hessian (gi gj : list (list Q)) : list (list Q) :=
  map (fun u => map (fun v => (u * v)%Q) (unit_bond_jacobian gj))
      (unit_bond_jacobian gi).

(** Two such geometries: the bond along x, and along y. *)
Definition bond_x : list (list Q) := [[0; 0; 0]; [1; 0; 0]]%Q.
Definition bond_y : list (list Q) := [[0; 0; 0]; [0; 1; 0]]%Q.

Definition unit_bond_kernel_matrix (lambda_ : Q) : nat → nat → Q :=
  kernel_matrix 0%Q 1%Q Qplus Qmult
    (fun _ _ => 1%Q)
    (fun _ _ => repeat 0%Q 6) (fun _ _ => repeat 0%Q 6)
    unit_bond_Hessian
    true 2 lambda_ [bond_x; bond_y].

End KRRMatrix.

(** ** [class model_tree_node] *)

Module ModelTree.

(** *** Array arithmetic of the property containers *)

(** Entry by entry, on lists of one length. *)
Fixpoint zip_exact (f : Q → Q → Q) (a b : list Q) : result (list Q) :=
  match a, b with
  | [], [] => Ok []
  | x :: a', y :: b' => r ← zip_exact f a' b'; Ok (f x y :: r)
  | _, _ => Raise (ValueError "operands could not be broadcast together")
  end.

Fixpoint zip_exact2 (f : Q → Q → Q) (a b : list (list Q))
  : result (list (list Q)) :=
  match a, b with
  | [], [] => Ok []
  | x :: a', y :: b' =>
      r0 ← zip_exact f x y; r ← zip_exact2 f a' b'; Ok (r0 :: r)
  | _, _ => Raise (ValueError "operands could not be broadcast together")
  end.

(** The elementwise sum of two arrays of one shape. *)
Definition nd_add (a b : ndarray) : result ndarray :=
  match a, b with
  | Scalar x, Scalar y => Ok (Scalar (x + y))
  | Vector u, Vector v => Vector <$> zip_exact Qplus u v
  | Matrix m, Matrix n => Matrix <$> zip_exact2 Qplus m n
  | _, _ => Raise (ValueError "operands could not be broadcast together")
  end.

(** Every entry divided by a count. *)
Definition nd_div (a : ndarray) (k : nat) : ndarray :=
  let d (x : Q) := (x / inject_Z (Z.of_nat k))%Q in
  match a with
  | Scalar x => Scalar (d x)
  | Vector v => Vector (map d v)
  | Matrix m => Matrix (map (map d) m)
  end.

(** Modelled from the spec: [properties_tree_node.sum] is not among the
    sources; the spec has it add a property across the children
    elementwise. *)
Definition nd_sum (values : list ndarray) : result ndarray :=
  match values with
  | [] => Ok (Scalar 0)
  | v :: values' => for_each (fun x acc => nd_add acc x) values' v
  end.

(** Modelled from the spec: [properties_tree_node.average] is not among
    the sources; the spec has it take the elementwise mean, the sum divided
    by the child count. *)
Definition nd_mean (values : list ndarray) : result ndarray :=
  match values with
  | [] => Raise (ValueError "mean of no children")
  | _ => total ← nd_sum values; Ok (nd_div total (length values))
  end.

(** *** Molecules as the tree sees them *)

(** What a backend reads of a molecule. *)
Definition geometry (mol : molecule) : list (Z * list Q) :=
  map (fun a => (atomic_number a, xyz_coordinates a)) (atoms mol).

(** A leaf [Model], by the contract of its [predict]: it writes the
    requested results into [molecule.energy], [atom.energy_gradients] and
    [molecule.hessian].  The results are a function of the geometry. *)
Record leaf_model := {
  energy_of : list (Z * list Q) → Q;
  energy_gradients_of : list (Z * list Q) → nat → list Q;
  hessian_of : list (Z * list Q) → list (list Q);
}.

(** The flags of a [predict] call, after the defaults for the keys the
    caller left out ([True], [False], [False]). *)
Record flags := {
  calculate_energy : bool;
  calculate_energy_gradients : bool;
  calculate_hessian : bool;
}.

(** [properties] and [atomic_properties] of [predict]. *)
Definition properties (f : flags) : list string :=
  (if calculate_energy f then ["energy"] else [])
  ++ (if calculate_hessian f then ["hessian"] else []).

Definition atomic_properties (f : flags) : list string :=
  if calculate_energy_gradients f then ["energy_gradients"] else [].

Definition set_atom (p : string) (v : list Q) (a : atom) : atom :=
  {| atomic_number := atomic_number a;
     xyz_coordinates := xyz_coordinates a;
     atom_dict := <[p := v]> (atom_dict a) |}.

Definition set_mol (p : string) (v : pyvalue) (mol : molecule) : molecule :=
  {| atoms := atoms mol; mol_dict := <[p := v]> (mol_dict mol) |}.

(** [self.model.predict(...)] on one molecule. *)
Definition leaf_predict (m : leaf_model) (f : flags) (mol : molecule)
  : molecule :=
  let g := geometry mol in
  let mol :=
    if calculate_energy f
    then set_mol "energy" (Num (Scalar (energy_of m g))) mol else mol in
  let mol :=
    if calculate_energy_gradients f
    then {| atoms := imap (fun i a =>
                             set_atom "energy_gradients"
                                      (energy_gradients_of m g i) a)
                          (atoms mol);
            mol_dict := mol_dict mol |}
    else mol in
  if calculate_hessian f
  then set_mol "hessian" (Num (Matrix (hessian_of m g))) mol else mol.

(** [molecule.__dict__[name]], read as a property container. *)
Definition get_node (name : string) (mol : molecule)
  : result properties_tree_node :=
  match mol_dict mol !! name with
  | Some (Node c) => Ok c
  | Some (Num _) => Raise (AttributeError name)
  | None => Raise (KeyError name)
  end.

Definition with_dict (c : properties_tree_node) (d : gmap string ndarray)
  : properties_tree_node :=
  {| ptn_name := ptn_name c; ptn_parent := ptn_parent c;
     ptn_children := ptn_children c; ptn_dict := d |}.

(** Modelled from the spec: the constructor of [properties_tree_node] is
    not among the sources.  As the spec says of tree nodes, and as
    [model_tree_node.__init__] does, a new node is appended to the
    children of the parent it is given, and becomes the parent of the
    children it is given. *)
Definition register_with_parent (self_name : string) (parent : option string)
    (mol : molecule) : result molecule :=
  match parent with
  | None => Ok mol
  | Some pn =>
      pc ← get_node pn mol;
      let kids := default [] (ptn_children pc) in
      let kids := if str_in self_name kids then kids else kids ++ [self_name] in
      Ok (set_mol pn
            (Node {| ptn_name := ptn_name pc; ptn_parent := ptn_parent pc;
                     ptn_children := Some kids; ptn_dict := ptn_dict pc |})
            mol)
  end.

Definition adopt (self_name : string) (child : string) (mol : molecule)
  : result molecule :=
  c ← get_node child mol;
  Ok (set_mol child
        (Node {| ptn_name := ptn_name c; ptn_parent := Some self_name;
                 ptn_children := ptn_children c; ptn_dict := ptn_dict c |})
        mol).

(** The first loop of [predict], on one molecule: the container of the
    node is created unless the molecule has the node's name already. *)
Definition ensure_container (self_name : string) (parent_name : option string)
    (children_names : option (list string)) (mol : molecule)
  : result molecule :=
  match mol_dict mol !! self_name with
  | Some _ => Ok mol
  | None =>
      let parent :=
        match parent_name with
        | Some pn => if bool_decide (is_Some (mol_dict mol !! pn))
                     then Some pn else None
        | None => None
        end in
      let found :=
        List.filter (fun k => bool_decide (is_Some (mol_dict mol !! k)))
                    (default [] children_names) in
      let children := match found with [] => None | _ => Some found end in
      mol ← register_with_parent self_name parent mol;
      mol ← for_each (adopt self_name) found mol;
      Ok (set_mol self_name
            (Node {| ptn_name := self_name; ptn_parent := parent;
                     ptn_children := children; ptn_dict := ∅ |})
            mol)
  end.

(** [get_properties_from_molecule]. *)
Definition get_properties_from_molecule (self_name : string)
    (properties atomic_properties : list string) (mol : molecule)
  : result molecule :=
  c ← get_node self_name mol;
  property_values ←
    for_each
      (fun property_name property_values =>
         match mol_dict mol !! property_name with
         | Some (Num v) => Ok (<[property_name := v]> property_values)
         | Some (Node _) => Raise (TypeError property_name)
         | None => Ok property_values
         end)
      properties (ptn_dict c);
  property_values ←
    for_each
      (fun property_name property_values =>
         rows ← map_result
                  (fun a => match atom_dict a !! property_name with
                            | Some v => Ok v
                            | None => Raise (KeyError property_name)
                            end)
                  (atoms mol);
         Ok (<[property_name := Matrix rows]> property_values))
      atomic_properties property_values;
  Ok (set_mol self_name (Node (with_dict c property_values)) mol).

(** [[child.__dict__[property_name] for child in self.children]] for the
    children a container holds. *)
Definition child_values (kids : list string) (property_name : string)
    (mol : molecule) : result (list ndarray) :=
  map_result
    (fun k =>
       child ← get_node k mol;
       match ptn_dict child !! property_name with
       | Some v => Ok v
       | None => Raise (KeyError property_name)
       end)
    kids.

(** One property of [.sum(names)] or [.average(names)]. *)
Definition combine_step (op : list ndarray → result ndarray)
    (self_name : string) (property_name : string) (mol : molecule)
  : result molecule :=
  c ← get_node self_name mol;
  kids ← match ptn_children c with
         | Some kids => Ok kids
         | None => Raise (TypeError "'NoneType' object is not iterable")
         end;
  values ← child_values kids property_name mol;
  v ← op values;
  Ok (set_mol self_name
        (Node (with_dict c (<[property_name := v]> (ptn_dict c)))) mol).

(** [molecule.__dict__[name].sum(names)] and [.average(names)]: for every
    property, the values of the children of the container are combined
    into the container. *)
Definition combine (op : list ndarray → result ndarray) (self_name : string)
    (names : list string) (mol : molecule) : result molecule :=
  for_each (combine_step op self_name) names mol.

(** [a[iatom]] for the array of a per-atom property. *)
Definition row (a : ndarray) (iatom : nat) : result (list Q) :=
  match a with
  | Matrix m =>
      match m !! iatom with
      | Some v => Ok v
      | None => Raise (IndexError "index out of bounds")
      end
  | Vector _ | Scalar _ => Raise (IndexError "invalid index to scalar variable")
  end.

(** [mol.__dict__[property_name] = mol.__dict__[self.name].__dict__[property_name]]. *)
Definition update_property (self_name : string) (property_name : string)
    (mol : molecule) : result molecule :=
  c ← get_node self_name mol;
  match ptn_dict c !! property_name with
  | Some v => Ok (set_mol property_name (Num v) mol)
  | None => Raise (KeyError property_name)
  end.

(** The body of [for iatom in range(len(mol.atoms))]. *)
Definition update_atom (self_name : string) (property_name : string)
    (mol : molecule) (ia : nat * atom) : result atom :=
  c ← get_node self_name mol;
  match ptn_dict c !! property_name with
  | Some a =>
      v ← row a (fst ia);
      Ok (set_atom property_name v (snd ia))
  | None => Raise (KeyError property_name)
  end.

Definition update_atomic_property (self_name : string) (property_name : string)
    (mol : molecule) : result molecule :=
  new_atoms ← map_result (update_atom self_name property_name mol)
                         (imap (fun i a => (i, a)) (atoms mol));
  Ok {| atoms := new_atoms; mol_dict := mol_dict mol |}.

(** [update_molecular_properties], on one molecule. *)
Definition update_molecular_properties (self_name : string)
    (properties atomic_properties : list string) (mol : molecule)
  : result molecule :=
  mol ← for_each (update_property self_name) properties mol;
  for_each (update_atomic_property self_name) atomic_properties mol.

(** *** The tree *)

Inductive model_tree_node := Build_node {
  name : string;
  children : option (list model_tree_node);
  operator : option string;
  model : option leaf_model;
}.

Definition children_names (self : model_tree_node) : option (list string) :=
  map name <$> children self.

(** [child.name in molDB.molecules[0].__dict__]. *)
Definition annotated (child_name : string) (molDB : list molecule)
  : result bool :=
  match molDB with
  | mol :: _ => Ok (bool_decide (is_Some (mol_dict mol !! child_name)))
  | [] => Raise (IndexError "list index out of range")
  end.

(** [for child in self.children: if not child.name in
    molDB.molecules[0].__dict__: child.predict(...)], with the call on the
    child as a parameter. *)
Fixpoint children_loop
    (child_predict : model_tree_node → list molecule → result (list molecule))
    (children : list model_tree_node) (molDB : list molecule)
  : result (list molecule) :=
  match children with
  | [] => Ok molDB
  | child :: children' =>
      seen ← annotated (name child) molDB;
      molDB ← (if (seen : bool) then Ok molDB else child_predict child molDB);
      children_loop child_predict children' molDB
  end.

(** The combination the operator of a node names. *)
Definition operator_function (operator : option string)
  : option (list ndarray → result ndarray) :=
  if bool_decide (operator = Some "sum") then Some nd_sum
  else if bool_decide (operator = Some "average") then Some nd_mean
  else None.

(** [model_tree_node.predict] on a database, for a node whose [parent]
    link is the one the tree above it set ([None] at the root). *)
Fixpoint predict (self : model_tree_node) (parent : option string)
    (f : flags) (molDB : list molecule) {struct self}
  : result (list molecule) :=
  match self with
  | Build_node self_name children operator model =>
      molDB ← map_result
                (ensure_container self_name parent (map name <$> children))
                molDB;
      molDB ←
        match children with
        | None =>
            if bool_decide (operator = Some "predict") then
              match model with
              | None => Raise (AttributeError "predict")
              | Some m =>
                  map_result
                    (get_properties_from_molecule self_name (properties f)
                       (atomic_properties f))
                    (map (leaf_predict m f) molDB)
              end
            else Raise (TypeError "'NoneType' object is not iterable")
        | Some children =>
            molDB ←
              children_loop
                (fun child molDB => predict child (Some self_name) f molDB)
                children molDB;
            match operator_function operator with
            | Some op =>
                map_result
                  (combine op self_name
                     (properties f ++ atomic_properties f)) molDB
            | None => Ok molDB
            end
        end;
      match parent with
      | None =>
          map_result
            (update_molecular_properties self_name (properties f)
               (atomic_properties f)) molDB
      | Some _ => Ok molDB
      end
  end.

(** A property held by the container of a node on a molecule. *)
Definition node_property (node_name property_name : string) (mol : molecule)
  : option ndarray :=
  match mol_dict mol !! node_name with
  | Some (Node c) => ptn_dict c !! property_name
  | _ => None
  end.

(** What an operator makes of a property of the children of a node. *)
Definition combined (op : list ndarray → result ndarray) (kids : list string)
    (property_name : string) (mol : molecule) : result ndarray :=
  values ← child_values kids property_name mol; op values.

(** The value is what the operator makes of the values of the children:
    their elementwise sum, or that sum divided by their count. *)
Definition is_combination (operator : option string) (values : list ndarray)
    (v : ndarray) : Prop :=
  (operator = Some "sum" ∧ nd_sum values = Ok v)
  ∨ (operator = Some "average"
     ∧ ∃ total, nd_sum values = Ok total
                ∧ v = nd_div total (length values)).

(** The names the tree writes at the top level of a molecule. *)
Definition reserved : list string := ["energy"; "hessian"].

(** The name of a node is not a name of its children, and no name of
    theirs is a top-level property name. *)
Definition well_named (self_name : string) (kids : list string) : bool :=
  negb (str_in self_name kids)
  && negb (str_in self_name reserved)
  && forallb (fun k => negb (str_in k reserved)) kids.

(** The molecule holds the container of the node with the containers of
    its children registered in it, as the [predict] calls on the children
    leave it. *)
Definition ready (self_name : string) (kids : list string) (mol : molecule)
  : bool :=
  match mol_dict mol !! self_name with
  | Some (Node c) =>
      bool_decide (ptn_children c = Some kids)
      && forallb (fun k => bool_decide (is_Some (mol_dict mol !! k))) kids
  | _ => false
  end.

(** The top level of the molecule agrees with the container of the node:
    every requested molecular property is there under its own name, and
    every atom holds its row of every requested atomic property. *)
Definition published (self_name : string) (f : flags) (mol : molecule) : Prop :=
  (∀ p, In p (properties f) →
     ∃ v, node_property self_name p mol = Some v
          ∧ mol_dict mol !! p = Some (Num v))
  ∧ (∀ p, In p (atomic_properties f) →
       ∀ i a, atoms mol !! i = Some a →
         ∃ arr v, node_property self_name p mol = Some arr
                  ∧ row arr i = Ok v
                  ∧ atom_dict a !! p = Some v).

(** The children of the node have left their containers on the molecule,
    and the container of the node, if the molecule has it already, holds
    them. *)
Definition prepared (self_name : string) (kids : list string) (mol : molecule)
  : bool :=
  forallb (fun k => bool_decide (is_Some (mol_dict mol !! k))) kids
  && match mol_dict mol !! self_name with
     | None => negb (Nat.eqb (length kids) 0)
     | Some (Node c) => bool_decide (ptn_children c = Some kids)
     | Some (Num _) => false
     end.

(** Two values of a molecule's [__dict__] that are the same, or are
    containers with the same properties and the same children. *)
Definition node_like (v v' : option pyvalue) : Prop :=
  v' = v
  ∨ ∃ c c', v = Some (Node c) ∧ v' = Some (Node c')
            ∧ ptn_dict c' = ptn_dict c
            ∧ ptn_children c' = ptn_children c.

(** Three leaves that report fixed energies and gradients, under a root. *)
Definition fixed_leaf (leaf_name : string) (e g : Q) : model_tree_node :=
  Build_node leaf_name None (Some "predict")
    (Some {| energy_of := fun _ => e;
             energy_gradients_of := fun _ _ => [g; 0; 0]%Q;
             hessian_of := fun _ => [[e]] |}).

Definition three_leaves (operator : string) : model_tree_node :=
  Build_node "root"
    (Some [fixed_leaf "a" 1 10; fixed_leaf "b" 2 20; fixed_leaf "c" 4 40])
    (Some operator) None.

Definition energy_and_gradients : flags :=
  {| calculate_energy := true; calculate_energy_gradients := true;
     calculate_hessian := false |}.

(** What an outside caller reads after [predict]: the energy of the
    molecule and the gradients on its atoms. *)
Definition top_level (mol : molecule)
  : option pyvalue * list (option (list Q)) :=
  (mol_dict mol !! "energy",
   map (fun a => atom_dict a !! "energy_gradients") (atoms mol)).

(** The database a first [predict] leaves, empty if it raised. *)
Definition once (self : model_tree_node) (f : flags) (molDB : list molecule)
  : list molecule :=
  match predict self None f molDB with
  | Ok molDB => molDB
  | Raise _ => []
  end.

(** The database the children of a node leave when they have predicted
    on it and the node has not, empty if one of them raised. *)
Definition children_first (self : model_tree_node) (f : flags)
    (molDB : list molecule) : list molecule :=
  match children_loop
          (fun child molDB => predict child (Some (name self)) f molDB)
          (default [] (children self)) molDB with
  | Ok molDB => molDB
  | Raise _ => []
  end.

End ModelTree.

(** ** [class methods]: the calls after construction *)

Module MethodsApi.

Import Methods.

(** [methods.is_known_method]; the set [known_methods()] is read through
    membership only. *)
Definition is_known_method (method : option string) : result bool :=
  match method with
  | None => Raise (AttributeError "casefold")
  | Some method => Ok (str_in (casefold method) (map casefold known_methods))
  end.

Section Predict.

(** The interface objects and what their [predict] hands back. *)
Context {I D : Type}.
Variable interface_predict :
  I → option molecular_database → option molecule → bool → bool → bool
  → result D.

(** [methods.predict]: [hasattr(self, 'interface')] fails when [__init__]
    set no interface. *)
Definition predict (self : methods I)
    (molecular_database : option molecular_database)
    (molecule : option molecule)
    (calculate_energy calculate_energy_gradients calculate_hessian : bool)
  : result D :=
  match interface self with
  | None => Raise (ValueError "Interface not set for the requested method")
  | Some interface =>
      interface_predict interface molecular_database molecule
        calculate_energy calculate_energy_gradients calculate_hessian
  end.

End Predict.

End MethodsApi.

(** ** [load]: choosing the reader of a model file *)

Module Load.

Fixpoint drop_chars (k : nat) (s : string) : string :=
  match k, s with
  | S k', String _ s' => drop_chars k' s'
  | _, _ => s
  end.

(** [s[-n:]]: the last [n] characters, the whole string when it has
    fewer. *)
Definition last_chars (n : nat) (s : string) : string :=
  drop_chars (String.length s - n) s.

Section Load.

(** The model objects the readers return; [None] is Python's [None]. *)
Context {M : Type}.
Variable load_json : string → result (option M).
Variable load_pickle : string → result (option M).

(** [load_npz]: its body is [pass]. *)
Definition load_npz (filename : string) : result (option M) := Ok None.

(** [load(filename, format)]: each [try] swallows every exception, and the
    function returns [None] when it runs off its end. *)
Definition load (filename : string) (format : option string)
  : result (option M) :=
  let read :=
    if String.eqb (last_chars 5 filename) ".json"
       || bool_decide (format = Some "json")
    then match load_json filename with
         | Ok m => Some m
         | Raise _ => None
         end
    else None in
  match read with
  | Some m => Ok m
  | None =>
      if String.eqb (last_chars 5 filename) ".npz"
         || bool_decide (format = Some "npz")
      then match load_npz filename with
           | Ok m => Ok m
           | Raise _ => Ok None
           end
      else load_pickle filename
  end.

End Load.

End Load.

(** ** [hyperparameter.copy] and [class hyperparameters] *)

Module Hyperparameters.

Import Hyperparameter.

(** What is assigned to a key: a [hyperparameter] object, or any other
    value. *)
Inductive assigned :=
| Hyper (h : hyperparameter)
| Plain (v : pyval).

(** The dictionary [self.data] of a [hyperparameters] object. *)
Abbreviation hyperparameters := (gmap string hyperparameter).

(** What [__setattr__] did: it left the assignment to [object], or it
    assigned an item. *)
Inductive setattr_outcome :=
| ObjectAttribute
| Item (self : hyperparameters).

Section Builtins.

Variable int_of_str : string → result Z.
Variable float_of_str : string → result Q.
Variable float_of_int : Z → result Q.
Variable str_of : pyval → string.
Variable array_of : pyval → result (list Q).

(** [hyperparameter.copy]: the class called on the entries of
    [self.__dict__]; the entry [_cast_dtype] lands in the [**kwargs] of
    [__init__], which does not read them. *)
Definition hyperparameter_copy (self : hyperparameter) : result hyperparameter :=
  __init__ int_of_str float_of_str float_of_int str_of array_of
    (value self) (optimization_space self) (dtype self) (name self)
    (minval self) (maxval self) (step self) (choices self).

(** [hyperparameters.__setitem__]. *)
Definition __setitem__ (key : string) (value : assigned)
    (self : hyperparameters) : result hyperparameters :=
  match value with
  | Hyper new =>
      match self !! key with
      | Some old => Ok (<[key := update old new]> self)
      | None => Ok (<[key := new]> self)
      end
  | Plain v =>
      match self !! key with
      | Some old =>
          h ← set_value int_of_str float_of_str float_of_int str_of array_of
               old v;
          Ok (<[key := h]> self)
      | None =>
          h ← __init__ int_of_str float_of_str float_of_int str_of array_of
                 v "linear" None key PNone PNone PNone [];
          Ok (<[key := h]> self)
      end
  end.

(** [self[key]]. *)
Definition __getitem__ (key : string) (self : hyperparameters)
  : result hyperparameter :=
  match self !! key with
  | Some h => Ok h
  | None => Raise (KeyError key)
  end.

(** What reading an attribute yields: the value of an item, or the
    attribute the object or its class holds under the name. *)
Inductive attribute :=
| ItemValue (v : pyval)
| Attribute (key : string).

(** [hyperparameters.__getattr__]; [own] holds the keys of
    [self.__dict__], of which [data] is one once the object is built. *)
Definition __getattr__ (own : list string) (key : string)
    (self : hyperparameters) : result attribute :=
  match self !! key with
  | Some h => Ok (ItemValue (value h))
  | None =>
      if str_in key own then Ok (Attribute key) else Raise (KeyError key)
  end.

(** [self.key]: Python looks the name up on the object and on its class
    first, and calls [__getattr__] only when it finds it on neither;
    [class_names] holds the names the class and its bases define, such as
    [copy], [keys] and [update]. *)
Definition getattr (class_names own : list string) (key : string)
    (self : hyperparameters) : result attribute :=
  if str_in key own || str_in key class_names then Ok (Attribute key)
  else __getattr__ own key self.

(** [hyperparameters.__setattr__]; [own] holds the keys of
    [self.__dict__]. *)
Definition __setattr__ (own : list string) (key : string) (value : assigned)
    (self : hyperparameters) : result setattr_outcome :=
  if String.prefix "__" key || str_in key own || String.eqb key "data"
  then Ok ObjectAttribute
  else Item <$> __setitem__ key value self.

(** [self.update(other)] as [UserDict] inherits it:
    [for key in other: self[key] = other[key]]. *)
Definition update (other : list (string * assigned)) (self : hyperparameters)
  : result hyperparameters :=
  for_each (fun item self => __setitem__ (fst item) (snd item) self) other self.

(** [hyperparameters(d)] for a dictionary of [hyperparameter] objects:
    [UserDict.__init__] starts from an empty [data] and updates it. *)
Definition from_dict (d : gmap string hyperparameter) : result hyperparameters :=
  update (map (fun item => (fst item, Hyper (snd item))) (map_to_list d)) ∅.

(** What [copy] is to hold under a key asked for: the copy of the item,
    if there is one and copying it returns. *)
Definition copied (self : hyperparameters) (key : string)
  : option hyperparameter :=
  match self !! key with
  | Some h =>
      match hyperparameter_copy h with
      | Ok c => Some c
      | Raise _ => None
      end
  | None => None
  end.

(** [hyperparameters.copy]. *)
Definition copy (keys : option (list string)) (self : hyperparameters)
  : result hyperparameters :=
  let keys :=
    match keys with
    | Some keys => keys
    | None => map fst (map_to_list self)
    end in
  d ← for_each
        (fun key (d : gmap string hyperparameter) =>
           h ← __getitem__ key self;
           c ← hyperparameter_copy h;
           Ok (<[key := c]> d))
        keys ∅;
  from_dict d.

End Builtins.

(** A hyperparameter as [__init__] and the assignments leave it: the cast
    method is the one of [dtype], and the value is an instance of [dtype],
    or [None] without one. *)
Definition settled (self : hyperparameter) : Prop :=
  cast_follows_dtype self
  ∧ match dtype self with
    | Some t => isinstance (value self) t = true
    | None => value self = PNone
    end.

(** Closed instances, with the stand-in parsers of the examples. *)
Definition copy_ex : option (list string) → hyperparameters
    → result hyperparameters :=
  copy parse_len (fun s => inject_Z <$> parse_len s) float_of_int_ex
       (fun _ => "") (fun _ => Ok []).

Definition setitem_ex : string → assigned → hyperparameters
    → result hyperparameters :=
  __setitem__ parse_len (fun s => inject_Z <$> parse_len s) float_of_int_ex
              (fun _ => "") (fun _ => Ok []).

Definition update_ex : list (string * assigned) → hyperparameters
    → result hyperparameters :=
  update parse_len (fun s => inject_Z <$> parse_len s) float_of_int_ex
         (fun _ => "") (fun _ => Ok []).

Definition hyperparameter_copy_ex : hyperparameter → result hyperparameter :=
  hyperparameter_copy parse_len (fun s => inject_Z <$> parse_len s)
      float_of_int_ex
                      (fun _ => "") (fun _ => Ok []).

(** [hyperparameters({'batch_size': hyperparameter(value=8, minval=1,
    maxval=1024, dtype=int), 'learning_rate': hyperparameter(value=1/1000,
    minval=1/10000, maxval=1/100, optimization_space='log')})]. *)
Definition batch_size : hyperparameter :=
  {| name := ""; dtype := Some py_int; _cast_dtype := Some (Constructor py_int);
     value := PInt 8; optimization_space := "linear";
     minval := PInt 1; maxval := PInt 1024; step := PNone; choices := [] |}.

Definition learning_rate : hyperparameter :=
  {| name := ""; dtype := Some py_float;
     _cast_dtype := Some (Constructor py_float);
     value := PFloat (1 # 1000); optimization_space := "log";
     minval := PFloat (1 # 10000); maxval := PFloat (1 # 100);
     step := PNone; choices := [] |}.

Definition training_defaults : hyperparameters :=
  <["batch_size" := batch_size]> (<["learning_rate" := learning_rate]> ∅).

End Hyperparameters.

(** ** [ml_model.predict]: the names the predictions are stored under *)

Module MLModel.

Import Validation.

(** [ml_model.predict]: the database of [model.predict], and the three
    names, which the [calculate_...] flags override. *)
Definition predict (molecular_database : option molecular_database)
    (molecule : option molecule)
    (calculate_energy : bool) (property_to_predict : option string)
    (calculate_energy_gradients : bool)
    (xyz_derivative_property_to_predict : option string)
    (calculate_hessian : bool) (hessian_to_predict : option string)
  : result (Data.molecular_database
            * option string * option string * option string) :=
  molecular_database ← Model.predict molecular_database molecule;
  let property_to_predict :=
    if calculate_energy then Some "energy" else property_to_predict in
  let xyz_derivative_property_to_predict :=
    if calculate_energy_gradients then Some "energy_gradients"
    else xyz_derivative_property_to_predict in
  let hessian_to_predict :=
    if calculate_hessian then Some "hessian" else hessian_to_predict in
  Ok (molecular_database, property_to_predict,
      xyz_derivative_property_to_predict, hessian_to_predict).

(** The defaults a [predict] signature gives the three names. *)
Record signature := {
  default_property_to_predict : option string;
  default_xyz_derivative_property_to_predict : option string;
  default_hessian_to_predict : option string;
}.

(** [ml_model.predict], [ani.predict], and [krr.predict] with
    [kreg.predict]. *)
Definition ml_model_signature : signature :=
  {| default_property_to_predict := Some "estimated_y";
     default_xyz_derivative_property_to_predict :=
       Some "estimated_xyz_derivatives_y";
     default_hessian_to_predict := Some "estimated_hessian_y" |}.

Definition ani_signature : signature :=
  {| default_property_to_predict := Some "estimated_y";
     default_xyz_derivative_property_to_predict := None;
     default_hessian_to_predict := None |}.

Definition krr_signature : signature :=
  {| default_property_to_predict := None;
     default_xyz_derivative_property_to_predict := None;
     default_hessian_to_predict := None |}.

(** A keyword of the call, or the default of the signature. *)
Definition keyword {A} (given : option A) (by_default : A) : A :=
  match given with
  | Some v => v
  | None => by_default
  end.

(** The call the validation engine makes,
    [self.predict(molecular_database=..., ** prediction_kwargs)], as it
    reaches [ml_model.predict] through a signature with these defaults;
    the flags default to [False] in each of them, and
    [prediction_kwargs=None] stands for no keyword. *)
Definition predict_with (sig : signature) (kw : option prediction_kwargs)
    (molecular_database : molecular_database)
  : result (Data.molecular_database
            * option string * option string * option string) :=
  predict (Some molecular_database) None
    (keyword (kw ≫= pk_calculate_energy) false)
    (keyword (Some <$> (kw ≫= pk_property_to_predict))
             (default_property_to_predict sig))
    (keyword (kw ≫= pk_calculate_energy_gradients) false)
    (keyword (Some <$> (kw ≫= pk_xyz_derivative_property_to_predict))
             (default_xyz_derivative_property_to_predict sig))
    false (default_hessian_to_predict sig).

(** When the name the engine reads is the name [predict] writes: by the
    flag of the keywords, the name they give and the default of the
    signature; [read_flag] and [read_plain] are the names the engine falls
    back to with and without the flag among the keywords. *)
Definition names_agree (flag : option bool) (given by_default : option string)
    (read_flag read_plain written_flag : string) : Prop :=
  match flag with
  | Some true => given = Some written_flag
  | Some false => is_Some given ∨ by_default = Some read_flag
  | None => is_Some given ∨ by_default = Some read_plain
  end.

End MLModel.

(** ** [krr] and [kreg]: the RE descriptor *)

Module KREG.

(** [l[i]] for a list or an array, with an index that is not negative. *)
Definition index {A} (l : list A) (i : nat) : result A :=
  match l !! i with
  | Some x => Ok x
  | None => Raise (IndexError "index out of range")
  end.

(** The pairs [(iatom, jatom)] the two loops of [RE_descriptor_tensor]
    visit, in the order they visit them. *)
Definition atom_pairs (Natoms : nat) : list (nat * nat) :=
  flat_map (fun iatom => map (pair iatom) (seq (iatom + 1) (Natoms - (iatom + 1))))
           (seq 0 Natoms).

Section Descriptor.

(** The numbers of a tensor, and the position of an atom. *)
Context {F P : Type}.
Variable distance_tensor : P → P → F.
Variable div : F → F → F.

(** The body of the inner loop; the state is [icount] and [descriptor],
    which is unbound before the first pass. *)
Definition pair_body (coord_tensor : list P) (Req : list F)
    (iatom jatom : nat) (st : nat * option (list F))
  : result (nat * option (list F)) :=
  let '(icount, descriptor) := st in
  r ← index Req icount;
  atomi ← index coord_tensor iatom;
  atomj ← index coord_tensor jatom;
  let output := div r (distance_tensor atomi atomj) in
  descriptor ←
    (if Nat.eqb icount 0 then Ok [output]
     else match descriptor with
          | Some descriptor => Ok (descriptor ++ [output])
          | None => Raise (UnboundLocalError "descriptor")
          end);
  Ok (icount + 1, Some descriptor).

(** [krr.RE_descriptor_tensor]. *)
Definition RE_descriptor_tensor (coord_tensor : list P) (Req : list F)
  : result (list F) :=
  let Natoms := length coord_tensor in
  st ← for_each
         (fun iatom st =>
            for_each (pair_body coord_tensor Req iatom)
                     (seq (iatom + 1) (Natoms - (iatom + 1))) st)
         (seq 0 Natoms) (0, None);
  match snd st with
  | Some descriptor => Ok descriptor
  | None => Raise (UnboundLocalError "descriptor")
  end.

(** The loop of [kreg.get_equilibrium_distances] over the rows of the
    distance matrix of the equilibrium molecule:
    [Req = np.concatenate((Req, eq_distmat[ii][ii+1:]))]. *)
Definition get_equilibrium_distances (eq_distmat : list (list F)) : list F :=
  fold_left (fun Req ii => Req ++ drop (ii + 1) (nth ii eq_distmat []))
            (seq 0 (length eq_distmat)) [].

(** What the loops of [RE_descriptor_tensor] have made of the first [c]
    pairs of [all]. *)
Definition described (coord : list P) (Req : list F) (all : list (nat * nat))
    (c : nat) (d : list F) : Prop :=
  length d = c
  ∧ ∀ k i j r ci cj,
      k < c → all !! k = Some (i, j) → Req !! k = Some r →
      coord !! i = Some ci → coord !! j = Some cj →
      d !! k = Some (div r (distance_tensor ci cj)).

(** [eq_distmat[i][j]]. *)
Definition entry (eq_distmat : list (list F)) (i j : nat) : option F :=
  eq_distmat !! i ≫= fun row => row !! j.

End Descriptor.

(** Three atoms on a line, at 0, 1 and 3, and their distance matrix. *)
Definition on_a_line : list Q := [0; 1; 3]%Q.

Definition line_distance (a b : Q) : Q :=
  if Qle_bool a b then (b - a)%Q else (a - b)%Q.

Definition line_distmat : list (list Q) :=
  [[0; 1; 3]; [1; 0; 2]; [3; 2; 0]]%Q.

End KREG.

(** ** The ANI front end: what a database-level [predict] leaves *)

Module ANIDatabase.

Import ANI.

(** A molecule the guard of [predict_for_molecule] stops. *)
Definition skipped (available : list Z) (mol : molecule) : bool :=
  guard available (atoms mol).

End ANIDatabase.

(** ** [model_tree_node.set_num_threads] *)

Module Threads.

Import ModelTree.

(** [model_tree_node.set_num_threads], after [model.set_num_threads]: the
    nodes whose [nthreads] the call assigned, in the order of the
    assignments, and the exception that ended the call, if one did.  The
    wrapped [model] of a node is not called. *)
Fixpoint set_num_threads (nthreads : Z) (self : model_tree_node) {struct self}
  : list string * option exception :=
  match self with
  | Build_node name children _ _ =>
      if Z.eqb nthreads 0 then ([name], None)
      else
        match children with
        | None =>
            ([name], Some (TypeError "'NoneType' object is not iterable"))
        | Some children =>
            let '(log, e) :=
              (fix loop (children : list model_tree_node)
                 : list string * option exception :=
                 match children with
                 | [] => ([], None)
                 | child :: children' =>
                     let '(log, e) := set_num_threads nthreads child in
                     match e with
                     | Some _ => (log, e)
                     | None =>
                         let '(log', e') := loop children' in
                         (log ++ log', e')
                     end
                 end) children in
            (name :: log, e)
        end
  end.

(** The loop over the children, on its own. *)
Fixpoint children_threads (nthreads : Z) (children : list model_tree_node)
  : list string * option exception :=
  match children with
  | [] => ([], None)
  | child :: children' =>
      let '(log, e) := set_num_threads nthreads child in
      match e with
      | Some _ => (log, e)
      | None =>
          let '(log', e') := children_threads nthreads children' in
          (log ++ log', e')
      end
  end.

(** Every node of the tree holds a list of children, empty at the
    leaves. *)
Fixpoint children_are_lists (self : model_tree_node) : bool :=
  match self with
  | Build_node _ children _ _ =>
      match children with
      | None => false
      | Some children => forallb children_are_lists children
      end
  end.

(** The names of the nodes of the tree, a node before its children. *)
Fixpoint node_names (self : model_tree_node) : list string :=
  match self with
  | Build_node name children _ _ =>
      name :: match children with
              | None => []
              | Some children => flat_map node_names children
              end
  end.

(** The three leaves with an empty list of children each. *)
Definition listed_leaf (leaf_name : string) : model_tree_node :=
  Build_node leaf_name (Some []) (Some "predict") None.

End Threads.

(** ** [dump] and [load_dict]: models as dictionaries *)

Module Persistence.

(** The values of a model dictionary. *)
Inductive pyobj :=
| ONone
| OStr (s : string)
| OList (l : list pyobj)
| ODict (d : list (string * pyobj)).

(** A dictionary, by its items in insertion order; the keys are
    distinct. *)
Abbreviation dict := (list (string * pyobj)).

(** [d[key]]. *)
Definition getitem (key : string) (d : dict) : result pyobj :=
  match dict_get String.eqb key d with
  | Some v => Ok v
  | None => Raise (KeyError key)
  end.

(** [d.pop(key)]: the value, and the dictionary as the call leaves it. *)
Definition pop (key : string) (d : dict) : option (pyobj * dict) :=
  match dict_get String.eqb key d with
  | Some v =>
      Some (v, List.filter (fun item => negb (String.eqb key (fst item))) d)
  | None => None
  end.

(** The dictionary after the object under [key] was mutated into [v]. *)
Definition setitem (key : string) (v : pyobj) (d : dict) : dict :=
  map (fun item => if String.eqb key (fst item) then (fst item, v) else item) d.

(** [bool(v)]. *)
Definition truthy (v : pyobj) : bool :=
  match v with
  | ONone => false
  | OStr s => negb (String.eqb s "")
  | OList l => negb (Nat.eqb (length l) 0)
  | ODict d => negb (Nat.eqb (length d) 0)
  end.

(** [v == s] for a string [s]. *)
Definition is_str (v : pyobj) (s : string) : bool :=
  match v with
  | OStr s' => String.eqb s' s
  | _ => false
  end.

(** The nesting of lists and dictionaries in a value. *)
Fixpoint depth (o : pyobj) : nat :=
  match o with
  | ONone | OStr _ => 0
  | OList l =>
      S ((fix deepest (l : list pyobj) : nat :=
            match l with
            | [] => 0
            | v :: l' => Nat.max (depth v) (deepest l')
            end) l)
  | ODict d =>
      S ((fix deepest (d : dict) : nat :=
            match d with
            | [] => 0
            | (_, v) :: d' => Nat.max (depth v) (deepest d')
            end) d)
  end.

(** [s.split('.')[-1]]: what follows the last dot. *)
Fixpoint after_last_dot (s current : string) : string :=
  match s with
  | EmptyString => current
  | String c s' =>
      if Ascii.eqb c "."%char then after_last_dot s' EmptyString
      else after_last_dot s' (current ++ String c EmptyString)%string
  end.

Definition last_component (s : string) : string := after_last_dot s EmptyString.

(** The keywords of a call [f( ** d, ** kwargs )]. *)
Definition call_keywords (d kwargs : dict) : result dict :=
  if existsb (fun item => str_in (fst item) (map fst d)) kwargs
  then Raise (TypeError "got multiple values for keyword argument")
  else Ok (d ++ kwargs).

Section Objects.

(** The objects of the classes [methods] and of the subclasses of
    [ml_model]. *)
Context {M : Type}.

(** What [load_dict] returns and a tree holds: [None], an object of one
    of these classes, or a [model_tree_node] with its [name], [operator],
    [children] and [model]. *)
Inductive object :=
| Nothing
| Leaf (m : M)
| TreeNode (name operator : pyobj) (children : option (list object))
           (model : object).

Definition is_nothing (o : object) : bool :=
  match o with
  | Nothing => true
  | _ => false
  end.

(** [methods.dump(format='dict')] and [ml_model.dump(format='dict')]. *)
Variable leaf_dump : M → result pyobj.

(** [methods( ** keywords )]. *)
Variable methods_new : dict → result M.

(** [globals()[name]], a class to be called on keywords, if the module
    has that name. *)
Variable ml_model_class : string → option (dict → result M).

(** [dump(format='dict')] on an object a tree may hold. *)
Fixpoint dump (self : object) : result pyobj :=
  match self with
  | Nothing => Raise (AttributeError "dump")
  | Leaf m => leaf_dump m
  | TreeNode name operator children model =>
      children ←
        match children with
        | None | Some [] => Ok ONone
        | Some children => OList <$> map_result dump children
        end;
      model ←
        match model with
        | Nothing => Ok ONone
        | _ => dump model
        end;
      Ok (ODict [("type", OStr "model_tree_node"); ("name", name);
                 ("children", children); ("operator", operator);
                 ("model", model)])
  end.

(** [model_tree_node(name=..., children=..., operator=..., model=...)]:
    the constructor makes itself the parent of every child. *)
Definition new_tree_node (name operator : pyobj)
    (children : option (list object)) (model : object) : result object :=
  match children with
  | Some children' =>
      if existsb is_nothing children'
      then Raise (AttributeError "parent")
      else Ok (TreeNode name operator children model)
  | None => Ok (TreeNode name operator children model)
  end.

(** [load_dict(model_dict)]: the dictionary as the call leaves it, and the
    object returned or the exception raised.  [fuel] bounds the depth of
    the recursion. *)
Fixpoint load_dict_rec (fuel : nat) (model_dict : pyobj)
  : pyobj * result object :=
  match fuel with
  | O => (model_dict, Raise RecursionError)
  | S fuel =>
      match model_dict with
      | ODict d =>
          match pop "type" d with
          | None => (model_dict, Raise (KeyError "type"))
          | Some (type, d) =>
              if is_str type "method" then
                match pop "kwargs" d with
                | Some (ODict kwargs, d) =>
                    (ODict d,
                     keywords ← call_keywords d kwargs;
                     Leaf <$> methods_new keywords)
                | Some (_, d) =>
                    (ODict d,
                     Raise (TypeError "argument after ** must be a mapping"))
                | None => (ODict d, Leaf <$> methods_new d)
                end
              else if is_str type "ml_model" then
                (ODict d,
                 t ← getitem "ml_model_type" d;
                 match t with
                 | OStr t =>
                     match ml_model_class (last_component t) with
                     | None => Raise (KeyError (last_component t))
                     | Some class =>
                         kwargs ← getitem "kwargs" d;
                         match kwargs with
                         | ODict kwargs => Leaf <$> class kwargs
                         | _ =>
                             Raise (TypeError
                                      "argument after ** must be a mapping")
                         end
                     end
                 | _ => Raise (AttributeError "split")
                 end)
              else if is_str type "model_tree_node" then
                match getitem "children" d with
                | Raise e => (ODict d, Raise e)
                | Ok cv =>
                    let '(cv, children) :=
                      if truthy cv then
                        match cv with
                        | OList l =>
                            let '(l, r) :=
                              (fix load_children (l : list pyobj)
                                 : list pyobj * result (list object) :=
                                 match l with
                                 | [] => ([], Ok [])
                                 | child_dict :: l' =>
                                     let '(child_dict, r) :=
                                       load_dict_rec fuel child_dict in
                                     match r with
                                     | Raise e => (child_dict :: l', Raise e)
                                     | Ok child =>
                                         let '(l', rs) := load_children l' in
                                         (child_dict :: l', cons child <$> rs)
                                     end
                                 end) l in
                            (OList l, Some <$> r)
                        | _ => (cv, Raise (AttributeError "pop"))
                        end
                      else (cv, Ok None) in
                    let d := setitem "children" cv d in
                    match children with
                    | Raise e => (ODict d, Raise e)
                    | Ok children =>
                        match getitem "name" d with
                        | Raise e => (ODict d, Raise e)
                        | Ok name =>
                            match getitem "operator" d with
                            | Raise e => (ODict d, Raise e)
                            | Ok operator =>
                                match getitem "model" d with
                                | Raise e => (ODict d, Raise e)
                                | Ok mv =>
                                    let '(mv, model) :=
                                      if truthy mv
                                      then load_dict_rec fuel mv
                                      else (mv, Ok Nothing) in
                                    (ODict (setitem "model" mv d),
                                     model ← model;
                                     new_tree_node name operator children
                                                   model)
                                end
                            end
                        end
                    end
                end
              else (ODict d, Ok Nothing)
          end
      | OList _ =>
          (model_dict,
           Raise (TypeError "'str' object cannot be interpreted as an integer"))
      | _ => (model_dict, Raise (AttributeError "pop"))
      end
  end.

(** The loop over the dictionaries of the children, on its own. *)
Fixpoint load_children (fuel : nat) (l : list pyobj)
  : list pyobj * result (list object) :=
  match l with
  | [] => ([], Ok [])
  | child_dict :: l' =>
      let '(child_dict, r) := load_dict_rec fuel child_dict in
      match r with
      | Raise e => (child_dict :: l', Raise e)
      | Ok child =>
          let '(l', rs) := load_children fuel l' in
          (child_dict :: l', cons child <$> rs)
      end
  end.

(** [load_dict]: the nesting of the dictionary bounds the recursion. *)
Definition load_dict (model_dict : pyobj) : pyobj * result object :=
  load_dict_rec (S (depth model_dict)) model_dict.

(** What a tree comes back as: an empty list of children has become
    [None]. *)
Fixpoint reloaded (self : object) : object :=
  match self with
  | TreeNode name operator children model =>
      TreeNode name operator
        match children with
        | None | Some [] => None
        | Some children => Some (map reloaded children)
        end
        (reloaded model)
  | _ => self
  end.

(** No list of children holds [None]. *)
Fixpoint dumpable (self : object) : bool :=
  match self with
  | Nothing => false
  | Leaf _ => true
  | TreeNode _ _ children model =>
      match children with
      | None => true
      | Some children => forallb dumpable children
      end
      && match model with
         | Nothing => true
         | _ => dumpable model
         end
  end.

(** The objects at the leaves. *)
Fixpoint leaves (self : object) : list M :=
  match self with
  | Nothing => []
  | Leaf m => [m]
  | TreeNode _ _ children model =>
      match children with
      | None => []
      | Some children => flat_map leaves children
      end ++ leaves model
  end.

Definition is_tree_node (o : object) : bool :=
  match o with
  | TreeNode _ _ _ _ => true
  | _ => false
  end.

(** A leaf that comes back from its dictionary. *)
Definition leaf_round_trip (m : M) : Prop :=
  ∃ d, leaf_dump m = Ok d
       ∧ ∀ fuel, depth d < fuel → snd (load_dict_rec fuel d) = Ok (Leaf m).

(** The round trip of an object, at every depth of recursion that
    suffices. *)
Definition comes_back (t : object) : Prop :=
  dumpable t = true →
  Forall leaf_round_trip (leaves t) →
  ∃ d, dump t = Ok d
       ∧ ∀ fuel, depth d < fuel →
           ∃ d', load_dict_rec fuel d = (d', Ok (reloaded t)).

End Objects.

Arguments object M : clear implicits.

(** A closed instance: a method object is the name of its method. *)
Definition name_dump (m : string) : result pyobj :=
  Ok (ODict [("type", OStr "method"); ("method", OStr m)]).

Definition name_new (keywords : dict) : result string :=
  match dict_get String.eqb "method" keywords with
  | Some (OStr m) => Ok m
  | _ => Raise (ValueError "Can't find appropriate interface for the requested method")
  end.

Definition dump_ex : object string → result pyobj := dump name_dump.

Definition load_dict_ex : pyobj → pyobj * result (object string) :=
  load_dict name_new (fun _ => None).

(** ANI-1ccx with its D4 correction: the sum of the average of two
    networks and of the correction. *)
Definition corrected_ensemble : object string :=
  TreeNode (OStr "ani1ccxd4") (OStr "sum")
    (Some [TreeNode (OStr "ani1ccxd4_nn") (OStr "average")
             (Some [TreeNode (OStr "nn0") (OStr "predict") None (Leaf "ANI-1ccx");
                    TreeNode (OStr "nn1") (OStr "predict") (Some [])
                             (Leaf "ANI-1ccx")])
             Nothing;
           TreeNode (OStr "d4_wb97x") (OStr "predict") None (Leaf "D4")])
    Nothing.

End Persistence.

(** ** Trees of leaves, on molecules no tree has annotated *)

Module TreeRun.

Import ModelTree.





(** No name of the list is a key of the molecule's [__dict__]. *)
Definition fresh (names : list string) (mol : molecule) : bool :=
  forallb (fun k => negb (bool_decide (is_Some (mol_dict mol !! k)))) names.


End TreeRun.

(** ** [class kreg]: the name of the model file *)

Module KREGFile.

(** [if model_file[-4:] != '.npz': model_file += '.npz']. *)
Definition with_npz (model_file : string) : string :=
  if String.eqb (Load.last_chars 4 model_file) ".npz" then model_file
  else String.append model_file ".npz".

(** [kreg.__init__]: the [model_file] of the object, as the constructor
    sets it before it looks for the file. *)
Definition init_model_file (ml_program : string) (model_file : option string)
  : option string :=
  if String.eqb (casefold ml_program) (casefold "KREG_API")
  then with_npz <$> model_file
  else model_file.

(** [kreg.train]: the [model_file] of the object, as [train] sets it
    before it trains; [fresh] is the text of [uuid.uuid4()]. *)
Definition train_model_file (ml_program : string) (save_model : bool)
    (fresh : string) (model_file : option string) : option string :=
  if String.eqb (casefold ml_program) (casefold "MLatomF") then
    if save_model then
      match model_file with
      | None => Some (String.append "kreg_" (String.append fresh ".unf"))
      | Some file => Some file
      end
    else model_file
  else if String.eqb (casefold ml_program) (casefold "KREG_API") then
    if save_model then
      match model_file with
      | None => Some (String.append "kreg_" (String.append fresh ".npz"))
      | Some file => Some (with_npz file)
      end
    else model_file
  else model_file.

End KREGFile.

(** ** Sample data used by the closed examples of Part II *)

Module Samples.

Definition h_atom (x : Q) : atom :=
  {| atomic_number := 1; xyz_coordinates := [x; 0; 0]%Q; atom_dict := ∅ |}.

Definition h2 : molecule :=
  {| atoms := [h_atom 0; h_atom (3 # 4)]; mol_dict := ∅ |}.

Definition he : molecule :=
  {| atoms := [{| atomic_number := 2; xyz_coordinates := [0; 0; 0]%Q;
                  atom_dict := ∅ |}];
     mol_dict := ∅ |}.

End Samples.

(* ===================================================================== *)
(** * Part II: the properties                                             *)
(* ===================================================================== *)

(** ** [model.predict] *)

Section ModelPredict.

(** C1, as stated, fails: with both arguments supplied the call does not
    raise; it proceeds on the database and ignores the molecule. *)
Lemma predict_both_supplied_proceeds :
  Model.predict (Some [Samples.he]) (Some Samples.h2) = Ok [Samples.he]
  ∧ raises (Model.predict (Some [Samples.he]) (Some Samples.h2)) = false.
Proof. split; reflexivity. Qed.

(** C1 (amended): [predict] raises [ValueError] when neither argument is
    supplied, and only then; a supplied database is used as it is, whether
    or not a molecule comes with it; a molecule alone is wrapped in a
    one-molecule database. *)
Theorem predict_input_selection :
  ∀ (d : molecular_database) (x : molecule) (m : option molecule),
    Model.predict (Some d) m = Ok d
    ∧ Model.predict None (Some x) = Ok [x]
    ∧ (∃ msg, Model.predict None None = Raise (ValueError msg))
    ∧ ∀ db, raises (Model.predict db m) = true ↔ (db = None ∧ m = None).
Proof.
  intros d x m. split; [reflexivity|]. split; [reflexivity|].
  split; [eexists; reflexivity|].
  intros db. split.
  - destruct db, m; cbn; intros E; try discriminate; split; reflexivity.
  - intros [-> ->]. reflexivity.
Qed.

End ModelPredict.

(** ** [ani_methods.predict]: elements outside the supported set *)

Section AniUnsupportedElement.

Variable ensemble_predict : bool → bool → bool → molecule → result molecule.

Lemma z_in_In (z : Z) (l : list Z) : ANI.z_in z l = true ↔ In z l.
Proof.
  unfold ANI.z_in. rewrite existsb_exists. split.
  - intros (y & Hy & E). apply Z.eqb_eq in E. now subst.
  - intros H. exists z. split; [exact H | apply Z.eqb_refl].
Qed.

Lemma guard_spec (available : list Z) (ats : list atom) :
  ANI.guard available ats = true
  ↔ ∃ a, In a ats ∧ ¬ In (atomic_number a) available.
Proof.
  induction ats as [|a ats IH]; cbn.
  - split; [discriminate | intros (a & [] & _)].
  - destruct (ANI.z_in (atomic_number a) available) eqn:E; cbn.
    + rewrite IH. apply z_in_In in E. split.
      * intros (b & Hb & Hn). exists b. split; [now right | exact Hn].
      * intros (b & [<- | Hb] & Hn); [contradiction | now exists b].
    + split; [intros _ | reflexivity].
      exists a. split; [now left |].
      intros Hin. apply z_in_In in Hin. congruence.
Qed.

(** C10, as stated, fails: predicting helium with ANI-1ccx (hydrogen,
    carbon, nitrogen and oxygen only) raises nothing; the call returns with
    the molecule as it was and one warning line on standard output. *)
Lemma ani_predict_helium_returns :
  ANI.predict (fun _ _ _ m => Ok m) (ANI.model_setup "ANI-1ccx")
              None (Some Samples.he) true false false
  = Ok ([Samples.he],
        [" * Warning * Molecule contains elements other than CHNO, no calculations performed"]).
Proof. reflexivity. Qed.

(** C10 (amended): when a molecule holds an atom whose atomic number is not
    in [atomic_number_available], [predict_for_molecule] prints one warning
    and returns normally, leaving the molecule untouched and without
    calling the networks; [predict] on that molecule likewise returns it
    unchanged. No exception is raised. *)
Theorem ani_unsupported_element_skipped :
  ∀ (self : ANI.ani_methods) (available : list Z) (mol : molecule)
    (ce ceg ch : bool),
    ANI.atomic_number_available self = Some available →
    (∃ a, In a (atoms mol) ∧ ¬ In (atomic_number a) available) →
    ANI.predict_for_molecule ensemble_predict self mol ce ceg ch
    = Ok {| ANI.out_molecule := mol; ANI.out_stdout := [ANI.warning self] |}
    ∧ ANI.predict ensemble_predict self None (Some mol) ce ceg ch
      = Ok ([mol], [ANI.warning self]).
Proof.
  intros self available mol ce ceg ch Hav Hbad.
  assert (Hone : ANI.predict_for_molecule ensemble_predict self mol ce ceg ch
    = Ok {| ANI.out_molecule := mol; ANI.out_stdout := [ANI.warning self] |}).
  { unfold ANI.predict_for_molecule, ANI.check_atoms.
    destruct (atoms mol) as [|a0 ats] eqn:Hats.
    - destruct Hbad as (a & [] & _).
    - rewrite Hav. apply guard_spec in Hbad.
      cbn -[ANI.guard]. rewrite Hbad. reflexivity. }
  split; [exact Hone |].
  unfold ANI.predict. cbn. rewrite Hone. reflexivity.
Qed.

End AniUnsupportedElement.

(** The amended C10 at a fluoromethane-like input under ANI-1x. *)
Lemma ani_unsupported_element_skipped_witness :
  let self := ANI.model_setup "ANI-1x" in
  let mol := {| atoms := [Samples.h_atom 0;
                          {| atomic_number := 9;
                             xyz_coordinates := [1; 0; 0]%Q;
                             atom_dict := ∅ |}];
                mol_dict := ∅ |} in
  ANI.predict_for_molecule (fun _ _ _ m => Ok m) self mol true true false
  = Ok {| ANI.out_molecule := mol; ANI.out_stdout := [ANI.warning self] |}
  ∧ ANI.predict (fun _ _ _ m => Ok m) self None (Some mol) true true false
    = Ok ([mol], [ANI.warning self]).
Proof.
  intros self mol.
  apply (ani_unsupported_element_skipped (fun _ _ _ m => Ok m) self
           [1; 6; 7; 8]%Z mol true true false).
  - reflexivity.
  - exists {| atomic_number := 9; xyz_coordinates := [1; 0; 0]%Q;
              atom_dict := ∅ |}.
    split.
    + right. left. reflexivity.
    + cbn. intros [H | [H | [H | [H | []]]]]; discriminate H.
Defined.

(** The same guard at training time: [ani.data_setup] prints and returns
    when the database holds an element outside a non-empty species order. *)
Lemma data_setup_species_returns_early :
  ANI.data_setup_species ["H"; "C"] ["C"; "F"; "H"] = (["H"; "C"], true)
  ∧ ANI.data_setup_species [] ["C"; "F"; "H"] = (["C"; "F"; "H"], false).
Proof. split; reflexivity. Qed.


(** ** [ml_model.cross_validation] *)

Section CrossValidation.

Import Validation.

Lemma others_from_below (k ii : nat) (l : list database) :
  ii < k → others_from k ii l = l.
Proof.
  revert k. induction l as [|x l IH]; intros k Hlt; cbn; [reflexivity|].
  destruct (Nat.eqb_spec ii k); [lia|]. cbn. f_equal. apply IH. lia.
Qed.

Lemma others_from_take_drop (k ii : nat) (l : list database) :
  k ≤ ii →
  others_from k ii l = take (ii - k) l ++ drop (S (ii - k)) l.
Proof.
  revert k. induction l as [|x l IH]; intros k Hle; cbn.
  - now rewrite take_nil.
  - destruct (Nat.eqb_spec ii k) as [->|Hne].
    + rewrite Nat.sub_diag. cbn. rewrite drop_0.
      apply others_from_below. lia.
    + replace (ii - k) with (S (ii - S k)) by lia. cbn.
      f_equal. apply IH. lia.
Qed.

Lemma subtraining_fold (pre l : list database) (start : database) (ii : nat) :
  fold_left
    (fun molecules jj =>
       if Nat.eqb ii jj then molecules
       else (molecules ++ nth jj (pre ++ l) [])%list)
    (seq (length pre) (length l)) start
  = (start ++ concat (others_from (length pre) ii l))%list.
Proof.
  revert pre start.
  induction l as [|x l IH]; intros pre start; cbn.
  - now rewrite app_nil_r.
  - rewrite nth_middle.
    replace (pre ++ x :: l) with ((pre ++ [x]) ++ l)
      by now rewrite <- app_assoc.
    replace (S (length pre)) with (length (pre ++ [x]))
      by (rewrite length_app; cbn; lia).
    rewrite IH.
    destruct (Nat.eqb ii (length pre)); cbn.
    + reflexivity.
    + now rewrite <- app_assoc.
Qed.

(** Fold [ii] trains on the concatenation of the other splits, in order. *)
Lemma subtraining_is_the_other_splits (cv_splits : list database) (ii : nat) :
  subtraining_molecular_database cv_splits ii
  = concat (take ii cv_splits ++ drop (S ii) cv_splits).
Proof.
  unfold subtraining_molecular_database.
  pose proof (subtraining_fold [] cv_splits [] ii) as E. cbn in E.
  rewrite E. rewrite others_from_take_drop by lia.
  now rewrite Nat.sub_0_r.
Qed.

Lemma nth_seq_map (pre l : list database) :
  map (fun ii => nth ii (pre ++ l) []) (seq (length pre) (length l)) = l.
Proof.
  revert pre. induction l as [|x l IH]; intros pre; cbn; [reflexivity|].
  rewrite nth_middle. f_equal.
  specialize (IH (pre ++ [x])).
  rewrite <- app_assoc in IH. cbn in IH.
  rewrite length_app in IH. cbn in IH.
  replace (length pre + 1) with (S (length pre)) in IH by lia.
  exact IH.
Qed.

Lemma cross_validation_record (cv_splits : list database) (l : list nat)
    (log : list event) :
  for_each (cross_validation_fold cv_splits) l log
  = Ok (log ++ flat_map (fold_calls cv_splits) l)%list.
Proof.
  revert log. induction l as [|ii l IH]; intros log; cbn.
  - now rewrite app_nil_r.
  - unfold cross_validation_fold at 1. cbn.
    rewrite IH, subtraining_is_the_other_splits.
    rewrite <- !app_assoc. reflexivity.
Qed.

Lemma fold_calls_counts (cv_splits : list database) (l : list nat) :
  length (List.filter is_train (flat_map (fold_calls cv_splits) l)) = length l
  ∧ length (List.filter is_predict (flat_map (fold_calls cv_splits) l)) = length l
  ∧ length (List.filter is_reset (flat_map (fold_calls cv_splits) l)) = length l.
Proof.
  induction l as [|ii l (IH1 & IH2 & IH3)]; cbn; [easy|].
  rewrite IH1, IH2, IH3. easy.
Qed.

Lemma fold_calls_predicted (cv_splits : list database) (l : list nat) :
  predicted (flat_map (fold_calls cv_splits) l)
  = concat (map (fun ii => nth ii cv_splits []) l).
Proof.
  induction l as [|ii l IH]; cbn; [reflexivity|].
  unfold predicted in IH. rewrite IH. reflexivity.
Qed.

(** C6: on the recording model, [cross_validation] over [k] splits returns
    normally after exactly [k] train, predict, reset cycles; cycle [ii]
    trains on the concatenation of the splits other than [ii] and predicts
    on split [ii]; the databases predicted, in order, concatenate to the
    concatenation of the splits, so every molecule is predicted as often as
    it occurs in the splits, once when they share none. *)
Theorem cross_validation_cycles :
  ∀ cv_splits : list database,
  ∃ log : list event,
    cross_validation cv_splits [] = Ok log
    ∧ log = flat_map (fold_calls cv_splits) (seq 0 (length cv_splits))
    ∧ length log = 3 * length cv_splits
    ∧ length (List.filter is_train log) = length cv_splits
    ∧ length (List.filter is_predict log) = length cv_splits
    ∧ length (List.filter is_reset log) = length cv_splits
    ∧ predicted log = concat cv_splits
    ∧ (∀ m, count_occ Nat.eq_dec (predicted log) m
            = count_occ Nat.eq_dec (concat cv_splits) m)
    ∧ (List.NoDup (concat cv_splits) →
       ∀ m, In m (concat cv_splits) →
            count_occ Nat.eq_dec (predicted log) m = 1).
Proof.
  intros cv_splits.
  exists (flat_map (fold_calls cv_splits) (seq 0 (length cv_splits))).
  assert (Hpred :
    predicted (flat_map (fold_calls cv_splits) (seq 0 (length cv_splits)))
    = concat cv_splits).
  { rewrite fold_calls_predicted.
    pose proof (nth_seq_map [] cv_splits) as E. cbn in E. now rewrite E. }
  destruct (fold_calls_counts cv_splits (seq 0 (length cv_splits)))
    as (C1 & C2 & C3).
  rewrite length_seq in C1, C2, C3.
  split.
  { unfold cross_validation. now rewrite cross_validation_record. }
  split; [reflexivity|].
  split.
  { rewrite <- (length_seq (length cv_splits) 0) at 2.
    generalize (seq 0 (length cv_splits)) as l.
    induction l as [|ii l IH]; cbn; [reflexivity | rewrite IH; lia]. }
  split; [exact C1|]. split; [exact C2|]. split; [exact C3|].
  split; [exact Hpred|].
  split.
  - intros m. now rewrite Hpred.
  - intros Hnd m Hin. rewrite Hpred.
    apply (proj1 (NoDup_count_occ' Nat.eq_dec (concat cv_splits))); assumption.
Qed.

End CrossValidation.

(** ** The default validation loss *)

Section ValidationLoss.

Import Validation.

Context {S : Type} `{ml_model S}.
Variable get_properties : string → database → S → list R.
Variable get_xyz_vectorial_properties :
  string → database → S → list (list (list R)).

(** The three shapes of the default loss, on the closure itself. *)
Lemma geomRMSEloc_cases (p q : string) (est y : list R)
    (dest dref : list (list (list R))) (ey yy : option (list R))
    (dx dy : option (list (list (list R)))) :
  geomRMSEloc (Some p) None (Some est) (Some y) dx dy = Ok (rmse est y)
  ∧ geomRMSEloc None (Some q) ey yy (Some dest) (Some dref)
    = Ok (rmse (reshape_flat dest) (reshape_flat dref))
  ∧ geomRMSEloc (Some p) (Some q) (Some est) (Some y) (Some dest) (Some dref)
    = Ok (sqrt (rmse est y * rmse (reshape_flat dest) (reshape_flat dref)))
  ∧ geomRMSEloc None None ey yy dx dy = Ok 1%R.
Proof.
  unfold geomRMSEloc. cbn. rewrite !Rmult_1_l. repeat split; reflexivity.
Qed.

(** C5: once the trial (holdout or cross-validation) has run, the loss
    [calculate_validation_loss] returns with the default loss function is
    decided by the keys of [training_kwargs].  With [property_to_learn]
    given and [xyz_derivative_property_to_learn] absent or [None], it is
    the RMSE of the predicted against the reference values; with only
    [xyz_derivative_property_to_learn] given, the RMSE of the flattened
    derivatives; with both given, the square root of the product of the
    two; with neither, or without [training_kwargs], it is 1.  The
    predicted values are read under the names [prediction_kwargs] gives,
    or under the defaults. *)
Theorem default_validation_loss :
  ∀ (learn dlearn : option (option string)) (pk : option prediction_kwargs)
    (cv_splits : option (list database)) (subtraining validation : database)
    (self self' : S),
    trial cv_splits subtraining validation self = Ok self' →
    let db := scored cv_splits validation in
    let estimated :=
      match pk with
      | Some kw =>
          match pk_property_to_predict kw with
          | Some given => given
          | None =>
              match pk_calculate_energy kw with
              | Some _ => "estimated_energy"
              | None => "estimated_y"
              end
          end
      | None => "estimated_y"
      end in
    let estimated_derivatives :=
      match pk with
      | Some kw =>
          match pk_xyz_derivative_property_to_predict kw with
          | Some given => given
          | None =>
              match pk_calculate_energy_gradients kw with
              | Some _ => "estimated_energy_gradients"
              | None => "estimated_xyz_derivatives_y"
              end
          end
      | None => "estimated_xyz_derivatives_y"
      end in
    let scalar_rmse p :=
      rmse (get_properties estimated db self') (get_properties p db self') in
    let derivative_rmse q :=
      rmse (reshape_flat (get_xyz_vectorial_properties
              estimated_derivatives db self'))
           (reshape_flat (get_xyz_vectorial_properties q db self')) in
    let loss tk :=
      calculate_validation_loss get_properties get_xyz_vectorial_properties
        tk pk cv_splits subtraining validation None self in
    loss (Some {| tk_property_to_learn := learn;
                  tk_xyz_derivative_property_to_learn := dlearn |})
    = Ok (self',
          match learn, dlearn with
          | Some (Some p), Some (Some q) =>
              sqrt (scalar_rmse p * derivative_rmse q)
          | Some (Some p), _ => scalar_rmse p
          | _, Some (Some q) => derivative_rmse q
          | _, _ => 1%R
          end)
    ∧ loss None = Ok (self', 1%R).
Proof.
  intros learn dlearn pk cv_splits subtraining validation self self' Htrial db
    estimated estimated_derivatives scalar_rmse derivative_rmse loss.
  subst loss. unfold calculate_validation_loss.
  assert (Hrun :
    match cv_splits with
    | None =>
        self0 ← holdout_validation subtraining validation self;
        Ok (self0, validation)
    | Some splits =>
        self0 ← cross_validation splits self; Ok (self0, concat splits)
    end = Ok (self', db)).
  { subst db. unfold trial, scored in *.
    destruct cv_splits; rewrite Htrial; reflexivity. }
  rewrite Hrun. cbn -[geomRMSEloc].
  split.
  - destruct learn as [[p|]|], dlearn as [[q|]|];
      unfold geomRMSEloc; cbn; rewrite ?Rmult_1_l; reflexivity.
  - unfold geomRMSEloc. cbn. reflexivity.
Qed.

End ValidationLoss.

Section ValidationLossExamples.

Import Validation.

(** The loss theorem on the recording model with the fixed annotations:
    a holdout trial that learns the energy and the forces. *)
Lemma default_validation_loss_witness :
  let db := [2] in
  example_loss (Some {| tk_property_to_learn := Some (Some "energy");
                        tk_xyz_derivative_property_to_learn :=
                          Some (Some "forces") |})
  = Ok ([Train [0; 1]; Predict [2]; Reset],
        sqrt (rmse (example_properties "estimated_y" db
                      [Train [0; 1]; Predict [2]; Reset])
                   (example_properties "energy" db
                      [Train [0; 1]; Predict [2]; Reset])
              * rmse (reshape_flat
                        (example_derivatives "estimated_xyz_derivatives_y" db
                           [Train [0; 1]; Predict [2]; Reset]))
                     (reshape_flat
                        (example_derivatives "forces" db
                           [Train [0; 1]; Predict [2]; Reset]))))
    ∧ example_loss None = Ok ([Train [0; 1]; Predict [2]; Reset], 1%R).
Proof.
  intros db.
  apply (default_validation_loss (S := list event)
           example_properties example_derivatives
           (Some (Some "energy")) (Some (Some "forces")) None None
           [0; 1] [2] [] [Train [0; 1]; Predict [2]; Reset]).
  reflexivity.
Defined.

Lemma rmse_of_one_molecule :
  rmse [(INR 2 + 1)%R] [INR 2] = 1%R
  ∧ rmse [(INR 2 + 2)%R; 2%R; 2%R] [INR 2; 0%R; 0%R] = 2%R.
Proof.
  unfold rmse, mean. split.
  - transitivity (sqrt 1); [f_equal; cbn; field | apply sqrt_1].
  - transitivity (sqrt (2 * 2)); [f_equal; cbn; field | apply sqrt_square; lra].
Qed.

(** The four courses of the default loss on a holdout trial whose energy
    estimates are off by 1 and whose force estimates are off by 2 in every
    coordinate: the energy alone gives 1, the forces alone 2, both the
    square root of 2, and neither 1. *)
Lemma default_validation_loss_examples :
  let log := [Train [0; 1]; Predict [2]; Reset] in
  example_loss (Some {| tk_property_to_learn := Some (Some "energy");
                        tk_xyz_derivative_property_to_learn := None |})
  = Ok (log, 1%R)
  ∧ example_loss (Some {| tk_property_to_learn := Some None;
                          tk_xyz_derivative_property_to_learn :=
                            Some (Some "forces") |})
    = Ok (log, 2%R)
  ∧ example_loss (Some {| tk_property_to_learn := Some (Some "energy");
                          tk_xyz_derivative_property_to_learn :=
                            Some (Some "forces") |})
    = Ok (log, sqrt 2)
  ∧ example_loss (Some {| tk_property_to_learn := None;
                          tk_xyz_derivative_property_to_learn := None |})
    = Ok (log, 1%R).
Proof.
  intros log. destruct rmse_of_one_molecule as [H1 H2].
  unfold example_loss, calculate_validation_loss, geomRMSEloc.
  cbn -[rmse INR].
  change (example_properties "estimated_y" [2] log) with [(INR 2 + 1)%R].
  change (example_properties "energy" [2] log) with [INR 2].
  change (reshape_flat (example_derivatives "estimated_xyz_derivatives_y"
                          [2] log))
    with [(INR 2 + 2)%R; 2%R; 2%R].
  change (reshape_flat (example_derivatives "forces" [2] log))
    with [INR 2; 0%R; 0%R].
  rewrite H1, H2, !Rmult_1_l.
  repeat split; reflexivity.
Qed.

End ValidationLossExamples.

(** ** [krr.train]: Cholesky first, LU as the only fallback *)

Section KrrSolver.

Import KRRSolve.

Context {M V C L : Type}.
Variable linalg_inv : M → result M.
Variable dot : M → V → V.
Variable cho_factor : M → M * result C.
Variable cho_solve : C → V → result V.
Variable lu_factor : M → M * result L.
Variable lu_solve : L → V → result V.

(** C7: with [invert_matrix=False] and [matrix_decomposition=None],
    [krr.train] calls [cho_factor] on the kernel matrix first.  When
    [cho_factor] and then [cho_solve] return, the weights [cho_solve]
    returned are the fitted weights, and neither [lu_factor] nor [lu_solve]
    is called.  When [cho_factor] raises, or [cho_solve] does, [lu_factor]
    is called on the kernel matrix as [cho_factor] left it: the weights
    [lu_solve] then returns are the fitted weights, and an exception of
    [lu_factor] or of [lu_solve] is the exception that leaves [train],
    after which nothing more is called. *)
Theorem krr_cholesky_then_lu :
  ∀ (K : M) (y : V),
    let out := solve linalg_inv dot cho_factor cho_solve lu_factor lu_solve
                     false None K y in
    let cholesky_raised (K1 : M) (calls : list linalg_call) :=
      (∃ e, cho_factor K = (K1, Raise e) ∧ calls = [scipy_cho_factor])
      ∨ (∃ c e, cho_factor K = (K1, Ok c) ∧ cho_solve c y = Raise e
                ∧ calls = [scipy_cho_factor; scipy_cho_solve]) in
    (∀ K1 c alphas,
       cho_factor K = (K1, Ok c) → cho_solve c y = Ok alphas →
       out = ([scipy_cho_factor; scipy_cho_solve], Ok (Some alphas)))
    ∧ (∀ K1 calls K2 l alphas,
         cholesky_raised K1 calls →
         lu_factor K1 = (K2, Ok l) → lu_solve l y = Ok alphas →
         out = (calls ++ [scipy_lu_factor; scipy_lu_solve], Ok (Some alphas)))
    ∧ (∀ K1 calls K2 e',
         cholesky_raised K1 calls →
         lu_factor K1 = (K2, Raise e') →
         out = (calls ++ [scipy_lu_factor], Raise e'))
    ∧ (∀ K1 calls K2 l e',
         cholesky_raised K1 calls →
         lu_factor K1 = (K2, Ok l) → lu_solve l y = Raise e' →
         out = (calls ++ [scipy_lu_factor; scipy_lu_solve], Raise e')).
Proof.
  intros K y out cholesky_raised. subst out.
  unfold solve, cholesky, lu.
  split.
  { intros K1 c alphas E1 E2. now rewrite E1, E2. }
  assert (Hraised : ∀ K1 calls, cholesky_raised K1 calls →
            (let '(calls0, kernel_matrix, r) :=
               match cho_factor K with
               | (kernel_matrix, Ok c) =>
                   ([scipy_cho_factor; scipy_cho_solve], kernel_matrix,
                    cho_solve c y)
               | (kernel_matrix, Raise e) =>
                   ([scipy_cho_factor], kernel_matrix, Raise e)
               end in
             match r with
             | Ok alphas => (calls0, Ok (Some alphas))
             | Raise _ =>
                 let '(calls', _, alphas) :=
                   match lu_factor kernel_matrix with
                   | (kernel_matrix0, Ok l) =>
                       ([scipy_lu_factor; scipy_lu_solve], kernel_matrix0,
                        lu_solve l y)
                   | (kernel_matrix0, Raise e) =>
                       ([scipy_lu_factor], kernel_matrix0, Raise e)
                   end in
                 (calls0 ++ calls', Some <$> alphas)
             end)
            = (let '(calls', _, alphas) :=
                 match lu_factor K1 with
                 | (kernel_matrix0, Ok l) =>
                     ([scipy_lu_factor; scipy_lu_solve], kernel_matrix0,
                      lu_solve l y)
                 | (kernel_matrix0, Raise e) =>
                     ([scipy_lu_factor], kernel_matrix0, Raise e)
                 end in
               (calls ++ calls', Some <$> alphas))).
  { intros K1 calls [(e & E1 & ->) | (c & e & E1 & E2 & ->)].
    - now rewrite E1.
    - now rewrite E1, E2. }
  split.
  { intros K1 calls K2 l alphas Hr E1 E2.
    etransitivity; [exact (Hraised K1 calls Hr)|]. now rewrite E1, E2. }
  split.
  { intros K1 calls K2 e' Hr E1.
    etransitivity; [exact (Hraised K1 calls Hr)|]. now rewrite E1. }
  intros K1 calls K2 l e' Hr E1 E2.
  etransitivity; [exact (Hraised K1 calls Hr)|]. now rewrite E1, E2.
Qed.

End KrrSolver.

Section KrrSolverExamples.

Import KRRSolve.

(** The three courses of the solver on one-by-one systems.  A positive
    entry: Cholesky alone.  A negative entry: [cho_factor] raises and LU
    answers.  A zero entry: [cho_factor] raises, [lu_factor] returns, and
    [train] returns with an infinite weight and no exception. *)
Lemma krr_solver_courses :
  solve_1x1 false None 4 (Finite 6)
  = ([scipy_cho_factor; scipy_cho_solve], Ok (Some (Finite (6 / 4))))
  ∧ solve_1x1 false None (-4) (Finite 6)
    = ([scipy_cho_factor; scipy_lu_factor; scipy_lu_solve],
       Ok (Some (Finite (6 / -4))))
  ∧ solve_1x1 false None 0 (Finite 6)
    = ([scipy_cho_factor; scipy_lu_factor; scipy_lu_solve],
       Ok (Some (Inf false))).
Proof.
  unfold solve_1x1, solve, cholesky, lu, cho_factor_1x1, cho_solve_1x1,
    lu_factor_1x1, lu_solve_1x1, fdiv.
  split; [|split].
  - destruct (Rle_dec 4 0) as [H|_]; [lra|]. cbn.
    assert (Hs : sqrt 4 ≠ 0%R).
    { intros E. pose proof (sqrt_lt_R0 4 ltac:(lra)). lra. }
    destruct (Req_EM_T (sqrt 4) 0) as [E|_]; [contradiction|].
    do 4 f_equal.
    replace (6 / sqrt 4 / sqrt 4)%R with (6 / (sqrt 4 * sqrt 4))%R
      by (field; exact Hs).
    rewrite sqrt_sqrt by lra. reflexivity.
  - destruct (Rle_dec (-4) 0) as [_|H]; [|lra]. cbn.
    destruct (Req_EM_T (-4) 0) as [E|_]; [lra | reflexivity].
  - destruct (Rle_dec 0 0) as [_|H]; [|lra]. cbn.
    destruct (Req_EM_T 0 0) as [_|H]; [|contradiction].
    destruct (Req_EM_T 6 0) as [E|_]; [lra|].
    destruct (Rlt_dec 6 0) as [H|_]; [lra | reflexivity].
Qed.

End KrrSolverExamples.

(** ** [hyperparameter]: the value follows the dtype *)

Section HyperparameterCoercion.

Import Hyperparameter.

Variable int_of_str : string → result Z.
Variable float_of_str : string → result Q.
Variable float_of_int : Z → result Q.
Variable str_of : pyval → string.
Variable array_of : pyval → result (list Q).

Abbreviation construct :=
  (construct int_of_str float_of_str float_of_int str_of).
Abbreviation call :=
  (call int_of_str float_of_str float_of_int str_of array_of).
Abbreviation coerce :=
  (coerce int_of_str float_of_str float_of_int str_of array_of).
Abbreviation set_value :=
  (set_value int_of_str float_of_str float_of_int str_of array_of).
Abbreviation __init__ :=
  (__init__ int_of_str float_of_str float_of_int str_of array_of).

(** A constructor that returns, returns an instance of its class. *)
Lemma construct_type (t : pytype) (v w : pyval) :
  construct t v = Ok w → type_of w = t.
Proof.
  destruct t, v; cbn; intros E; try discriminate E;
    try (injection E as <-; reflexivity).
  - destruct (int_of_str s); cbn in E; [injection E as <-; reflexivity | discriminate E].
  - destruct (float_of_int z); cbn in E;
      [injection E as <-; reflexivity | discriminate E].
  - destruct (float_of_str s); cbn in E; [injection E as <-; reflexivity | discriminate E].
Qed.

Lemma isinstance_type_of (v : pyval) : isinstance v (type_of v) = true.
Proof. unfold isinstance, issubclass. now rewrite bool_decide_eq_true_2. Qed.

Lemma isinstance_exact (v : pyval) (t : pytype) :
  isinstance v t = true → (∀ b, v ≠ PBool b) → type_of v = t.
Proof.
  unfold isinstance, issubclass. intros H Hb.
  apply orb_true_iff in H as [H | H].
  - now apply bool_decide_eq_true in H.
  - apply andb_true_iff in H as [H _]. apply bool_decide_eq_true in H.
    destruct v; try discriminate H. now destruct (Hb b).
Qed.

Lemma coerce_instance (t : pytype) (v w : pyval) :
  t ≠ py_ndarray →
  coerce (Some t) (_set_dtype_cast_method (Some t)) v = Ok w →
  isinstance w t = true
  ∧ (isinstance v t = true → w = v)
  ∧ (isinstance v t = false → type_of w = t).
Proof.
  intros Hnd. unfold coerce.
  destruct (isinstance v t) eqn:Hi.
  - intros [= <-]. split; [exact Hi|]. split; [reflexivity | discriminate].
  - replace (_set_dtype_cast_method (Some t)) with (Some (Constructor t))
      by (destruct t; try reflexivity; now destruct Hnd).
    cbn. intros E. apply construct_type in E. subst t.
    split; [apply isinstance_type_of|]. split; [discriminate | reflexivity].
Qed.

(** What [__init__] establishes. *)
Lemma init_establishes (v : pyval) (space : string) (d : option pytype)
    (nm : string) (lo hi st : pyval) (ch : list pyval) (self : hyperparameter) :
  __init__ v space d nm lo hi st ch = Ok self →
  cast_follows_dtype self
  ∧ dtype self
    = match d with
      | Some t => Some t
      | None => match v with PNone => None | _ => Some (type_of v) end
      end
  ∧ (∀ t, dtype self = Some t → t ≠ py_ndarray →
          isinstance (value self) t = true).
Proof.
  unfold __init__. intros E.
  match type of E with
  | context [coerce ?dt ?c v] =>
      destruct (coerce dt c v) as [w|e] eqn:Ec; cbn in E; [|discriminate E]
  end.
  injection E as <-. unfold cast_follows_dtype. cbn.
  split; [reflexivity|]. split; [reflexivity|].
  intros t Ht Hnd. rewrite Ht in Ec.
  now destruct (coerce_instance t v w Hnd Ec) as (Hi & _).
Qed.

(** C9 (amended): for a hyperparameter whose [dtype] is [int], [float]
    or [list], an assignment to [value] that returns leaves a value that
    is an instance of [dtype] as [isinstance] has it.  A value that is an
    instance already is stored as it is, so a value of a subclass of
    [dtype] keeps its own class; any other value is replaced by
    [dtype(value)], whose class is exactly [dtype].  The assignment leaves
    [dtype], the cast method and every other attribute as they were.
    [__init__] takes [dtype] from the argument, or from the class of the
    initial value when none is given, sets the cast method of that [dtype]
    and coerces the initial value the same way. *)
Theorem value_matches_dtype_after_assignment :
  ∀ (self self' : hyperparameter) (t : pytype) (v : pyval),
    cast_follows_dtype self →
    dtype self = Some t →
    t = py_int ∨ t = py_float ∨ t = py_list →
    set_value self v = Ok self' →
    isinstance (value self') t = true
    ∧ (isinstance v t = true → value self' = v)
    ∧ (isinstance v t = false → type_of (value self') = t)
    ∧ ((∀ b, v ≠ PBool b) → type_of (value self') = t)
    ∧ dtype self' = Some t
    ∧ cast_follows_dtype self'
    ∧ (name self', optimization_space self', minval self', maxval self',
       step self', choices self')
      = (name self, optimization_space self, minval self, maxval self,
         step self, choices self)
    ∧ (∀ v0 space given nm lo hi st ch new,
         __init__ v0 space given nm lo hi st ch = Ok new →
         cast_follows_dtype new
         ∧ dtype new
           = match given with
             | Some t0 => Some t0
             | None =>
                 match v0 with PNone => None | _ => Some (type_of v0) end
             end
         ∧ (∀ t0, dtype new = Some t0 → t0 ≠ py_ndarray →
                  isinstance (value new) t0 = true)).
Proof.
  intros self self' t v Hcast Hd Ht Hset.
  assert (Hinit : ∀ v0 space given nm lo hi st ch new,
            __init__ v0 space given nm lo hi st ch = Ok new →
            cast_follows_dtype new
            ∧ dtype new
              = match given with
                | Some t0 => Some t0
                | None =>
                    match v0 with PNone => None | _ => Some (type_of v0) end
                end
            ∧ (∀ t0, dtype new = Some t0 → t0 ≠ py_ndarray →
                     isinstance (value new) t0 = true)).
  { intros v0 space given nm lo hi st ch new E.
    exact (init_establishes v0 space given nm lo hi st ch new E). }
  unfold set_value in Hset. unfold cast_follows_dtype in Hcast.
  rewrite Hcast, Hd in Hset.
  destruct (coerce (Some t) (_set_dtype_cast_method (Some t)) v) as [w|e] eqn:E;
    cbn in Hset; [|discriminate Hset].
  injection Hset as <-. cbn.
  assert (Hnd : t ≠ py_ndarray) by (destruct Ht as [-> | [-> | ->]]; discriminate).
  destruct (coerce_instance t v w Hnd E) as (Hi & Hkept & Hexact).
  split; [exact Hi|]. split; [exact Hkept|]. split; [exact Hexact|].
  split.
  { intros Hb. destruct (isinstance v t) eqn:Hv.
    - rewrite (Hkept eq_refl). now apply isinstance_exact.
    - now apply Hexact. }
  split; [first [exact Hd | reflexivity]|].
  split; [first [exact Hcast | unfold cast_follows_dtype; cbn; congruence]|].
  split; [reflexivity|].
  exact Hinit.
Qed.

End HyperparameterCoercion.

Section HyperparameterExamples.

Import Hyperparameter.

(** The assignment theorem at [hyperparameter(value=1)] followed by
    [value = 2.5]: the float is truncated to the int 2. *)
Lemma value_matches_dtype_after_assignment_witness :
  ∃ self self',
    init_ex (PInt 1) None = Ok self
    ∧ set_value_ex self (PFloat 2.5) = Ok self'
    ∧ value self' = PInt 2
    ∧ isinstance (value self') py_int = true
    ∧ (isinstance (PFloat 2.5) py_int = true → value self' = PFloat 2.5)
    ∧ (isinstance (PFloat 2.5) py_int = false
       → type_of (value self') = py_int)
    ∧ ((∀ b, PFloat 2.5 ≠ PBool b) → type_of (value self') = py_int)
    ∧ dtype self' = Some py_int
    ∧ cast_follows_dtype self'
    ∧ (name self', optimization_space self', minval self', maxval self',
       step self', choices self')
      = (name self, optimization_space self, minval self, maxval self,
         step self, choices self)
    ∧ (∀ v0 space given nm lo hi st ch new,
         __init__ parse_len (fun s => inject_Z <$> parse_len s)
           float_of_int_ex (fun _ => "") (fun _ => Ok [])
           v0 space given nm lo hi st ch = Ok new →
         cast_follows_dtype new
         ∧ dtype new
           = match given with
             | Some t0 => Some t0
             | None =>
                 match v0 with PNone => None | _ => Some (type_of v0) end
             end
         ∧ (∀ t0, dtype new = Some t0 → t0 ≠ py_ndarray →
                  isinstance (value new) t0 = true)).
Proof.
  eexists. eexists.
  split; [reflexivity|]. split; [reflexivity|]. split; [reflexivity|].
  eapply (value_matches_dtype_after_assignment
            parse_len (fun s => inject_Z <$> parse_len s) float_of_int_ex
            (fun _ => "") (fun _ => Ok [])).
  - reflexivity.
  - reflexivity.
  - left. reflexivity.
  - reflexivity.
Defined.

(** C9, as stated, fails: [hyperparameter(value=1)] has [dtype] [int];
    the assignment [value = True] returns and stores [True] as it is,
    since [isinstance(True, int)] holds.  Afterwards [dtype] is still
    [int] and the class of the value is [bool]. *)
Lemma bool_under_int_is_kept :
  ∃ self self',
    init_ex (PInt 1) None = Ok self
    ∧ dtype self = Some py_int
    ∧ set_value_ex self (PBool true) = Ok self'
    ∧ dtype self' = Some py_int
    ∧ value self' = PBool true
    ∧ isinstance (value self') py_int = true
    ∧ type_of (value self') = py_bool
    ∧ type_of (value self') ≠ py_int.
Proof. eexists. eexists. repeat split; try reflexivity. discriminate. Qed.

(** An assignment whose cast raises leaves no new state. *)
Lemma failed_cast_raises :
  ∃ self,
    init_ex (PInt 1) None = Ok self
    ∧ set_value_ex self PNone = Raise (TypeError "int() argument").
Proof. eexists. split; reflexivity. Qed.

End HyperparameterExamples.

(** ** [methods.__init__]: which program answers for a method name *)

Section MethodsResolution.

Import Methods.

(** In an environment with a search path and no program location, the
    registered name [AM1] resolves to MNDO at the default path, which the
    call writes into the environment, and [GFN2-xTB] is dispatched to the
    xtb interface; for every registered name, as the registry spells it,
    the resolution settles on a constructor call. *)
Lemma methods_resolve_in_a_bare_environment :
  resolve (Some "AM1") None bare_environ
  = (<["mndobin" := "~/apps/mndo2020/mndo2020"]>
       (<["PATH" := "/usr/bin:~/apps/mndo2020"]> bare_environ),
     Ok (Some (mndo_methods "AM1" (Some "~/apps/mndo2020/mndo2020"))))
  ∧ resolve (Some "GFN2-xTB") None bare_environ
    = (bare_environ, Ok (Some (interfaces_dict "xtb" (Some "GFN2-xTB"))))
  ∧ forallb (fun m => is_ok (snd (resolve (Some m) None bare_environ)))
            known_methods = true.
Proof. repeat split; vm_compute; reflexivity. Qed.

(** The courses of the resolution with [program] unset. *)
Lemma resolution_cases :
  ∀ (m : string) (environ : gmap string string),
    let r := resolve (Some m) None environ in
    let family := casefold_in m "mndo" || verbatim_in m "sparrow" in
    (casefold_in m "mndo" = true →
     set_and_not_empty (environ !! "mndobin") = true →
     r = (environ, Ok (Some (mndo_methods m None))))
    ∧ (family = true →
       casefold_in m "mndo" && set_and_not_empty (environ !! "mndobin") = false →
       sparrow_eligible m environ = true →
       r = (environ, Ok (Some (sparrow_methods m))))
    ∧ (∀ path, casefold_in m "mndo" = true →
       environ !! "mndobin" = None →
       sparrow_eligible m environ = false →
       environ !! "PATH" = Some path →
       r = (<["mndobin" := default_mndobin]>
              (<["PATH" := (path ++ ":~/apps/mndo2020")%string]> environ),
            Ok (Some (mndo_methods m (Some default_mndobin)))))
    ∧ (family = true → is_Some (environ !! "PATH") →
       raises_ValueError (snd r)
       = negb (mndo_eligible m environ || sparrow_eligible m environ)
       ∧ is_ok (snd r) = mndo_eligible m environ || sparrow_eligible m environ)
    ∧ (casefold_in m "mndo" = false → casefold_in m "sparrow" = false →
       verbatim_in m "sparrow" = false →
       r = (environ,
            match first_interface m with
            | Some program => Ok (Some (interfaces_dict program (Some m)))
            | None =>
                Raise (ValueError
                  "Can't find appropriate interface for the requested method")
            end)).
Proof.
  intros m environ r family. subst r family.
  unfold resolve, sparrow_eligible, mndo_eligible, getenv, set_and_not_empty.
  destruct (casefold_in m "mndo") eqn:Hm,
           (verbatim_in m "sparrow") eqn:Hv,
           (casefold_in m "sparrow") eqn:Hs,
           (environ !! "mndobin") as [b|] eqn:Hb,
           (environ !! "sparrowbin") as [sb|] eqn:Hsb,
           (environ !! "PATH") as [path|] eqn:Hp;
    cbn -[first_interface];
    try destruct (String.eqb b "") eqn:Eb;
    try destruct (String.eqb sb "") eqn:Esb;
    cbn -[first_interface];
    repeat split; intros; try discriminate; try congruence;
    try reflexivity;
    try match goal with H : is_Some None |- _ => now destruct H end;
    try (simplify_eq; reflexivity);
    try (destruct (first_interface m); reflexivity).
Qed.


End MethodsResolution.

Section MethodsConstruction.

Import Methods.

(** The interface classes, which are not among the sources: what calling
    one yields in an environment. *)
Context {I : Type}.
Variable construct : interface_call → gmap string string → result I.


End MethodsConstruction.

Section MethodsExamples.

Import Methods.

(** The courses of the resolution on the semi-empirical names. *)
Lemma methods_resolution_courses :
  (* both locations set: MNDO is preferred for a name on both lists *)
  snd (resolve (Some "PM3") None
         (<["mndobin" := "/opt/mndo"]> (<["sparrowbin" := "/opt/sparrow"]> bare_environ)))
  = Ok (Some (mndo_methods "PM3" None))
  (* only sparrowbin set: Sparrow *)
  ∧ snd (resolve (Some "PM3") None (<["sparrowbin" := "/opt/sparrow"]> bare_environ))
    = Ok (Some (sparrow_methods "PM3"))
  (* a Sparrow-only name, lower case, nothing set: no eligible program *)
  ∧ raises_ValueError (snd (resolve (Some "pm6") None bare_environ)) = true
  (* a name on no list *)
  ∧ raises_ValueError (snd (resolve (Some "B3LYP") None bare_environ)) = true
  (* mndobin set to the empty string, sparrowbin unset *)
  ∧ raises_ValueError
      (snd (resolve (Some "AM1") None (<["mndobin" := ""]> bare_environ))) = true.
Proof. repeat split; vm_compute; reflexivity. Qed.


(** With the interface classes of the witness, every registered name, as
    the registry spells it, fails to construct; with interface classes
    that return, every one of them constructs. *)
Lemma methods_construction_courses :
  forallb (fun m =>
             negb (is_ok (snd (__init__
                                 (fun _ _ => Raise (ValueError "program not found")
                                    : result unit)
                                 (Some m) None bare_environ))))
          known_methods = true
  ∧ forallb (fun m =>
               is_ok (snd (__init__ (fun c _ => Ok c) (Some m) None
                             bare_environ)))
            known_methods = true.
Proof. split; vm_compute; reflexivity. Qed.

End MethodsExamples.

(** ** [optimize_grid] is the exhaustive search *)

Section GridSearch.

Import Grid.

Context {V : Type}.
Variable func : list V → Q.

Abbreviation pick := (pick func).
Abbreviation argmin := (argmin func).
Abbreviation scan_all := (scan_all func).

Lemma lt_spec (x y : Q) : lt x y = true ↔ (x < y)%Q.
Proof.
  unfold lt. rewrite negb_true_iff. split.
  - intros H. apply Qnot_le_lt. intros Hle.
    apply Qle_bool_iff in Hle. congruence.
  - intros H. destruct (Qle_bool y x) eqn:E; [|reflexivity].
    apply Qle_bool_iff in E. exfalso. now apply (Qlt_not_le x y).
Qed.

Lemma lt_false (x y : Q) : lt x y = false ↔ (y <= x)%Q.
Proof.
  unfold lt. rewrite negb_false_iff. apply Qle_bool_iff.
Qed.

Lemma pick_assoc (a b c : list V) : pick (pick a b) c = pick a (pick b c).
Proof.
  unfold Grid.pick.
  destruct (lt (func c) (func b)) eqn:Hcb, (lt (func b) (func a)) eqn:Hba;
    rewrite ?Hcb, ?Hba; try reflexivity.
  - apply lt_spec in Hcb, Hba.
    assert (H : lt (func c) (func a) = true)
      by (apply lt_spec; now apply Qlt_trans with (func b)).
    now rewrite H.
  - apply lt_false in Hcb, Hba.
    assert (H : lt (func c) (func a) = false)
      by (apply lt_false; now apply Qle_trans with (func b)).
    now rewrite H.
Qed.

Lemma fold_pick_shift (qs : list (list V)) (b q : list V) :
  fold_left pick qs (pick b q) = pick b (fold_left pick qs q).
Proof.
  revert b q. induction qs as [|x qs IH]; intros b q; cbn; [reflexivity|].
  rewrite pick_assoc. apply IH.
Qed.

Lemma fold_pick_value (ps : list (list V)) (p x : list V) :
  In x (p :: ps) → (func (fold_left pick ps p) <= func x)%Q.
Proof.
  revert p x. induction ps as [|q ps IH]; intros p x Hin; cbn.
  - destruct Hin as [<- | []]. apply Qle_refl.
  - assert (Hle : (func (Grid.pick func p q) <= func p)%Q
                  ∧ (func (Grid.pick func p q) <= func q)%Q).
    { unfold Grid.pick. destruct (lt (func q) (func p)) eqn:E.
      - apply lt_spec in E. split; [now apply Qlt_le_weak | apply Qle_refl].
      - apply lt_false in E. split; [apply Qle_refl | exact E]. }
    destruct Hle as [Hp Hq].
    pose proof (IH (Grid.pick func p q) (Grid.pick func p q)
                   (or_introl eq_refl)) as Hbest.
    cbn in Hbest.
    destruct Hin as [<- | [<- | Hin]].
    + exact (Qle_trans _ _ _ Hbest Hp).
    + exact (Qle_trans _ _ _ Hbest Hq).
    + apply IH. now right.
Qed.

Lemma fold_pick_in (ps : list (list V)) (p : list V) :
  In (fold_left pick ps p) (p :: ps).
Proof.
  revert p. induction ps as [|q ps IH]; intros p; cbn; [now left|].
  destruct (IH (Grid.pick func p q)) as [E | Hin].
  - rewrite <- E. unfold Grid.pick.
    destruct (lt (func q) (func p)); [right; now left | now left].
  - right. now right.
Qed.

(** The points before the one kept have a strictly greater loss. *)
Lemma fold_pick_first (ps : list (list V)) (p : list V) :
  ∃ l1 l2, p :: ps = l1 ++ fold_left pick ps p :: l2
           ∧ ∀ x, In x l1 → (func (fold_left pick ps p) < func x)%Q.
Proof.
  revert p. induction ps as [|q ps IH]; intros p; cbn.
  - exists [], []. split; [reflexivity | intros x []].
  - destruct (IH (Grid.pick func p q)) as (l1 & l2 & E & Hlt).
    unfold Grid.pick in *.
    destruct (lt (func q) (func p)) eqn:Hqp.
    + (* q is kept over p *)
      apply lt_spec in Hqp.
      destruct l1 as [|y l1]; cbn in E.
      * injection E as E1 E2.
        exists [p], l2. cbn. split; [congruence|].
        intros x [<- | []]. now rewrite <- E1.
      * injection E as E1 E2. subst y.
        exists (p :: q :: l1), l2. cbn. split; [congruence|].
        intros x [<- | [<- | Hin]].
        -- eapply Qlt_trans; [|exact Hqp]. apply Hlt. now left.
        -- apply Hlt. now left.
        -- apply Hlt. now right.
    + apply lt_false in Hqp.
      destruct l1 as [|y l1]; cbn in E.
      * injection E as E1 E2.
        exists [], (q :: l2). cbn. split; [congruence|].
        intros x [].
      * injection E as E1 E2. subst y.
        exists (p :: q :: l1), l2. cbn. split; [congruence|].
        intros x [<- | [<- | Hin]].
        -- apply Hlt. now left.
        -- eapply Qlt_le_trans; [|exact Hqp]. apply Hlt. now left.
        -- apply Hlt. now right.
Qed.

Lemma fold_pick_chunk (chunk : list (list V)) (b : list V) :
  chunk ≠ [] → fold_left pick chunk b = pick b (argmin chunk).
Proof.
  destruct chunk as [|p ps]; [congruence|]. intros _.
  unfold Grid.argmin. cbn. apply fold_pick_shift.
Qed.

Lemma argmin_app (pts more : list (list V)) :
  pts ≠ [] → argmin (pts ++ more) = fold_left pick more (argmin pts).
Proof.
  destruct pts as [|p ps]; [congruence|]. intros _.
  unfold Grid.argmin. cbn. apply fold_left_app.
Qed.

End GridSearch.

Section GridShape.

Import Grid.

Context {V : Type}.

Lemma cartesian_nonempty (grid : list (list V)) :
  Forall (fun ax => ax ≠ []) grid → cartesian grid ≠ [].
Proof.
  induction 1 as [|ax grid Hax _ IH]; cbn; [discriminate|].
  destruct ax as [|x ax]; [congruence|]. cbn.
  destruct (cartesian grid) as [|p ps]; [congruence|]. discriminate.
Qed.

Lemma cartesian_single (x : V) (grid : list (list V)) :
  cartesian ([x] :: grid) = map (cons x) (cartesian grid).
Proof. cbn. apply app_nil_r. Qed.

Lemma cartesian_singles_last (others axis : list V) :
  cartesian (map sing others ++ [axis]) = map (fun v => others ++ [v]) axis.
Proof.
  induction others as [|x others IH].
  - cbn. induction axis as [|v axis IHa]; cbn; [reflexivity|].
    now rewrite IHa.
  - change (map sing (x :: others) ++ [axis])
      with ([x] :: (map sing others ++ [axis])).
    rewrite cartesian_single, IH, map_map. reflexivity.
Qed.

Lemma cartesian_open (xs : list V) (ax : list V) (right : list (list V)) :
  cartesian (map sing xs ++ ax :: right)
  = flat_map (fun p => cartesian (map sing xs ++ [p] :: right)) ax.
Proof.
  induction xs as [|x xs IH].
  - cbn. apply flat_map_ext. intros p. now rewrite app_nil_r.
  - change (map sing (x :: xs) ++ ax :: right)
      with ([x] :: (map sing xs ++ ax :: right)).
    rewrite cartesian_single, IH.
    rewrite !flat_map_concat_map, concat_map, map_map.
    f_equal. apply map_ext. intros p.
    change (map sing (x :: xs) ++ [p] :: right)
      with ([x] :: (map sing xs ++ [p] :: right)).
    now rewrite cartesian_single.
Qed.

Lemma singles_shape (axes : list (list V)) :
  forallb (fun ii => Nat.eqb (length ii) 1) axes = true →
  ∃ others, axes = map sing others.
Proof.
  induction axes as [|ax axes IH]; cbn; intros H.
  - now exists [].
  - apply andb_true_iff in H as [Hax H]. apply Nat.eqb_eq in Hax.
    destruct (IH H) as (others & ->).
    destruct ax as [|x [|y ax]]; try discriminate Hax.
    now exists (x :: others).
Qed.

Lemma last_shape (grid : list (list V)) :
  grid ≠ [] → last grid = true →
  ∃ others axis, grid = map sing others ++ [axis].
Proof.
  intros Hne H. unfold last in H.
  destruct (singles_shape _ H) as (others & E).
  exists others, (List.last grid []).
  rewrite <- E. now apply app_removelast_last.
Qed.

Lemma first_open_axis_shape (axes : list (list V)) (k kk : nat) :
  first_open_axis k axes = Some kk →
  ∃ xs ax rest, axes = map sing xs ++ ax :: rest
                ∧ kk = k + length xs ∧ length ax ≠ 1.
Proof.
  revert k. induction axes as [|a axes IH]; cbn; intros k H; [discriminate|].
  destruct (Nat.eqb_spec (length a) 1) as [Ha|Ha].
  - destruct (IH _ H) as (xs & ax & rest & -> & -> & Hax).
    destruct a as [|x [|y a]]; try discriminate Ha.
    exists (x :: xs), ax, rest. cbn. repeat split; [lia | exact Hax].
  - injection H as <-. exists [], a, axes. cbn. repeat split; [lia | exact Ha].
Qed.

Lemma first_open_axis_none (axes : list (list V)) (k : nat) :
  first_open_axis k axes = None →
  forallb (fun ii => Nat.eqb (length ii) 1) axes = true.
Proof.
  revert k. induction axes as [|a axes IH]; cbn; intros k H; [reflexivity|].
  destruct (Nat.eqb (length a) 1); [cbn; eauto | discriminate].
Qed.

Lemma comprehension_first_singles (others : list V) :
  comprehension first_of (map sing others) = Ok others.
Proof.
  induction others as [|x others IH]; cbn; [reflexivity|].
  now rewrite IH.
Qed.

Lemma comprehension_left_singles (xs : list V) :
  comprehension (fun ax => x ← first_of ax; Ok [x]) (map sing xs)
  = Ok (map sing xs).
Proof.
  induction xs as [|x xs IH]; cbn; [reflexivity|].
  now rewrite IH.
Qed.

Lemma open_axes_singles (xs : list V) (rest : list (list V)) :
  open_axes (map sing xs ++ rest) = open_axes rest.
Proof.
  unfold open_axes. induction xs as [|x xs IH]; cbn; [reflexivity | exact IH].
Qed.

Lemma removelast_app_ne {A} (l l' : list A) :
  l' ≠ [] → removelast (l ++ l') = l ++ removelast l'.
Proof. intros H. now apply removelast_app. Qed.

End GridShape.

Section GridSearchMain.

Import Grid.

Context {V : Type}.
Variable func : list V → Q.

Abbreviation pick := (pick func).
Abbreviation argmin := (argmin func).
Abbreviation scan_all := (scan_all func).

(** The scan of the last axis, from any point already kept. *)
Lemma scan_last_fold (other_params rest : list V) (o : V)
    (ev : list (list V)) :
  ∃ o',
    fold_left (scan_step func other_params) rest
              (o, func (other_params ++ [o]), ev)
    = (o', func (other_params ++ [o']),
       ev ++ map (fun v => other_params ++ [v]) rest)
    ∧ other_params ++ [o']
      = fold_left pick (map (fun v => other_params ++ [v]) rest)
                  (other_params ++ [o]).
Proof.
  revert o ev. induction rest as [|v rest IH]; intros o ev.
  - exists o. cbn. now rewrite app_nil_r.
  - cbn [fold_left map]. unfold scan_step at 2, Grid.pick at 2.
    destruct (lt (func (other_params ++ [v])) (func (other_params ++ [o]))).
    + destruct (IH v (ev ++ [other_params ++ [v]])) as (o' & E1 & E2).
      exists o'. rewrite E1, <- app_assoc. now split.
    + destruct (IH o (ev ++ [other_params ++ [v]])) as (o' & E1 & E2).
      exists o'. rewrite E1, <- app_assoc. now split.
Qed.

Lemma scan_last_axis_spec (others axis : list V) :
  axis ≠ [] →
  scan_last_axis func (map sing others ++ [axis])
  = Ok (scan_all (cartesian (map sing others ++ [axis]))).
Proof.
  intros Hax. unfold scan_last_axis.
  rewrite removelast_last, comprehension_first_singles. cbn.
  rewrite last_last, cartesian_singles_last.
  destruct (map sing others ++ [axis]) eqn:Hg;
    [now destruct (map sing others)|]. clear Hg.
  destruct axis as [|o rest]; [congruence|].
  destruct (scan_last_fold others rest o [others ++ [o]]) as (o' & E1 & E2).
  rewrite E1. unfold Grid.scan_all, Grid.argmin. cbn.
  rewrite <- E2. reflexivity.
Qed.

(** The loop over the values of the open axis, from a point already kept. *)
Lemma keep_best_loop (fuel : nat) (left right : list (list V))
    (params : list V) (b : list V) (ev : list (list V)) :
  (∀ param, In param params →
     optimize_grid_rec func fuel (left ++ [[param]] ++ right)
     = Ok (scan_all (cartesian (left ++ [param] :: right)))
     ∧ cartesian (left ++ [param] :: right) ≠ []) →
  for_each
    (fun param best =>
       r ← optimize_grid_rec func fuel (left ++ [[param]] ++ right);
       Ok (keep_best best r))
    params (Some (b, func b), ev)
  = Ok (Some (fold_left pick
                (flat_map (fun p => cartesian (left ++ [p] :: right)) params) b,
              func (fold_left pick
                (flat_map (fun p => cartesian (left ++ [p] :: right)) params) b)),
        ev ++ flat_map (fun p => cartesian (left ++ [p] :: right)) params).
Proof.
  revert b ev. induction params as [|param params IH]; intros b ev Hrec; cbn.
  - now rewrite app_nil_r.
  - destruct (Hrec param (or_introl eq_refl)) as [E Hne].
    cbn in E. rewrite E. cbn.
    rewrite fold_left_app, app_assoc.
    rewrite (fold_pick_chunk func _ b Hne).
    unfold Grid.pick at 2 4.
    destruct (lt (func (Grid.argmin func (cartesian (left ++ [param] :: right))))
                 (func b));
      apply IH; intros p Hp; apply Hrec; now right.
Qed.

Lemma optimize_grid_rec_spec (fuel : nat) (grid : list (list V)) :
  grid ≠ [] →
  Forall (fun ax => ax ≠ []) grid →
  open_axes (removelast grid) < fuel →
  optimize_grid_rec func fuel grid = Ok (scan_all (cartesian grid)).
Proof.
  revert grid. induction fuel as [|fuel IH]; intros grid Hne Hall Hfuel; [lia|].
  cbn [optimize_grid_rec].
  destruct (last grid) eqn:Hlast.
  - destruct (last_shape grid Hne Hlast) as (others & axis & ->).
    apply scan_last_axis_spec.
    apply Forall_app in Hall as [_ Hall]. now inversion Hall.
  - destruct (first_open_axis 0 (removelast grid)) as [kk|] eqn:Hkk.
    2:{ apply first_open_axis_none in Hkk. unfold last in Hlast. congruence. }
    destruct (first_open_axis_shape _ _ _ Hkk) as (xs & ax & rest & E & -> & Hax).
    cbn [Nat.add].
    assert (Hgrid : grid = map sing xs ++ ax :: (rest ++ [List.last grid []])).
    { rewrite (app_removelast_last [] Hne) at 1. rewrite E.
      rewrite <- app_assoc. reflexivity. }
    set (right := rest ++ [List.last grid []]) in *.
    assert (Hright : right ≠ []) by (subst right; now destruct rest).
    clearbody right.
    assert (Hlen : length (map sing xs) = length xs) by apply length_map.
    rewrite Hgrid.
    rewrite take_app_length' by (symmetry; exact Hlen).
    rewrite comprehension_left_singles. cbn [mbind result_bind].
    replace (nth (length xs) (map sing xs ++ ax :: right) []) with ax
      by (rewrite <- Hlen; now rewrite nth_middle).
    replace (drop (S (length xs)) (map sing xs ++ ax :: right)) with right
      by (rewrite <- Hlen;
          change (ax :: right) with ([ax] ++ right);
          rewrite app_assoc, drop_app_length';
          [reflexivity | rewrite length_app; cbn; lia]).
    rewrite cartesian_open.
    assert (Hall' : Forall (fun a => a ≠ []) (map sing xs)
                    ∧ ax ≠ [] ∧ Forall (fun a => a ≠ []) right).
    { rewrite Hgrid in Hall. apply Forall_app in Hall as [H1 H2].
      inversion H2 as [|? ? Ha Hr']. auto. }
    destruct Hall' as (Hxs & Haxne & Hr).
    assert (Hrec : ∀ param,
      optimize_grid_rec func fuel (map sing xs ++ [[param]] ++ right)
      = Ok (scan_all (cartesian (map sing xs ++ [param] :: right)))
      ∧ cartesian (map sing xs ++ [param] :: right) ≠ []).
    { intros param.
      assert (Hall2 : Forall (fun a => a ≠ []) (map sing xs ++ [param] :: right)).
      { apply Forall_app. split; [exact Hxs|].
        constructor; [discriminate | exact Hr]. }
      split; [|now apply cartesian_nonempty].
      apply IH.
      - now destruct (map sing xs).
      - exact Hall2.
      - cbn [app].
        rewrite removelast_app_ne by discriminate.
        rewrite open_axes_singles.
        rewrite Hgrid in Hfuel.
        rewrite removelast_app_ne in Hfuel by discriminate.
        rewrite open_axes_singles in Hfuel.
        destruct right as [|r0 right0]; [congruence|].
        cbn [removelast] in Hfuel |- *.
        unfold open_axes in Hfuel |- *. cbn [List.filter] in Hfuel |- *.
        destruct (Nat.eqb_spec (length ax) 1); [contradiction|].
        cbn in Hfuel |- *. lia. }
    destruct ax as [|p0 params]; [congruence|].
    cbn [for_each flat_map].
    destruct (Hrec p0) as [E0 Hne0]. rewrite E0.
    cbn [mbind result_bind keep_best scan_all Grid.scan_all
         opt_params min_val evaluated app].
    rewrite (keep_best_loop fuel (map sing xs) right params)
      by (intros param _; apply Hrec).
    cbn [mbind result_bind].
    unfold Grid.scan_all. rewrite argmin_app by exact Hne0.
    reflexivity.
Qed.

End GridSearchMain.

Section GridSearchTheorem.

Import Grid.

Lemma open_axes_le {V} (axes : list (list V)) : open_axes axes ≤ length axes.
Proof.
  unfold open_axes. induction axes as [|ax axes IH]; cbn; [lia|].
  destruct (negb (Nat.eqb (length ax) 1)); cbn; lia.
Qed.

Lemma removelast_length_le {A} (l : list A) : length (removelast l) ≤ length l.
Proof.
  induction l as [|x l IH]; cbn; [lia|].
  destruct l; cbn in *; lia.
Qed.

(** C4, as stated, fails: on a three-by-three grid [optimize_grid] calls
    the loss at all nine points of the Cartesian product, and returns the
    point (2, 2) of loss 0; the one-axis-at-a-time sweep of the claim
    would end at (0, 0), of loss 1. *)
Lemma optimize_grid_scans_the_product :
  optimize_grid ridge_loss grid3x3
  = Ok {| opt_params := [2; 2]%Z; min_val := 0%Q;
          evaluated := cartesian grid3x3 |}
  ∧ cartesian grid3x3
    = [[0; 0]; [0; 1]; [0; 2]; [1; 0]; [1; 1]; [1; 2]; [2; 0]; [2; 1]; [2; 2]]%Z
  ∧ coordinate_sweep ridge_loss [] grid3x3 = Some [0; 0]%Z
  ∧ ridge_loss [0; 0]%Z = 1%Q.
Proof. repeat split; vm_compute; reflexivity. Qed.

(** C4 (amended): on a grid with at least one axis and no empty axis,
    [optimize_grid] returns, after calling the loss at every point of the
    Cartesian product of the axes, once each and in lexicographic order;
    what it returns is what the exhaustive search returns: the first point
    of the product whose loss is least.  In particular, on two axes of
    three values it agrees with the exhaustive nine-point search for every
    loss, convex or not. *)
Theorem optimize_grid_is_exhaustive :
  ∀ (V : Type) (func : list V → Q) (grid : list (list V)),
    grid ≠ [] →
    Forall (fun ax => ax ≠ []) grid →
    ∃ s,
      optimize_grid func grid = Ok s
      ∧ exhaustive_search func grid = Some s
      ∧ evaluated s = cartesian grid
      ∧ min_val s = func (opt_params s)
      ∧ In (opt_params s) (cartesian grid)
      ∧ (∀ p, In p (cartesian grid) → (min_val s <= func p)%Q)
      ∧ (∃ l1 l2, cartesian grid = l1 ++ opt_params s :: l2
                  ∧ ∀ x, In x l1 → (min_val s < func x)%Q).
Proof.
  intros V func grid Hne Hall.
  exists (scan_all func (cartesian grid)).
  pose proof (cartesian_nonempty grid Hall) as Hpts.
  split.
  { unfold optimize_grid. apply optimize_grid_rec_spec; try assumption.
    pose proof (open_axes_le (removelast grid)).
    pose proof (removelast_length_le grid). lia. }
  split.
  { unfold exhaustive_search. now destruct (cartesian grid). }
  unfold scan_all, argmin. cbn.
  destruct (cartesian grid) as [|p ps]; [congruence|]. cbn [hd tl].
  split; [reflexivity|]. split; [reflexivity|].
  split; [apply fold_pick_in|].
  split; [intros x Hx; now apply fold_pick_value|].
  apply fold_pick_first.
Qed.

(** The amended C4 on two axes of three values with a convex quadratic
    loss: the minimum (1, 2) of the nine-point search. *)
Lemma optimize_grid_is_exhaustive_witness :
  ∃ s,
    optimize_grid bowl_loss grid3x3 = Ok s
    ∧ exhaustive_search bowl_loss grid3x3 = Some s
    ∧ evaluated s = cartesian grid3x3
    ∧ min_val s = bowl_loss (opt_params s)
    ∧ In (opt_params s) (cartesian grid3x3)
    ∧ (∀ p, In p (cartesian grid3x3) → (min_val s <= bowl_loss p)%Q)
    ∧ (∃ l1 l2, cartesian grid3x3 = l1 ++ opt_params s :: l2
                ∧ ∀ x, In x l1 → (min_val s < bowl_loss x)%Q).
Proof.
  apply (optimize_grid_is_exhaustive Z bowl_loss grid3x3).
  - discriminate.
  - repeat constructor; discriminate.
Defined.

Lemma optimize_grid_bowl :
  optimize_grid bowl_loss grid3x3
  = Ok {| opt_params := [1; 2]%Z; min_val := 0%Q;
          evaluated := cartesian grid3x3 |}
  ∧ exhaustive_search bowl_loss grid3x3
    = Some {| opt_params := [1; 2]%Z; min_val := 0%Q;
              evaluated := cartesian grid3x3 |}.
Proof. split; vm_compute; reflexivity. Qed.

(** Outside the theorem's grids the Python exceptions: no axis at all, an
    empty last axis, an empty open axis. *)
Lemma optimize_grid_degenerate :
  optimize_grid ridge_loss [] = Raise (IndexError "list index out of range")
  ∧ optimize_grid ridge_loss [[1]; []]%Z
    = Raise (IndexError "list index out of range")
  ∧ optimize_grid ridge_loss [[]; [1]]%Z
    = Raise (UnboundLocalError "opt_params").
Proof. repeat split; vm_compute; reflexivity. Qed.

End GridSearchTheorem.

(** ** [krr.train]: symmetry of the kernel matrix *)

Section KernelMatrixSymmetry.

Import KRRMatrix.

Context {F G : Type}.
Variable zero one : F.
Variable add sub mul : F → F → F.
Variable kernel_value : G → G → F.
Variable kernel_gradients : G → G → list F.
Variable kernel_gradients_j : G → G → list F.
Variable kernel_Hessian : G → G → list (list F).

Abbreviation matrix := (nat → nat → F).
Abbreviation pair_step :=
  (pair_step zero add kernel_value kernel_gradients kernel_gradients_j
             kernel_Hessian).
Abbreviation row_step :=
  (row_step zero add kernel_value kernel_gradients kernel_gradients_j
            kernel_Hessian).
Abbreviation rows :=
  (rows zero add kernel_value kernel_gradients kernel_gradients_j
        kernel_Hessian).
Abbreviation kernel_matrix :=
  (kernel_matrix zero one add mul kernel_value kernel_gradients
                 kernel_gradients_j kernel_Hessian).

Lemma ridge_symmetric (m : nat) (lambda_ : F) :
  symmetric_below m (ridge zero one add mul lambda_).
Proof. intros r c _ _. unfold ridge. now rewrite (Nat.eqb_sym r c). Qed.

Lemma add_diagonal_symmetric (m i : nat) (v : F) (K : matrix) :
  symmetric_below m K → symmetric_below m (add_entry add K i i v).
Proof.
  intros HK r c Hr Hc. unfold add_entry.
  rewrite (HK r c Hr Hc).
  destruct (Nat.eqb r i), (Nat.eqb c i); reflexivity.
Qed.

Lemma add_pair_symmetric (m i j : nat) (v : F) (K : matrix) :
  symmetric_below m K →
  symmetric_below m (add_entry add (add_entry add K i j v) j i v).
Proof.
  intros HK r c Hr Hc. unfold add_entry.
  rewrite (HK r c Hr Hc).
  destruct (Nat.eqb_spec r i), (Nat.eqb_spec r j),
           (Nat.eqb_spec c i), (Nat.eqb_spec c j); subst; cbn; reflexivity.
Qed.

Lemma set_row_low (K : matrix) (r c0 len : nat) (vec : list F) (r' c' : nat) :
  c' < c0 → set_row zero K r c0 len vec r' c' = K r' c'.
Proof.
  intros H. unfold set_row, within.
  destruct (Nat.leb_spec c0 c'); [lia|]. now rewrite andb_false_r.
Qed.

Lemma add_row_low (K : matrix) (r c0 len : nat) (vec : list F) (r' c' : nat) :
  c' < c0 → add_row zero add K r c0 len vec r' c' = K r' c'.
Proof.
  intros H. unfold add_row, within.
  destruct (Nat.leb_spec c0 c'); [lia|]. now rewrite andb_false_r.
Qed.

Lemma add_block_low (K : matrix) (r0 c0 len : nat) (H : list (list F))
    (r' c' : nat) :
  r' < r0 → add_block zero add K r0 c0 len H r' c' = K r' c'.
Proof.
  intros Hlt. unfold add_block, within.
  destruct (Nat.leb_spec r0 r'); [lia|]. reflexivity.
Qed.

Lemma pair_step_symmetric (derivatives : bool) (m n Natoms ii : nat) (xi : G)
    (K : matrix) (jjx : nat * G) :
  (derivatives = true → m ≤ n) →
  symmetric_below m K →
  symmetric_below m (pair_step derivatives n Natoms ii xi K jjx).
Proof.
  intros Hm HK. destruct jjx as [jj xj]. unfold KRRMatrix.pair_step.
  pose proof (add_pair_symmetric m ii jj (kernel_value xi xj) K HK) as HP.
  destruct derivatives; [|exact HP].
  specialize (Hm eq_refl).
  intros r c Hr Hc.
  rewrite !add_block_low, !set_row_low by lia.
  now apply HP.
Qed.

Lemma row_step_symmetric (derivatives : bool) (m n Natoms : nat)
    (K : matrix) (iix : nat * G) (later : list (nat * G)) :
  (derivatives = true → m ≤ n) →
  symmetric_below m K →
  symmetric_below m (row_step derivatives n Natoms K iix later).
Proof.
  intros Hm HK. destruct iix as [ii xi]. unfold KRRMatrix.row_step.
  match goal with
  | |- symmetric_below m (fold_left _ later ?K0) =>
      assert (H0 : symmetric_below m K0)
  end.
  { pose proof (add_diagonal_symmetric m ii (kernel_value xi xi) K HK) as HD.
    destruct derivatives; [|exact HD].
    specialize (Hm eq_refl).
    intros r c Hr Hc.
    rewrite !add_block_low, !add_row_low by lia.
    now apply HD. }
  revert H0.
  match goal with
  | |- symmetric_below m ?K0 → _ => generalize K0
  end.
  induction later as [|jjx later IH]; intros K0 H0; cbn; [exact H0|].
  apply IH. now apply pair_step_symmetric.
Qed.

Lemma rows_symmetric (derivatives : bool) (m n Natoms : nat)
    (todo : list (nat * G)) (K : matrix) :
  (derivatives = true → m ≤ n) →
  symmetric_below m K →
  symmetric_below m (rows derivatives n Natoms todo K).
Proof.
  intros Hm. revert K.
  induction todo as [|iix later IH]; intros K HK; cbn; [exact HK|].
  apply IH. now apply row_step_symmetric.
Qed.

(** Without xyz-derivative labels the kernel matrix is symmetric, with the
    ridge term and without it. *)
Lemma kernel_matrix_symmetric_without_derivatives (Natoms : nat)
    (lambda_ : F) (xyz : list G) (r c : nat) :
  kernel_matrix false Natoms lambda_ xyz r c
  = kernel_matrix false Natoms lambda_ xyz c r
  ∧ without_ridge zero one sub mul lambda_
      (kernel_matrix false Natoms lambda_ xyz) r c
    = without_ridge zero one sub mul lambda_
        (kernel_matrix false Natoms lambda_ xyz) c r.
Proof.
  assert (E : kernel_matrix false Natoms lambda_ xyz r c
              = kernel_matrix false Natoms lambda_ xyz c r).
  { unfold KRRMatrix.kernel_matrix.
    apply (rows_symmetric false (S (Nat.max r c))); [discriminate | | lia | lia].
    apply ridge_symmetric. }
  split; [exact E|].
  unfold without_ridge. now rewrite E, (Nat.eqb_sym r c).
Qed.

(** With xyz-derivative labels the block of kernel values and the blocks
    that cross values with gradients are symmetric. *)
Lemma kernel_matrix_symmetric_outside_hessian (Natoms : nat)
    (lambda_ : F) (xyz : list G) (r c : nat) :
  let n := length xyz in
  r < kernel_matrix_size true n Natoms →
  c < kernel_matrix_size true n Natoms →
  r < n ∨ c < n →
  kernel_matrix true Natoms lambda_ xyz r c
  = kernel_matrix true Natoms lambda_ xyz c r.
Proof.
  intros n Hr Hc Hlow. unfold KRRMatrix.kernel_matrix. fold n.
  unfold mirror, within.
  repeat match goal with
         | |- context [?a <=? ?b] => destruct (Nat.leb_spec a b)
         | |- context [?a <? ?b] => destruct (Nat.ltb_spec a b)
         end; cbn; try lia; try reflexivity.
  apply (rows_symmetric true n n); [lia | apply ridge_symmetric | lia | lia].
Qed.

End KernelMatrixSymmetry.

(** C8 at two diatomic geometries, the bond along x and along y, learned
    with derivative labels: the entry of the Hessian block in row [2 + 0]
    and column [2 + 6 + 1] is 1, the entry across the diagonal is 0; the
    block of the pair and the block across the diagonal hold the same
    Hessian, where the second should hold its transpose.  The ridge term
    is off both entries. *)
Lemma kernel_matrix_hessian_blocks_asymmetric :
  KRRMatrix.unit_bond_kernel_matrix 0 2 9 = 1%Q
  ∧ KRRMatrix.unit_bond_kernel_matrix 0 9 2 = 0%Q
  ∧ KRRMatrix.unit_bond_kernel_matrix 0 8 3 = 1%Q
  ∧ Qeq_bool
      (KRRMatrix.without_ridge 0%Q 1%Q Qminus Qmult (1 # 1024)
         (KRRMatrix.unit_bond_kernel_matrix (1 # 1024)) 2 9)
      (KRRMatrix.without_ridge 0%Q 1%Q Qminus Qmult (1 # 1024)
         (KRRMatrix.unit_bond_kernel_matrix (1 # 1024)) 9 2)
    = false.
Proof. repeat split; vm_compute; reflexivity. Qed.

(** ** [model_tree_node.predict]: sum, average, the root, and a second call *)

Section ModelTreeSteps.

Import ModelTree.

Lemma map_result_Forall2 {A B} (F : A → result B) (l : list A) (l' : list B) :
  map_result F l = Ok l' → Forall2 (fun x y => F x = Ok y) l l'.
Proof.
  revert l'. induction l as [|x l IH]; cbn; intros l' E.
  - injection E as <-. constructor.
  - destruct (F x) as [y|e] eqn:Ex; cbn in E; [|discriminate E].
    destruct (map_result F l) as [ys|e] eqn:El; cbn in E; [|discriminate E].
    injection E as <-. constructor; [exact Ex | now apply IH].
Qed.

Lemma map_result_fixed {A} (F : A → result A) (l : list A) :
  Forall (fun x => F x = Ok x) l → map_result F l = Ok l.
Proof.
  induction 1 as [|x l Hx _ IH]; cbn; [reflexivity|].
  now rewrite Hx, IH.
Qed.

Lemma set_mol_same (k : string) (v : pyvalue) (mol : molecule) :
  mol_dict mol !! k = Some v → set_mol k v mol = mol.
Proof.
  intros H. destruct mol as [ats d]. unfold set_mol. cbn in *.
  now rewrite insert_id.
Qed.

Lemma set_atom_same (k : string) (v : list Q) (a : atom) :
  atom_dict a !! k = Some v → set_atom k v a = a.
Proof.
  intros H. destruct a as [z x d]. unfold set_atom. cbn in *.
  now rewrite insert_id.
Qed.

Lemma with_dict_same (c : properties_tree_node) (k : string) (v : ndarray) :
  ptn_dict c !! k = Some v → with_dict c (<[k := v]> (ptn_dict c)) = c.
Proof.
  intros H. destruct c as [n p ch d]. unfold with_dict. cbn in *.
  now rewrite insert_id.
Qed.

Lemma get_node_Ok (k : string) (mol : molecule) (c : properties_tree_node) :
  get_node k mol = Ok c ↔ mol_dict mol !! k = Some (Node c).
Proof.
  unfold get_node. destruct (mol_dict mol !! k) as [[a|c']|]; split;
    intros E; try discriminate E; congruence.
Qed.

Lemma child_values_agree (kids : list string) (p : string) (m m0 : molecule) :
  (∀ k, In k kids → mol_dict m !! k = mol_dict m0 !! k) →
  child_values kids p m = child_values kids p m0.
Proof.
  unfold child_values. induction kids as [|k kids IH]; intros H;
    cbn [map_result]; [reflexivity|].
  rewrite IH by (intros k' Hk'; apply H; now right).
  unfold get_node. rewrite (H k (or_introl eq_refl)). reflexivity.
Qed.

Lemma str_in_In (x : string) (l : list string) : str_in x l = true ↔ In x l.
Proof.
  unfold str_in. rewrite existsb_exists. split.
  - intros (y & Hy & E). apply String.eqb_eq in E. now subst.
  - intros H. exists x. split; [exact H | apply String.eqb_refl].
Qed.

Lemma str_in_false (x : string) (l : list string) :
  str_in x l = false ↔ ¬ In x l.
Proof.
  rewrite <- str_in_In. destruct (str_in x l); split; congruence.
Qed.

End ModelTreeSteps.

Section ModelTreeCombine.

Import ModelTree.

Variable op : list ndarray → result ndarray.
Variable nm : string.
Variable kids : list string.
Hypothesis nm_not_kid : ¬ In nm kids.

Lemma combined_agree (p : string) (m m0 : molecule) :
  (∀ k, In k kids → mol_dict m !! k = mol_dict m0 !! k) →
  combined op kids p m = combined op kids p m0.
Proof.
  intros H. unfold combined. now rewrite (child_values_agree kids p m m0 H).
Qed.

Lemma combine_step_spec (p : string) (m m' : molecule)
    (c : properties_tree_node) :
  mol_dict m !! nm = Some (Node c) →
  ptn_children c = Some kids →
  combine_step op nm p m = Ok m' →
  ∃ v, combined op kids p m = Ok v
       ∧ m' = set_mol nm (Node (with_dict c (<[p := v]> (ptn_dict c)))) m.
Proof.
  intros Hc Hk E. unfold combine_step in E.
  apply get_node_Ok in Hc. rewrite Hc in E. cbn in E. rewrite Hk in E.
  cbn in E. unfold combined.
  destruct (child_values kids p m) as [vs|e]; cbn in E |- *; [|discriminate E].
  destruct (op vs) as [v|e]; cbn in E; [|discriminate E].
  injection E as <-. now exists v.
Qed.

Lemma combine_post (names : list string) (m m2 : molecule)
    (c : properties_tree_node) :
  mol_dict m !! nm = Some (Node c) →
  ptn_children c = Some kids →
  combine op nm names m = Ok m2 →
  atoms m2 = atoms m
  ∧ (∀ k, k ≠ nm → mol_dict m2 !! k = mol_dict m !! k)
  ∧ ∃ c2, mol_dict m2 !! nm = Some (Node c2)
          ∧ ptn_children c2 = Some kids
          ∧ (∀ p, In p names →
               ∃ v, combined op kids p m = Ok v ∧ ptn_dict c2 !! p = Some v)
          ∧ (∀ p, ¬ In p names → ptn_dict c2 !! p = ptn_dict c !! p).
Proof.
  revert m c. induction names as [|p0 names IH]; intros m c Hc Hk E.
  - cbn in E. injection E as <-. split; [reflexivity|]. split; [reflexivity|].
    exists c. repeat split; try assumption. intros p [].
  - unfold combine in E. cbn [for_each] in E.
    destruct (combine_step op nm p0 m) as [m1|e] eqn:E1; cbn in E;
      [|discriminate E].
    destruct (combine_step_spec p0 m m1 c Hc Hk E1) as (v0 & Hv0 & ->).
    set (c1 := with_dict c (<[p0 := v0]> (ptn_dict c))) in *.
    set (m1 := set_mol nm (Node c1) m) in *.
    assert (Hc1 : mol_dict m1 !! nm = Some (Node c1))
      by (subst m1; cbn; apply lookup_insert_eq).
    assert (Hother : ∀ k, k ≠ nm → mol_dict m1 !! k = mol_dict m !! k)
      by (intros k Hne; subst m1; cbn; now apply lookup_insert_ne).
    destruct (IH m1 c1 Hc1 Hk E) as (Hat & Hoth & c2 & Hc2 & Hk2 & Hin & Hout).
    split; [exact Hat|].
    split; [intros k Hne; rewrite Hoth by exact Hne; now apply Hother|].
    exists c2. split; [exact Hc2|]. split; [exact Hk2|].
    assert (Hagree : ∀ p, combined op kids p m1 = combined op kids p m).
    { intros p. apply combined_agree. intros k Hkin. apply Hother.
      intros ->. now apply nm_not_kid. }
    split.
    + intros p Hp.
      destruct (in_dec string_dec p names) as [Hrest|Hrest].
      * destruct (Hin p Hrest) as (v & Hv & Hd). exists v.
        rewrite <- Hagree. now split.
      * destruct Hp as [<-|Hp]; [|contradiction].
        exists v0. split; [exact Hv0|].
        rewrite (Hout p0 Hrest). subst c1. cbn. apply lookup_insert_eq.
    + intros p Hp.
      rewrite Hout by (intros Hin'; apply Hp; now right).
      subst c1. cbn. apply lookup_insert_ne.
      intros ->. apply Hp. now left.
Qed.

Lemma combine_fixed (names : list string) (m : molecule)
    (c : properties_tree_node) :
  mol_dict m !! nm = Some (Node c) →
  ptn_children c = Some kids →
  (∀ p, In p names →
     ∃ v, combined op kids p m = Ok v ∧ ptn_dict c !! p = Some v) →
  combine op nm names m = Ok m.
Proof.
  intros Hc Hk. induction names as [|p0 names IH]; intros H; [reflexivity|].
  unfold combine. cbn [for_each].
  destruct (H p0 (or_introl eq_refl)) as (v & Hv & Hd).
  assert (E : combine_step op nm p0 m = Ok m).
  { unfold combine_step. rewrite (proj2 (get_node_Ok nm m c) Hc). cbn.
    rewrite Hk. cbn. unfold combined in Hv.
    destruct (child_values kids p0 m) as [vs|e]; cbn in Hv |- *;
      [|discriminate Hv].
    rewrite Hv. cbn. rewrite (with_dict_same c p0 v Hd).
    now rewrite (set_mol_same nm (Node c) m Hc). }
  rewrite E. cbn. apply IH. intros p Hp. apply H. now right.
Qed.

End ModelTreeCombine.

Section ModelTreeUpdate.

Import ModelTree.

Variable nm : string.

Lemma update_props_post (names : list string) (m m2 : molecule)
    (c : properties_tree_node) :
  ¬ In nm names →
  mol_dict m !! nm = Some (Node c) →
  for_each (update_property nm) names m = Ok m2 →
  atoms m2 = atoms m
  ∧ (∀ k, ¬ In k names → mol_dict m2 !! k = mol_dict m !! k)
  ∧ (∀ p, In p names →
       ∃ v, ptn_dict c !! p = Some v ∧ mol_dict m2 !! p = Some (Num v)).
Proof.
  revert m. induction names as [|p0 names IH]; intros m Hnm Hc E.
  - cbn in E. injection E as <-. repeat split. intros p [].
  - cbn [for_each] in E.
    destruct (update_property nm p0 m) as [m1|e] eqn:E1; cbn in E;
      [|discriminate E].
    unfold update_property in E1.
    rewrite (proj2 (get_node_Ok nm m c) Hc) in E1. cbn in E1.
    destruct (ptn_dict c !! p0) as [v0|] eqn:Hv0; [|discriminate E1].
    injection E1 as <-.
    assert (Hne : p0 ≠ nm) by (intros ->; apply Hnm; now left).
    assert (Hc1 : mol_dict (set_mol p0 (Num v0) m) !! nm = Some (Node c))
      by (cbn; now rewrite lookup_insert_ne).
    destruct (IH _ (fun H => Hnm (or_intror H)) Hc1 E) as (Hat & Hout & Hin).
    split; [exact Hat|]. split.
    + intros k Hk. rewrite Hout by (intros H; apply Hk; now right).
      cbn. apply lookup_insert_ne. intros ->. apply Hk. now left.
    + intros p Hp.
      destruct (in_dec string_dec p names) as [Hrest|Hrest];
        [now apply Hin|].
      destruct Hp as [<-|Hp]; [|contradiction].
      exists v0. split; [exact Hv0|].
      rewrite (Hout p0 Hrest). cbn. apply lookup_insert_eq.
Qed.

Lemma update_props_fixed (names : list string) (m : molecule)
    (c : properties_tree_node) :
  mol_dict m !! nm = Some (Node c) →
  (∀ p, In p names →
     ∃ v, ptn_dict c !! p = Some v ∧ mol_dict m !! p = Some (Num v)) →
  for_each (update_property nm) names m = Ok m.
Proof.
  intros Hc. induction names as [|p0 names IH]; intros H; [reflexivity|].
  cbn [for_each].
  destruct (H p0 (or_introl eq_refl)) as (v & Hv & Hm).
  assert (E : update_property nm p0 m = Ok m).
  { unfold update_property. rewrite (proj2 (get_node_Ok nm m c) Hc). cbn.
    rewrite Hv. now rewrite (set_mol_same p0 (Num v) m Hm). }
  rewrite E. cbn. apply IH. intros p Hp. apply H. now right.
Qed.

Lemma update_atoms_post (p : string) (m : molecule) (k : nat)
    (l l2 : list atom) :
  map_result (update_atom nm p m) (imap (fun i a => (k + i, a)) l) = Ok l2 →
  ∀ i a2, l2 !! i = Some a2 →
    ∃ a, l !! i = Some a ∧ update_atom nm p m (k + i, a) = Ok a2.
Proof.
  revert k l2. induction l as [|x l IH]; intros k l2 E i a2 Hi.
  - cbn in E. injection E as <-. discriminate Hi.
  - cbn [imap map_result] in E.
    destruct (update_atom nm p m (k + 0, x)) as [y|e] eqn:Ex; cbn in E;
      [|discriminate E].
    rewrite (imap_ext _ (fun i a => (S k + i, a))) in E
      by (intros j a _; cbn; f_equal; lia).
    destruct (map_result (update_atom nm p m)
                (imap (fun i a => (S k + i, a)) l)) as [ys|e] eqn:El;
      cbn in E; [|discriminate E].
    injection E as <-.
    destruct i as [|i]; cbn in Hi |- *.
    + injection Hi as <-. exists x. split; [reflexivity | exact Ex].
    + destruct (IH (S k) ys El i a2 Hi) as (a & Ha & Hu).
      exists a. split; [exact Ha|].
      replace (k + S i) with (S k + i) by lia. exact Hu.
Qed.

Lemma update_atoms_length (p : string) (m : molecule) (k : nat)
    (l l2 : list atom) :
  map_result (update_atom nm p m) (imap (fun i a => (k + i, a)) l) = Ok l2 →
  length l2 = length l.
Proof.
  intros E. apply map_result_Forall2 in E. apply Forall2_length in E.
  rewrite length_imap in E. now symmetry.
Qed.

Lemma update_atoms_fixed (p : string) (m : molecule) (k : nat) (l : list atom) :
  (∀ i a, l !! i = Some a → update_atom nm p m (k + i, a) = Ok a) →
  map_result (update_atom nm p m) (imap (fun i a => (k + i, a)) l) = Ok l.
Proof.
  revert k. induction l as [|x l IH]; intros k H; [reflexivity|].
  cbn [imap map_result].
  rewrite (H 0 x eq_refl). cbn.
  rewrite (imap_ext _ (fun i a => (S k + i, a)))
    by (intros j a _; cbn; f_equal; lia).
  rewrite IH; [reflexivity|].
  intros i a Ha. replace (S k + i) with (k + S i) by lia. now apply H.
Qed.

Lemma properties_reserved (f : flags) (p : string) :
  In p (properties f) → In p reserved.
Proof.
  unfold properties, reserved.
  destruct (calculate_energy f), (calculate_hessian f); cbn; tauto.
Qed.

Lemma update_post (f : flags) (m m3 : molecule) (c : properties_tree_node) :
  ¬ In nm reserved →
  mol_dict m !! nm = Some (Node c) →
  update_molecular_properties nm (properties f) (atomic_properties f) m
  = Ok m3 →
  published nm f m3
  ∧ mol_dict m3 !! nm = Some (Node c)
  ∧ (∀ k, ¬ In k reserved → mol_dict m3 !! k = mol_dict m !! k)
  ∧ length (atoms m3) = length (atoms m).
Proof.
  intros Hres Hc E. unfold update_molecular_properties in E.
  destruct (for_each (update_property nm) (properties f) m) as [m2|e] eqn:E2;
    cbn in E; [|discriminate E].
  assert (Hnmp : ¬ In nm (properties f))
    by (intros H; apply Hres; now apply properties_reserved with f).
  destruct (update_props_post _ m m2 c Hnmp Hc E2) as (Hat & Hout & Hin).
  assert (Hc2 : mol_dict m2 !! nm = Some (Node c))
    by (rewrite Hout by exact Hnmp; exact Hc).
  assert (Hk2 : ∀ k, ¬ In k reserved → mol_dict m2 !! k = mol_dict m !! k).
  { intros k Hk. apply Hout. intros H. apply Hk.
    now apply properties_reserved with f. }
  unfold atomic_properties in *.
  destruct (calculate_energy_gradients f) eqn:Hg.
  - cbn [for_each] in E. unfold update_atomic_property in E.
    destruct (map_result (update_atom nm "energy_gradients" m2)
                (imap (fun i a => (i, a)) (atoms m2))) as [l2|e] eqn:El;
      cbn in E; [|discriminate E].
    injection E as <-. cbn.
    split; [|split; [exact Hc2 | split; [exact Hk2|]]].
    + unfold published, node_property, atomic_properties.
      cbn [mol_dict atoms]. rewrite Hc2, Hg. split.
      * intros p Hp. destruct (Hin p Hp) as (v & Hv & Hm). now exists v.
      * intros p [<-|[]] i a2 Hi.
        destruct (update_atoms_post "energy_gradients" m2 0 (atoms m2) l2 El
                    i a2 Hi) as (a & Ha & Hu).
        unfold update_atom in Hu.
        rewrite (proj2 (get_node_Ok nm m2 c) Hc2) in Hu. cbn in Hu.
        destruct (ptn_dict c !! "energy_gradients") as [arr|] eqn:Harr;
          [|discriminate Hu].
        destruct (row arr i) as [v|e] eqn:Hrow; cbn in Hu; [|discriminate Hu].
        injection Hu as <-. exists arr, v. cbn.
        repeat split; [exact Hrow | apply lookup_insert_eq].
    + rewrite (update_atoms_length "energy_gradients" m2 0 (atoms m2) l2 El).
      now rewrite Hat.
  - cbn in E. injection E as <-.
    split; [|split; [exact Hc2 | split; [exact Hk2 | now rewrite Hat]]].
    unfold published, node_property, atomic_properties. rewrite Hc2, Hg. split.
    + intros p Hp. destruct (Hin p Hp) as (v & Hv & Hm). now exists v.
    + intros p [].
Qed.

Lemma update_fixed (f : flags) (m : molecule) (c : properties_tree_node) :
  mol_dict m !! nm = Some (Node c) →
  published nm f m →
  update_molecular_properties nm (properties f) (atomic_properties f) m = Ok m.
Proof.
  intros Hc [Hp Ha]. unfold update_molecular_properties.
  unfold node_property in Hp, Ha. rewrite Hc in Hp, Ha.
  rewrite (update_props_fixed (properties f) m c Hc Hp). cbn.
  unfold atomic_properties in *.
  destruct (calculate_energy_gradients f); [|reflexivity].
  cbn [for_each]. unfold update_atomic_property.
  pose proof (update_atoms_fixed "energy_gradients" m 0 (atoms m)) as Hfix.
  cbn [Nat.add] in Hfix. rewrite Hfix.
  - cbn. now destruct m.
  - intros i a Hi.
    destruct (Ha "energy_gradients" (or_introl eq_refl) i a Hi)
      as (arr & v & Harr & Hrow & Hd).
    unfold update_atom. rewrite (proj2 (get_node_Ok nm m c) Hc). cbn.
    rewrite Harr, Hrow. cbn. now rewrite (set_atom_same _ v a Hd).
Qed.

End ModelTreeUpdate.

Section ModelTreePredict.

Import ModelTree.

Lemma ensure_present (nm : string) (parent : option string)
    (ck : option (list string)) (mol : molecule) :
  is_Some (mol_dict mol !! nm) → ensure_container nm parent ck mol = Ok mol.
Proof.
  intros [v Hv]. unfold ensure_container. now rewrite Hv.
Qed.

Lemma children_loop_skip
    (rec : model_tree_node → list molecule → result (list molecule))
    (cs : list model_tree_node) (mol0 : molecule) (rest : list molecule) :
  (∀ k, In k (map name cs) → is_Some (mol_dict mol0 !! k)) →
  children_loop rec cs (mol0 :: rest) = Ok (mol0 :: rest).
Proof.
  induction cs as [|child cs IH]; intros H; cbn; [reflexivity|].
  rewrite bool_decide_eq_true_2 by (apply H; now left).
  cbn. apply IH. intros k Hk. apply H. now right.
Qed.

Lemma children_loop_empty_db
    (rec : model_tree_node → list molecule → result (list molecule))
    (cs : list model_tree_node) (r : list molecule) :
  children_loop rec cs [] = Ok r → cs = [] ∧ r = [].
Proof.
  destruct cs as [|child cs]; cbn; intros E; [|discriminate E].
  injection E as <-. now split.
Qed.

Lemma ready_spec (nm : string) (kids : list string) (mol : molecule) :
  ready nm kids mol = true ↔
  ∃ c, mol_dict mol !! nm = Some (Node c)
       ∧ ptn_children c = Some kids
       ∧ ∀ k, In k kids → is_Some (mol_dict mol !! k).
Proof.
  unfold ready. split.
  - destruct (mol_dict mol !! nm) as [[a|c]|]; try discriminate.
    intros H. apply andb_true_iff in H as [H1 H2].
    apply bool_decide_eq_true in H1. exists c.
    split; [reflexivity|]. split; [exact H1|].
    intros k Hk. rewrite forallb_forall in H2.
    exact (proj1 (bool_decide_eq_true _) (H2 k Hk)).
  - intros (c & -> & Hk & Hall). apply andb_true_iff. split.
    + now apply bool_decide_eq_true.
    + apply forallb_forall. intros k Hin.
      exact (proj2 (bool_decide_eq_true _) (Hall k Hin)).
Qed.

Lemma well_named_spec (nm : string) (kids : list string) :
  well_named nm kids = true ↔
  ¬ In nm kids ∧ ¬ In nm reserved ∧ ∀ k, In k kids → ¬ In k reserved.
Proof.
  unfold well_named. rewrite !andb_true_iff, !negb_true_iff, !str_in_false.
  rewrite forallb_forall. split.
  - intros [[H1 H2] H3]. repeat split; try assumption.
    intros k Hk. apply str_in_false, negb_true_iff. now apply H3.
  - intros (H1 & H2 & H3). repeat split; try assumption.
    intros k Hk. apply negb_true_iff, str_in_false. now apply H3.
Qed.

Lemma operator_function_spec (operator : option string)
    (op : list ndarray → result ndarray) (vs : list ndarray) (v : ndarray) :
  operator_function operator = Some op →
  op vs = Ok v → is_combination operator vs v.
Proof.
  unfold operator_function, is_combination.
  destruct (bool_decide (operator = Some "sum")) eqn:Hs.
  - apply bool_decide_eq_true in Hs. intros [= <-] E. now left.
  - destruct (bool_decide (operator = Some "average")) eqn:Ha; [|discriminate].
    apply bool_decide_eq_true in Ha. intros [= <-] E. right.
    split; [exact Ha|]. unfold nd_mean in E.
    destruct vs as [|x vs]; [discriminate E|].
    destruct (nd_sum (x :: vs)) as [total|e]; cbn in E; [|discriminate E].
    injection E as <-. now exists total.
Qed.

Lemma child_values_length (kids : list string) (p : string) (mol : molecule)
    (vs : list ndarray) :
  child_values kids p mol = Ok vs → length vs = length kids.
Proof.
  intros E. apply map_result_Forall2, Forall2_length in E. now symmetry.
Qed.

(** One molecule through the combination and the copy to the top level,
    and through both again. *)
Lemma node_run (op : list ndarray → result ndarray) (nm : string)
    (kids : list string) (f : flags) (mol m2 m3 : molecule) :
  well_named nm kids = true →
  ready nm kids mol = true →
  combine op nm (properties f ++ atomic_properties f) mol = Ok m2 →
  update_molecular_properties nm (properties f) (atomic_properties f) m2
  = Ok m3 →
  (∀ p, In p (properties f ++ atomic_properties f) →
     ∃ v, combined op kids p mol = Ok v ∧ node_property nm p m3 = Some v)
  ∧ published nm f m3
  ∧ ready nm kids m3 = true
  ∧ combine op nm (properties f ++ atomic_properties f) m3 = Ok m3
  ∧ update_molecular_properties nm (properties f) (atomic_properties f) m3
    = Ok m3.
Proof.
  intros Hwn Hready Ecomb Eupd.
  apply well_named_spec in Hwn as (Hnk & Hnr & Hkr).
  apply ready_spec in Hready as (c & Hc & Hck & Hkids).
  destruct (combine_post op nm kids Hnk _ mol m2 c Hc Hck Ecomb)
    as (Hat2 & Hoth2 & c2 & Hc2 & Hck2 & Hin2 & _).
  destruct (update_post nm f m2 m3 c2 Hnr Hc2 Eupd)
    as (Hpub & Hc3 & Hoth3 & _).
  assert (Hkid3 : ∀ k, In k kids → mol_dict m3 !! k = mol_dict mol !! k).
  { intros k Hk. rewrite Hoth3 by now apply Hkr.
    apply Hoth2. intros ->. now apply Hnk. }
  assert (Hvals : ∀ p, In p (properties f ++ atomic_properties f) →
            ∃ v, combined op kids p m3 = Ok v ∧ ptn_dict c2 !! p = Some v).
  { intros p Hp. destruct (Hin2 p Hp) as (v & Hv & Hd). exists v.
    split; [|exact Hd].
    rewrite (combined_agree op kids p m3 mol) by exact Hkid3. exact Hv. }
  split.
  { intros p Hp. destruct (Hin2 p Hp) as (v & Hv & Hd). exists v.
    split; [exact Hv|]. unfold node_property. now rewrite Hc3. }
  split; [exact Hpub|].
  split.
  { apply ready_spec. exists c2. split; [exact Hc3|]. split; [exact Hck2|].
    intros k Hk. rewrite Hkid3 by exact Hk. now apply Hkids. }
  split.
  { now apply (combine_fixed op nm kids _ m3 c2). }
  now apply (update_fixed nm f m3 c2).
Qed.

End ModelTreePredict.

Section ModelTreeTheorem.

Import ModelTree.

Lemma operator_function_known (operator : option string) :
  operator = Some "sum" ∨ operator = Some "average" →
  ∃ op, operator_function operator = Some op.
Proof.
  intros [-> | ->]; eexists; reflexivity.
Qed.

(** [predict] at the root of a one-level combination whose children are
    annotated: the two loops it comes down to. *)
Lemma predict_annotated (nm : string) (cs : list model_tree_node)
    (operator : option string) (md : option leaf_model)
    (op : list ndarray → result ndarray) (f : flags) (db : list molecule) :
  operator_function operator = Some op →
  forallb (ready nm (map name cs)) db = true →
  (db = [] → cs = []) →
  predict (Build_node nm (Some cs) operator md) None f db
  = (db2 ← map_result
             (combine op nm (properties f ++ atomic_properties f)) db;
     map_result
       (update_molecular_properties nm (properties f) (atomic_properties f))
       db2).
Proof.
  intros Hop Hready Hempty. cbn [predict]. rewrite Hop.
  rewrite forallb_forall in Hready.
  rewrite map_result_fixed.
  2:{ apply Forall_forall. intros mol Hmol. apply ensure_present.
      apply list_elem_of_In in Hmol.
      destruct (proj1 (ready_spec _ _ _) (Hready mol Hmol)) as (c & Hc & _).
      now rewrite Hc. }
  cbn [mbind result_bind].
  destruct db as [|mol0 rest].
  - rewrite (Hempty eq_refl). reflexivity.
  - rewrite children_loop_skip; [reflexivity|].
    destruct (proj1 (ready_spec _ _ _) (Hready mol0 (or_introl eq_refl)))
      as (c & _ & _ & Hk).
    exact Hk.
Qed.

(** At a root node whose container holds its children already, on every
    molecule: what a [predict] that returns leaves behind, and what a
    second one does. *)
Lemma ready_node_combines_children :
  ∀ (nm : string) (cs : list model_tree_node) (operator : option string)
    (md : option leaf_model) (f : flags) (db db' : list molecule),
    operator = Some "sum" ∨ operator = Some "average" →
    well_named nm (map name cs) = true →
    forallb (ready nm (map name cs)) db = true →
    predict (Build_node nm (Some cs) operator md) None f db = Ok db' →
    length db' = length db
    ∧ (∀ i mol mol', db !! i = Some mol → db' !! i = Some mol' →
         (∀ p, In p (properties f ++ atomic_properties f) →
            ∃ vs v, child_values (map name cs) p mol = Ok vs
                    ∧ length vs = length cs
                    ∧ is_combination operator vs v
                    ∧ node_property nm p mol' = Some v)
         ∧ published nm f mol')
    ∧ predict (Build_node nm (Some cs) operator md) None f db' = Ok db'.
Proof.
  intros nm cs operator md f db db' Hoper Hwn Hready Hrun.
  destruct (operator_function_known operator Hoper) as (op & Hop).
  assert (Hempty : db = [] → cs = []).
  { intros ->. destruct cs as [|child cs]; [reflexivity|].
    cbn in Hrun. discriminate Hrun. }
  rewrite (predict_annotated nm cs operator md op f db Hop Hready Hempty)
    in Hrun.
  destruct (map_result (combine op nm (properties f ++ atomic_properties f)) db)
    as [db2|e] eqn:E2; cbn in Hrun; [|discriminate Hrun].
  apply map_result_Forall2 in E2, Hrun.
  assert (Hsteps : ∀ i mol mol', db !! i = Some mol → db' !! i = Some mol' →
            ∃ m2, combine op nm (properties f ++ atomic_properties f) mol = Ok m2
                  ∧ update_molecular_properties nm (properties f)
                      (atomic_properties f) m2 = Ok mol'
                  ∧ ready nm (map name cs) mol = true).
  { intros i mol mol' Hi Hi'.
    destruct (Forall2_lookup_l _ _ _ _ _ E2 Hi) as (m2 & Hi2 & Hc).
    destruct (Forall2_lookup_l _ _ _ _ _ Hrun Hi2) as (m3 & Hi3 & Hu).
    rewrite Hi' in Hi3. injection Hi3 as <-.
    exists m2. split; [exact Hc|]. split; [exact Hu|].
    rewrite forallb_forall in Hready. apply Hready.
    apply list_elem_of_In. now apply list_elem_of_lookup_2 with i. }
  assert (Hlen : length db' = length db).
  { apply Forall2_length in E2, Hrun. congruence. }
  assert (Hfix : ∀ mol', In mol' db' →
            ready nm (map name cs) mol' = true
            ∧ combine op nm (properties f ++ atomic_properties f) mol' = Ok mol'
            ∧ update_molecular_properties nm (properties f)
                (atomic_properties f) mol' = Ok mol').
  { intros mol' Hin. apply list_elem_of_In, list_elem_of_lookup_1 in Hin.
    destruct Hin as (i & Hi').
    assert (Hlt : i < length db)
      by (rewrite <- Hlen; now apply lookup_lt_Some with mol').
    destruct (lookup_lt_is_Some_2 db i Hlt) as (mol & Hi).
    destruct (Hsteps i mol mol' Hi Hi') as (m2 & Hc & Hu & Hr).
    destruct (node_run op nm (map name cs) f mol m2 mol' Hwn Hr Hc Hu)
      as (_ & _ & Hr' & Hc' & Hu').
    auto. }
  split; [exact Hlen|]. split.
  - intros i mol mol' Hi Hi'.
    destruct (Hsteps i mol mol' Hi Hi') as (m2 & Hc & Hu & Hr).
    destruct (node_run op nm (map name cs) f mol m2 mol' Hwn Hr Hc Hu)
      as (Hvals & Hpub & _).
    split; [|exact Hpub].
    intros p Hp. destruct (Hvals p Hp) as (v & Hv & Hnode).
    unfold combined in Hv.
    destruct (child_values (map name cs) p mol) as [vs|e] eqn:Evs;
      cbn in Hv; [|discriminate Hv].
    exists vs, v. split; [reflexivity|].
    split; [rewrite (child_values_length _ _ _ _ Evs); apply length_map|].
    split; [now apply operator_function_spec with op | exact Hnode].
  - rewrite (predict_annotated nm cs operator md op f db' Hop).
    + rewrite map_result_fixed
        by (apply Forall_forall; intros x Hx; apply list_elem_of_In in Hx;
            now destruct (Hfix x Hx) as (_ & H & _)).
      cbn [mbind result_bind]. apply map_result_fixed.
      apply Forall_forall. intros x Hx. apply list_elem_of_In in Hx.
      now destruct (Hfix x Hx) as (_ & _ & H).
    + apply forallb_forall. intros x Hx. now destruct (Hfix x Hx).
    + intros ->. apply Hempty. destruct db; [reflexivity | discriminate Hlen].
Qed.

End ModelTreeTheorem.

Section ModelTreePrepared.

Import ModelTree.

Lemma node_like_refl (v : option pyvalue) : node_like v v.
Proof. now left. Qed.

Lemma node_like_trans (u v w : option pyvalue) :
  node_like u v → node_like v w → node_like u w.
Proof.
  intros [-> | (c & c' & -> & -> & Hd & Hk)] [-> | (d & d' & E & -> & Hd' & Hk')].
  - now left.
  - right. now exists d, d'.
  - right. now exists c, c'.
  - injection E as <-. right. exists c, d'.
    repeat split; congruence.
Qed.

Lemma child_values_node_like (kids : list string) (p : string)
    (m0 m : molecule) :
  (∀ k, In k kids → node_like (mol_dict m0 !! k) (mol_dict m !! k)) →
  child_values kids p m = child_values kids p m0.
Proof.
  unfold child_values. induction kids as [|k kids IH]; intros H;
    cbn [map_result]; [reflexivity|].
  rewrite IH by (intros k' Hk'; apply H; now right).
  unfold get_node.
  destruct (H k (or_introl eq_refl)) as [-> | (c & c' & -> & -> & Hd & _)];
    [reflexivity|].
  cbn. now rewrite Hd.
Qed.

Lemma adopt_all (nm : string) (found : list string) (mol m' : molecule) :
  for_each (adopt nm) found mol = Ok m' →
  atoms m' = atoms mol
  ∧ ∀ k, node_like (mol_dict mol !! k) (mol_dict m' !! k).
Proof.
  revert mol. induction found as [|k0 found IH]; intros mol E.
  - cbn in E. injection E as <-. split; [reflexivity|].
    intros k. apply node_like_refl.
  - cbn [for_each] in E.
    destruct (adopt nm k0 mol) as [m1|e] eqn:E1; cbn in E; [|discriminate E].
    unfold adopt in E1.
    destruct (get_node k0 mol) as [c0|e] eqn:Hc0; cbn in E1; [|discriminate E1].
    injection E1 as <-. apply get_node_Ok in Hc0.
    destruct (IH _ E) as (Hat & Hlike).
    split; [exact Hat|].
    intros k. eapply node_like_trans; [|apply Hlike].
    cbn. destruct (decide (k0 = k)) as [<-|Hne].
    + rewrite lookup_insert_eq, Hc0. right.
      eexists. eexists. repeat split; reflexivity.
    + rewrite lookup_insert_ne by exact Hne. apply node_like_refl.
Qed.

Lemma filter_all {A} (P : A → bool) (l : list A) :
  (∀ x, In x l → P x = true) → List.filter P l = l.
Proof.
  induction l as [|x l IH]; intros H; cbn; [reflexivity|].
  rewrite (H x (or_introl eq_refl)).
  f_equal. apply IH. intros y Hy. apply H. now right.
Qed.

Lemma node_like_is_Some (v v' : option pyvalue) :
  node_like v v' → is_Some v → is_Some v'.
Proof.
  intros [-> | (c & c' & -> & -> & _)] H; [exact H | eauto].
Qed.

(** The first loop of [predict] on a prepared molecule: afterwards the
    container of the node holds the children, whose properties are as they
    were. *)
Lemma ensure_prepared (nm : string) (kids : list string) (mol mol1 : molecule) :
  well_named nm kids = true →
  prepared nm kids mol = true →
  ensure_container nm None (Some kids) mol = Ok mol1 →
  ready nm kids mol1 = true
  ∧ ∀ p, child_values kids p mol1 = child_values kids p mol.
Proof.
  intros Hwn Hprep E.
  apply well_named_spec in Hwn as (Hnk & _ & _).
  unfold prepared in Hprep. apply andb_true_iff in Hprep as [Hkids Hown].
  rewrite forallb_forall in Hkids.
  unfold ensure_container in E.
  destruct (mol_dict mol !! nm) as [[a|c]|] eqn:Hnm.
  - discriminate Hown.
  - injection E as <-. split; [|reflexivity].
    apply ready_spec. exists c. split; [exact Hnm|].
    split; [now apply bool_decide_eq_true in Hown|].
    intros k Hk. exact (proj1 (bool_decide_eq_true _) (Hkids k Hk)).
  - change (default [] (Some kids)) with kids in E.
    rewrite (filter_all _ kids Hkids) in E.
    cbn [register_with_parent mbind result_bind] in E.
    destruct (for_each (adopt nm) kids mol) as [m1|e] eqn:Ead; cbn in E;
      [|discriminate E].
    injection E as <-.
    destruct (adopt_all nm kids mol m1 Ead) as (_ & Hlike).
    assert (Hk1 : ∀ k, In k kids →
              node_like (mol_dict mol !! k)
                (<[nm := Node {| ptn_name := nm; ptn_parent := None;
                                 ptn_children :=
                                   match kids with
                                   | [] => None
                                   | _ :: _ => Some kids
                                   end;
                                 ptn_dict := ∅ |}]> (mol_dict m1) !! k)).
    { intros k Hk. rewrite lookup_insert_ne by (intros ->; now apply Hnk).
      apply Hlike. }
    split.
    + apply ready_spec. eexists. cbn. split; [apply lookup_insert_eq|].
      split.
      * cbn. destruct kids; [discriminate Hown | reflexivity].
      * intros k Hk. eapply node_like_is_Some; [apply (Hk1 k Hk)|].
        exact (proj1 (bool_decide_eq_true _) (Hkids k Hk)).
    + intros p. apply child_values_node_like. exact Hk1.
Qed.

Lemma ensure_leaves_name (nm : string) (parent : option string)
    (ck : option (list string)) (mol mol1 : molecule) :
  ensure_container nm parent ck mol = Ok mol1 →
  is_Some (mol_dict mol1 !! nm).
Proof.
  unfold ensure_container. intros E.
  destruct (mol_dict mol !! nm) as [v|] eqn:Hnm.
  - injection E as <-. rewrite Hnm. eauto.
  - match type of E with
    | context [register_with_parent nm ?par mol] =>
        destruct (register_with_parent nm par mol) as [m0|e]; cbn in E;
          [|discriminate E]
    end.
    match type of E with
    | context [for_each (adopt nm) ?l m0] =>
        destruct (for_each (adopt nm) l m0) as [m1|e]; cbn in E;
          [|discriminate E]
    end.
    injection E as <-. cbn. rewrite lookup_insert_eq. eauto.
Qed.

Lemma predict_after_ensure (nm : string) (cs : list model_tree_node)
    (operator : option string) (md : option leaf_model) (f : flags)
    (db db1 : list molecule) :
  map_result (ensure_container nm None (Some (map name cs))) db = Ok db1 →
  predict (Build_node nm (Some cs) operator md) None f db
  = predict (Build_node nm (Some cs) operator md) None f db1.
Proof.
  intros E. cbn [predict fmap option_fmap option_map]. rewrite E.
  rewrite (map_result_fixed _ db1); [reflexivity|].
  apply map_result_Forall2 in E.
  apply Forall_forall. intros mol1 Hin.
  apply list_elem_of_lookup_1 in Hin as (i & Hi).
  destruct (Forall2_lookup_r _ _ _ _ _ E Hi) as (mol & _ & Hens).
  apply ensure_present. now apply ensure_leaves_name in Hens.
Qed.

End ModelTreePrepared.

Section ModelTreeCombination.

Import ModelTree.

(** A root node whose children have left their containers, in terms of
    the lists [predict] makes of the requested names. *)
Lemma prepared_node_combines_children :
  ∀ (nm : string) (cs : list model_tree_node) (operator : option string)
    (md : option leaf_model) (f : flags) (db db' : list molecule),
    operator = Some "sum" ∨ operator = Some "average" →
    well_named nm (map name cs) = true →
    forallb (prepared nm (map name cs)) db = true →
    predict (Build_node nm (Some cs) operator md) None f db = Ok db' →
    length db' = length db
    ∧ (∀ i mol mol', db !! i = Some mol → db' !! i = Some mol' →
         (∀ p, In p (properties f ++ atomic_properties f) →
            ∃ vs v, child_values (map name cs) p mol = Ok vs
                    ∧ length vs = length cs
                    ∧ is_combination operator vs v
                    ∧ node_property nm p mol' = Some v)
         ∧ published nm f mol')
    ∧ predict (Build_node nm (Some cs) operator md) None f db' = Ok db'.
Proof.
  intros nm cs operator md f db db' Hoper Hwn Hprep Hrun.
  destruct (map_result (ensure_container nm None (Some (map name cs))) db)
    as [db1|e] eqn:E1.
  2:{ cbn [predict fmap option_fmap option_map] in Hrun.
      rewrite E1 in Hrun. discriminate Hrun. }
  rewrite (predict_after_ensure nm cs operator md f db db1 E1) in Hrun.
  apply map_result_Forall2 in E1.
  rewrite forallb_forall in Hprep.
  assert (Hens : ∀ i mol mol1, db !! i = Some mol → db1 !! i = Some mol1 →
            ready nm (map name cs) mol1 = true
            ∧ ∀ p, child_values (map name cs) p mol1
                   = child_values (map name cs) p mol).
  { intros i mol mol1 Hi Hi1.
    destruct (Forall2_lookup_l _ _ _ _ _ E1 Hi) as (m & Hm & Hrun1).
    rewrite Hi1 in Hm. injection Hm as <-.
    apply ensure_prepared; [exact Hwn | | exact Hrun1].
    apply Hprep, list_elem_of_In. now apply list_elem_of_lookup_2 with i. }
  assert (Hready : forallb (ready nm (map name cs)) db1 = true).
  { apply forallb_forall. intros mol1 Hin.
    apply list_elem_of_In, list_elem_of_lookup_1 in Hin as (i & Hi1).
    destruct (Forall2_lookup_r _ _ _ _ _ E1 Hi1) as (mol & Hi & _).
    exact (proj1 (Hens i mol mol1 Hi Hi1)). }
  destruct (ready_node_combines_children nm cs operator md f db1 db'
              Hoper Hwn Hready Hrun) as (Hlen & Hall & Hsecond).
  split; [apply Forall2_length in E1; congruence|].
  split; [|exact Hsecond].
  intros i mol mol' Hi Hi'.
  destruct (Forall2_lookup_l _ _ _ _ _ E1 Hi) as (mol1 & Hi1 & _).
  destruct (Hall i mol1 mol' Hi1 Hi') as (Hvals & Hpub).
  split; [|exact Hpub].
  intros p Hp. destruct (Hvals p Hp) as (vs & v & Hvs & Hrest).
  exists vs, v. split; [|exact Hrest].
  now rewrite <- (proj2 (Hens i mol mol1 Hi Hi1) p).
Qed.

Lemma requested_property (f : flags) (p : string) :
  In p (properties f)
  ↔ (p = "energy" ∧ calculate_energy f = true)
    ∨ (p = "hessian" ∧ calculate_hessian f = true).
Proof.
  unfold properties.
  destruct (calculate_energy f), (calculate_hessian f); cbn;
    intuition (discriminate || auto).
Qed.

Lemma requested_atomic_property (f : flags) (p : string) :
  In p (atomic_properties f)
  ↔ p = "energy_gradients" ∧ calculate_energy_gradients f = true.
Proof.
  unfold atomic_properties.
  destruct (calculate_energy_gradients f); cbn;
    intuition (discriminate || auto).
Qed.

(** C2: at a root node with operator ['sum'] or ['average'] whose
    children have each left their container on every molecule of the
    database, a [predict] that returns leaves, on every molecule and for
    each of [energy], [energy_gradients] and [hessian] that the call
    requests, the elementwise sum of the values of all the children,
    divided by their count under ['average'], in the container of the
    node; the same value stands under the top-level name [energy] or
    [hessian] of the molecule and, for [energy_gradients], row by row on
    its atoms; and a second [predict] returns the database unchanged. *)
Theorem tree_node_combines_children :
  ∀ (nm : string) (cs : list model_tree_node) (operator : option string)
    (md : option leaf_model) (f : flags) (db db' : list molecule),
    operator = Some "sum" ∨ operator = Some "average" →
    well_named nm (map name cs) = true →
    forallb (prepared nm (map name cs)) db = true →
    predict (Build_node nm (Some cs) operator md) None f db = Ok db' →
    length db' = length db
    ∧ (∀ i mol mol' p,
         db !! i = Some mol → db' !! i = Some mol' →
         (p = "energy" ∧ calculate_energy f = true)
         ∨ (p = "energy_gradients" ∧ calculate_energy_gradients f = true)
         ∨ (p = "hessian" ∧ calculate_hessian f = true) →
         ∃ vs v,
           child_values (map name cs) p mol = Ok vs
           ∧ length vs = length cs
           ∧ is_combination operator vs v
           ∧ node_property nm p mol' = Some v
           ∧ (p ≠ "energy_gradients" → mol_dict mol' !! p = Some (Num v))
           ∧ (p = "energy_gradients" →
              ∀ iatom a, atoms mol' !! iatom = Some a →
                ∃ r, row v iatom = Ok r ∧ atom_dict a !! p = Some r))
    ∧ predict (Build_node nm (Some cs) operator md) None f db' = Ok db'.
Proof.
  intros nm cs operator md f db db' Hoper Hwn Hprep Hrun.
  destruct (prepared_node_combines_children nm cs operator md f db db'
              Hoper Hwn Hprep Hrun) as (Hlen & Hall & Hsecond).
  split; [exact Hlen|]. split; [|exact Hsecond].
  intros i mol mol' p Hi Hi' Hp.
  destruct (Hall i mol mol' Hi Hi') as (Hvals & Hprops & Hatomic).
  assert (Hin : In p (properties f) ∧ p ≠ "energy_gradients"
                ∨ In p (atomic_properties f) ∧ p = "energy_gradients").
  { destruct Hp as [[-> H] | [[-> H] | [-> H]]].
    - left. split; [apply requested_property; auto | discriminate].
    - right. split; [now apply requested_atomic_property | reflexivity].
    - left. split; [apply requested_property; auto | discriminate]. }
  assert (Hreq : In p (properties f ++ atomic_properties f))
    by (apply in_or_app; tauto).
  destruct (Hvals p Hreq) as (vs & v & Hvs & Hl & Hcomb & Hnode).
  exists vs, v. repeat split; try assumption.
  - intros Hne. destruct Hin as [[Hin _] | [_ ->]]; [|contradiction].
    destruct (Hprops p Hin) as (v' & Hv' & Htop). congruence.
  - intros -> iatom a Ha. destruct Hin as [[_ Hne] | [Hin _]]; [contradiction|].
    destruct (Hatomic _ Hin iatom a Ha) as (arr & r & Harr & Hrow & Hd).
    exists r. split; [congruence | exact Hd].
Qed.

End ModelTreeCombination.

Section ModelTreeExamples.

Import ModelTree.

(** Three leaves reporting the energies 1, 2, 4 and the gradients 10, 20,
    40 along x, on a fresh molecule: the sum root reports 7 and 70, the
    average root 7/3 and 70/3, and a second call leaves everything as the
    first left it. *)
Lemma three_leaves_sum_and_average :
  map top_level (once (three_leaves "sum") energy_and_gradients [Samples.h2])
  = [(Some (Num (Scalar 7)), [Some [70; 0; 0]%Q; Some [70; 0; 0]%Q])]
  ∧ map top_level
      (once (three_leaves "average") energy_and_gradients [Samples.h2])
    = [(Some (Num (Scalar (7 # 3))),
        [Some [70 # 3; 0 # 3; 0 # 3]; Some [70 # 3; 0 # 3; 0 # 3]])]
  ∧ predict (three_leaves "sum") None energy_and_gradients
      (once (three_leaves "sum") energy_and_gradients [Samples.h2])
    = Ok (once (three_leaves "sum") energy_and_gradients [Samples.h2])
  ∧ predict (three_leaves "average") None energy_and_gradients
      (once (three_leaves "average") energy_and_gradients [Samples.h2])
    = Ok (once (three_leaves "average") energy_and_gradients [Samples.h2]).
Proof. repeat split; vm_compute; reflexivity. Qed.

(** The three leaves on their own leave a molecule without the container
    of the root, and a molecule the root has annotated holds it with the
    three of them: both are prepared. *)
Lemma three_leaves_prepared :
  let f := energy_and_gradients in
  map (fun mol => mol_dict mol !! "root")
      (children_first (three_leaves "average") f [Samples.h2]) = [None]
  ∧ forallb (prepared "root" ["a"; "b"; "c"])
      (children_first (three_leaves "average") f [Samples.h2]) = true
  ∧ forallb (prepared "root" ["a"; "b"; "c"])
      (once (three_leaves "average") f [Samples.h2]) = true.
Proof. repeat split; vm_compute; reflexivity. Qed.

(** The combination theorem on the molecule the three leaves have
    annotated on their own, under the average root. *)
Lemma tree_node_combines_children_witness :
  let cs := [fixed_leaf "a" 1 10; fixed_leaf "b" 2 20; fixed_leaf "c" 4 40] in
  let f := energy_and_gradients in
  let db := children_first (three_leaves "average") f [Samples.h2] in
  let db' := once (three_leaves "average") f db in
  length db' = length db
  ∧ (∀ i mol mol' p,
       db !! i = Some mol → db' !! i = Some mol' →
       (p = "energy" ∧ calculate_energy f = true)
       ∨ (p = "energy_gradients" ∧ calculate_energy_gradients f = true)
       ∨ (p = "hessian" ∧ calculate_hessian f = true) →
       ∃ vs v,
         child_values (map name cs) p mol = Ok vs
         ∧ length vs = length cs
         ∧ is_combination (Some "average") vs v
         ∧ node_property "root" p mol' = Some v
         ∧ (p ≠ "energy_gradients" → mol_dict mol' !! p = Some (Num v))
         ∧ (p = "energy_gradients" →
            ∀ iatom a, atoms mol' !! iatom = Some a →
              ∃ r, row v iatom = Ok r ∧ atom_dict a !! p = Some r))
  ∧ predict (Build_node "root" (Some cs) (Some "average") None) None f db'
    = Ok db'.
Proof.
  intros cs f db db'.
  apply (tree_node_combines_children "root" cs (Some "average") None f db db').
  - right. reflexivity.
  - reflexivity.
  - vm_compute. reflexivity.
  - vm_compute. reflexivity.
Defined.

End ModelTreeExamples.

(* ===================================================================== *)
(** * Part III: further properties of the code                            *)
(* ===================================================================== *)

(** ** [class methods]: known names, given programs, the environment *)

Section MethodsKnown.

Import Methods MethodsApi.

Lemma Ok_inj {A} (a b : A) : Ok a = Ok b → a = b.
Proof. now intros [= ->]. Qed.

Lemma casefold_ascii_idem (c : ascii) :
  casefold_ascii (casefold_ascii c) = casefold_ascii c.
Proof.
  destruct c as [[] [] [] [] [] [] [] []]; reflexivity.
Qed.

Lemma casefold_idem (s : string) : casefold (casefold s) = casefold s.
Proof.
  induction s as [|c s IH]; cbn; [reflexivity|].
  now rewrite casefold_ascii_idem, IH.
Qed.

Lemma str_in_map_casefold (x : string) (l : list string) :
  str_in x (map casefold l) = true →
  str_in (casefold x) (map casefold l) = true.
Proof.
  unfold str_in. rewrite !existsb_exists.
  intros (y & Hy & E). apply String.eqb_eq in E. subst y.
  apply in_map_iff in Hy as (z & <- & Hz).
  exists (casefold z). split; [now apply in_map|].
  rewrite casefold_idem. apply String.eqb_refl.
Qed.

Lemma str_in_concat (x : string) (ls : list (list string)) :
  str_in x (map casefold (concat ls))
  = existsb (fun l => str_in x (map casefold l)) ls.
Proof.
  unfold str_in. induction ls as [|l ls IH]; cbn; [reflexivity|].
  now rewrite map_app, existsb_app, IH.
Qed.

Lemma find_none_existsb {A} (P : A → bool) (l : list A) :
  List.find P l = None ↔ existsb P l = false.
Proof.
  induction l as [|x l IH]; cbn; [tauto|].
  destruct (P x); cbn; [split; discriminate | exact IH].
Qed.

Lemma existsb_map_snd {A B} (P : B → bool) (l : list (A * B)) :
  existsb P (map snd l) = existsb (fun item => P (snd item)) l.
Proof.
  induction l as [|x l IH]; cbn; [reflexivity | now rewrite IH].
Qed.

Lemma first_interface_known (m : string) :
  first_interface m = None
  ↔ str_in (casefold m) (map casefold known_methods) = false.
Proof.
  unfold first_interface, known_methods.
  rewrite str_in_concat, existsb_map_snd, <- find_none_existsb.
  destruct (List.find _ methods_map); cbn; split; congruence.
Qed.

Lemma listed_is_known (m program : string) :
  casefold_in m program = true →
  str_in (casefold m) (map casefold known_methods) = true.
Proof.
  unfold casefold_in, interfaced_methods, known_methods, dict_get.
  rewrite str_in_concat, existsb_map_snd.
  generalize methods_map. intros l.
  induction l as [|item l IH]; [discriminate|].
  cbn [List.find existsb].
  destruct (String.eqb program (fst item)).
  - intros H. change (str_in (casefold m) (map casefold (snd item)) = true) in H.
    now rewrite H.
  - intros H. rewrite (IH H). apply orb_true_r.
Qed.

(** X1: without [program], the constructor raises the error of the name
    that no interface lists exactly when [is_known_method] answers
    [False], whatever the environment holds. *)
Theorem unknown_method_has_no_interface :
  ∀ (m : string) (environ : gmap string string),
    is_known_method (Some m) = Ok false
    ↔ snd (resolve (Some m) None environ)
      = Raise (ValueError
                 "Can't find appropriate interface for the requested method").
Proof.
  intros m environ. unfold is_known_method. split.
  - intros E. apply Ok_inj in E.
    assert (Hm : casefold_in m "mndo" = false).
    { destruct (casefold_in m "mndo") eqn:H; [|reflexivity].
      apply listed_is_known in H. congruence. }
    assert (Hv : verbatim_in m "sparrow" = false).
    { destruct (verbatim_in m "sparrow") eqn:H; [|reflexivity].
      apply str_in_map_casefold in H.
      apply (listed_is_known m "sparrow") in H. congruence. }
    apply first_interface_known in E.
    unfold resolve. rewrite Hm, Hv, E. reflexivity.
  - intros E. f_equal.
    apply first_interface_known.
    unfold resolve in E.
    destruct (casefold_in m "mndo" || verbatim_in m "sparrow").
    + destruct (casefold_in m "mndo"
                && set_and_not_empty (getenv environ "mndobin"));
        [discriminate E|].
      destruct (casefold_in m "sparrow"
                && set_and_not_empty (getenv environ "sparrowbin"));
        [discriminate E|].
      destruct (getenv environ "mndobin") as [b|].
      * destruct (casefold_in m "mndo" && negb (String.eqb b ""));
          cbn in E; [discriminate E | inversion E].
      * destruct (environ !! "PATH"); [|discriminate E].
        destruct (casefold_in m "mndo"); cbn in E;
          [discriminate E | inversion E].
    + destruct (first_interface m); [discriminate E | reflexivity].
Qed.

End MethodsKnown.

Section MethodsProgram.

Import Methods MethodsApi.

Context {I D : Type}.
Variable construct : interface_call → gmap string string → result I.
Variable interface_predict :
  I → option molecular_database → option molecule → bool → bool → bool
  → result D.

(** X2: with [program] given, the constructor looks at neither the
    environment nor the lists of method names.  A program that is a key of
    [methods_map] is constructed with the method as it is; any other
    program leaves the object without an interface, the constructor
    returns, and [predict] then raises [ValueError]. *)
Theorem program_given_skips_resolution :
  ∀ (m : option string) (p : string) (environ : gmap string string),
    fst (__init__ construct m (Some p) environ) = environ
    ∧ (str_in p (map fst methods_map) = true →
       snd (__init__ construct m (Some p) environ)
       = (i ← construct (interfaces_dict p m) environ;
          Ok {| method := m; program := Some p; interface := Some i |}))
    ∧ (str_in p (map fst methods_map) = false →
       snd (__init__ construct m (Some p) environ)
       = Ok {| method := m; program := Some p; interface := None |}
       ∧ ∀ db mol ce ceg ch,
           predict interface_predict
             {| method := m; program := Some p; interface := None |}
             db mol ce ceg ch
           = Raise (ValueError "Interface not set for the requested method")).
Proof.
  intros m p environ. unfold __init__, resolve.
  destruct (str_in p (map fst methods_map)); cbn.
  - split; [reflexivity|]. split; [|discriminate].
    intros _. now destruct (construct (interfaces_dict p m) environ).
  - split; [reflexivity|]. split; [discriminate|].
    intros _. split; reflexivity.
Qed.

End MethodsProgram.

Section MethodsEnvironment.

Import Methods.

(** X3: the fall-back to the default MNDO path happens once in an
    environment.  The first resolution writes [mndobin] and extends
    [PATH]; the next resolution of the same name finds [mndobin] set,
    leaves the environment as it is and constructs the MNDO interface
    without a path argument. *)
Theorem default_path_fallback_happens_once :
  ∀ (m path : string) (environ : gmap string string),
    casefold_in m "mndo" = true →
    environ !! "mndobin" = None →
    sparrow_eligible m environ = false →
    environ !! "PATH" = Some path →
    let environ' := fst (resolve (Some m) None environ) in
    snd (resolve (Some m) None environ)
    = Ok (Some (mndo_methods m (Some default_mndobin)))
    ∧ environ' !! "mndobin" = Some default_mndobin
    ∧ environ' !! "PATH" = Some (path ++ ":~/apps/mndo2020")%string
    ∧ resolve (Some m) None environ'
      = (environ', Ok (Some (mndo_methods m None))).
Proof.
  intros m path environ Hm Hb Hs Hp.
  unfold sparrow_eligible in Hs.
  assert (E : resolve (Some m) None environ
              = (<["mndobin" := default_mndobin]>
                   (<["PATH" := (path ++ ":~/apps/mndo2020")%string]> environ),
                 Ok (Some (mndo_methods m (Some default_mndobin))))).
  { unfold resolve, getenv. rewrite Hm, Hb, Hs, Hp. reflexivity. }
  rewrite E. cbn [fst snd].
  split; [reflexivity|]. split; [apply lookup_insert_eq|].
  split.
  - rewrite lookup_insert_ne by discriminate. apply lookup_insert_eq.
  - unfold resolve, getenv. rewrite Hm, lookup_insert_eq. reflexivity.
Qed.

(** X4: resolving a method never touches a variable of the environment
    other than [mndobin] and [PATH], and touches none at all when [program]
    is given or [mndobin] is set already. *)
Theorem resolve_keeps_the_environment :
  ∀ (m p : option string) (environ : gmap string string),
    (∀ k, k ≠ "mndobin" → k ≠ "PATH" →
          fst (resolve m p environ) !! k = environ !! k)
    ∧ (is_Some p ∨ is_Some (environ !! "mndobin") →
       fst (resolve m p environ) = environ).
Proof.
  intros m p environ.
  assert (H : fst (resolve m p environ) = environ
              ∨ (p = None ∧ environ !! "mndobin" = None
                 ∧ ∃ path, fst (resolve m p environ)
                           = <["mndobin" := default_mndobin]>
                               (<["PATH" := path]> environ))).
  { unfold resolve, getenv.
    destruct p as [p|]; [destruct (str_in p _); now left|].
    destruct m as [m|]; [|now left].
    destruct (casefold_in m "mndo" || verbatim_in m "sparrow").
    2:{ destruct (first_interface m); now left. }
    destruct (casefold_in m "mndo" && _); [now left|].
    destruct (casefold_in m "sparrow" && _); [now left|].
    destruct (environ !! "mndobin") as [b|] eqn:Hb.
    - destruct (casefold_in m "mndo" && _); now left.
    - destruct (environ !! "PATH") as [path|]; [|now left].
      right. split; [reflexivity|]. split; [reflexivity|].
      eexists. destruct (casefold_in m "mndo"); reflexivity. }
  split.
  - intros k Hk1 Hk2.
    destruct H as [-> | (_ & _ & path & ->)]; [reflexivity|].
    now rewrite !lookup_insert_ne by congruence.
  - intros Hset.
    destruct H as [H | (-> & Hb & _)]; [exact H|].
    destruct Hset as [[? Hp] | [? Hs]]; congruence.
Qed.

End MethodsEnvironment.

Section MethodsEnvironmentExamples.

Import Methods.

(** The fall-back on [AM1] in an environment with a search path only. *)
Lemma default_path_fallback_happens_once_witness :
  let environ' := fst (resolve (Some "AM1") None bare_environ) in
  snd (resolve (Some "AM1") None bare_environ)
  = Ok (Some (mndo_methods "AM1" (Some default_mndobin)))
  ∧ environ' !! "mndobin" = Some default_mndobin
  ∧ environ' !! "PATH" = Some ("/usr/bin" ++ ":~/apps/mndo2020")%string
  ∧ resolve (Some "AM1") None environ'
    = (environ', Ok (Some (mndo_methods "AM1" None))).
Proof.
  apply (default_path_fallback_happens_once "AM1" "/usr/bin" bare_environ).
  - reflexivity.
  - reflexivity.
  - reflexivity.
  - reflexivity.
Defined.

End MethodsEnvironmentExamples.

(** ** [load]: the file extension and the reader *)

Section LoadDispatch.

Import Load.

Context {M : Type}.
Variable load_json : string → result (option M).
Variable load_pickle : string → result (option M).

Lemma length_drop_chars (k : nat) (s : string) :
  String.length (drop_chars k s) = String.length s - k.
Proof.
  revert s. induction k as [|k IH]; intros [|c s]; cbn; try reflexivity.
  apply IH.
Qed.

Lemma length_last_chars (n : nat) (s : string) :
  n ≤ String.length s → String.length (last_chars n s) = n.
Proof.
  intros H. unfold last_chars. rewrite length_drop_chars. lia.
Qed.

(** X5: without [format], a file name of five characters or more is read
    as JSON when it ends in [.json] and unpickled otherwise, also when it
    ends in [.npz]: the test for that extension compares the last five
    characters with a string of four.  A JSON read that raises, whatever
    the exception, is followed by unpickling the same file. *)
Theorem load_by_extension :
  ∀ filename : string,
    5 ≤ String.length filename →
    load load_json load_pickle filename None
    = if String.eqb (last_chars 5 filename) ".json"
      then match load_json filename with
           | Ok m => Ok m
           | Raise _ => load_pickle filename
           end
      else load_pickle filename.
Proof.
  intros filename Hlen. unfold load.
  assert (Hnpz : String.eqb (last_chars 5 filename) ".npz" = false).
  { apply String.eqb_neq. intros E.
    apply (f_equal String.length) in E.
    rewrite length_last_chars in E by exact Hlen. discriminate E. }
  rewrite Hnpz.
  rewrite !orb_false_r.
  destruct (String.eqb (last_chars 5 filename) ".json"); [|reflexivity].
  destruct (load_json filename); reflexivity.
Qed.

End LoadDispatch.

Section LoadExamples.

Import Load.

(** A file named [model.npz] is handed to the unpickler. *)
Lemma load_by_extension_witness :
  load (fun _ => Ok (Some 1)) (fun _ => Ok (Some 2)) "model.npz" None
  = if String.eqb (last_chars 5 "model.npz") ".json"
    then match (fun _ : string => Ok (Some 1)) "model.npz" with
         | Ok m => Ok m
         | Raise _ => (fun _ : string => Ok (Some 2)) "model.npz"
         end
    else (fun _ : string => Ok (Some 2)) "model.npz".
Proof.
  apply (load_by_extension (fun _ => Ok (Some 1)) (fun _ => Ok (Some 2))
           "model.npz").
  cbn. lia.
Defined.

(** The extension [.npz] selects [load_npz] for the one name [.npz]
    itself; [format='npz'] selects it for every name, and the call
    returns [None]. *)
Lemma load_npz_courses :
  load (fun _ => Ok (Some 1)) (fun _ => Ok (Some 2)) ".npz" None = Ok None
  ∧ load (fun _ => Ok (Some 1)) (fun _ => Ok (Some 2)) "model.npz" None
    = Ok (Some 2)
  ∧ load (fun _ => Ok (Some 1)) (fun _ => Ok (Some 2)) "model" (Some "npz")
    = Ok None
  ∧ load (fun _ => Raise (ValueError "not JSON")) (fun _ => Ok (Some 2))
         "model.json" None
    = Ok (Some 2).
Proof. repeat split; reflexivity. Qed.

End LoadExamples.

(** ** [hyperparameter.copy] and [class hyperparameters] *)

Section HyperparameterCopy.

Import Hyperparameter Hyperparameters.

Variable int_of_str : string → result Z.
Variable float_of_str : string → result Q.
Variable float_of_int : Z → result Q.
Variable str_of : pyval → string.
Variable array_of : pyval → result (list Q).

Abbreviation hcopy :=
  (hyperparameter_copy int_of_str float_of_str float_of_int str_of array_of).
Abbreviation setitem :=
  (__setitem__ int_of_str float_of_str float_of_int str_of array_of).
Abbreviation setattr :=
  (__setattr__ int_of_str float_of_str float_of_int str_of array_of).
Abbreviation update_items :=
  (Hyperparameters.update int_of_str float_of_str float_of_int str_of array_of).
Abbreviation from_dict :=
  (from_dict int_of_str float_of_str float_of_int str_of array_of).
Abbreviation copied :=
  (copied int_of_str float_of_str float_of_int str_of array_of).
Abbreviation copy_keys :=
  (copy int_of_str float_of_str float_of_int str_of array_of).

(** A cast that returns, returns an instance of the class it casts to. *)
Lemma call_instance (t : pytype) (v w : pyval) :
  call int_of_str float_of_str float_of_int str_of array_of
       (_set_dtype_cast_method (Some t)) v = Ok w →
  isinstance w t = true.
Proof.
  intros E.
  assert (type_of w = t) as <-; [|apply isinstance_type_of].
  destruct (decide (t = py_ndarray)) as [-> | Hnd].
  - cbn in E. destruct (array_of v); cbn in E; [|discriminate E].
    now injection E as <-.
  - assert (_set_dtype_cast_method (Some t) = Some (Constructor t)) as Hc
      by (destruct t; try reflexivity; now destruct Hnd).
    rewrite Hc in E. cbn in E.
    exact (construct_type _ _ _ _ _ _ _ E).
Qed.

Lemma coerce_settled (t : pytype) (v w : pyval) :
  coerce int_of_str float_of_str float_of_int str_of array_of
         (Some t) (_set_dtype_cast_method (Some t)) v = Ok w →
  isinstance w t = true ∧ (isinstance v t = true → w = v).
Proof.
  unfold coerce. destruct (isinstance v t) eqn:Hi.
  - intros E. injection E as <-. auto.
  - intros E. split; [exact (call_instance _ _ _ E) | discriminate].
Qed.

Lemma hcopy_exact_iff (self : hyperparameter) :
  hcopy self = Ok self ↔ settled self.
Proof.
  destruct self as [nm dt cast v space lo hi st ch].
  unfold hyperparameter_copy, __init__, settled, cast_follows_dtype. cbn.
  split.
  - destruct dt as [t|].
    + destruct (coerce _ _ _ _ _ (Some t) (_set_dtype_cast_method (Some t)) v)
        as [w|e] eqn:E; cbn; [|discriminate].
      intros [= Hcast Hw]. subst w.
      split; [now symmetry|]. exact (proj1 (coerce_settled _ _ _ E)).
    + destruct v; cbn; intros E; inversion E; auto.
  - intros [-> Hv]. destruct dt as [t|].
    + unfold coerce. rewrite Hv. reflexivity.
    + subst v. reflexivity.
Qed.

(** X6: [copy] returns a hyperparameter equal to the one copied exactly
    when that one is settled: its cast method is the one of its [dtype],
    and its value is an instance of its [dtype], or [None] when it has no
    [dtype].  A hyperparameter whose [dtype] was changed after its value
    was set, or whose value was set while it had no [dtype], is not copied
    as it stands. *)
Theorem copy_is_exact_iff_settled :
  ∀ self : hyperparameter, hcopy self = Ok self ↔ settled self.
Proof.
  intros self. split; intros H; now apply hcopy_exact_iff.
Qed.

(** X7: assigning a value that is no [hyperparameter] to a key the object
    does not hold never raises.  It creates a hyperparameter named after
    the key, in the linear space, whose [dtype] is the class of the value
    (none for [None]) and whose value is the value assigned, unchanged;
    the other items stay as they were, and the subscript [self[key]]
    returns the new item.  For a name that neither the object nor its
    class defines, reading the key as an attribute raised [KeyError]
    before and returns the value afterwards; a name they define, such as
    [data], [copy] or [keys], is read as that attribute before and after,
    so the item is reached by subscript only.  Assigning the key as an
    attribute does the same as assigning the item for a key that is no
    dunder name, not [data], and no key of [__dict__]. *)
Theorem new_item_round_trip :
  ∀ (self : hyperparameters) (own class_names : list string) (key : string)
    (v : pyval),
    self !! key = None →
    getattr class_names own key self
    = (if str_in key own || str_in key class_names
       then Ok (Attribute key) else Raise (KeyError key))
    ∧ ∃ h,
        setitem key (Plain v) self = Ok (<[key := h]> self)
        ∧ h = {| name := key;
                 dtype := match v with PNone => None | _ => Some (type_of v) end;
                 _cast_dtype :=
                   _set_dtype_cast_method
                     (match v with PNone => None | _ => Some (type_of v) end);
                 value := v; optimization_space := "linear";
                 minval := PNone; maxval := PNone; step := PNone;
                 choices := [] |}
        ∧ settled h
        ∧ __getitem__ key (<[key := h]> self) = Ok h
        ∧ getattr class_names own key (<[key := h]> self)
          = (if str_in key own || str_in key class_names
             then Ok (Attribute key) else Ok (ItemValue v))
        ∧ (∀ k, k ≠ key → <[key := h]> self !! k = self !! k)
        ∧ (String.prefix "__" key || str_in key own || String.eqb key "data"
           = false →
           setattr own key (Plain v) self = Ok (Item (<[key := h]> self))).
Proof.
  intros self own class_names key v Hnone.
  split.
  { unfold getattr, __getattr__. rewrite Hnone.
    destruct (str_in key own); reflexivity. }
  eexists. unfold __setitem__, __setattr__, getattr, __getattr__, __getitem__,
    __init__, settled, cast_follows_dtype.
  rewrite Hnone.
  assert (Hc : coerce int_of_str float_of_str float_of_int str_of array_of
                 (match v with PNone => None | _ => Some (type_of v) end)
                 (_set_dtype_cast_method
                    (match v with PNone => None | _ => Some (type_of v) end))
                 v = Ok v).
  { unfold coerce. destruct v; try reflexivity;
      now rewrite isinstance_type_of. }
  rewrite Hc. cbn [mbind result_bind].
  split; [reflexivity|]. split; [reflexivity|].
  split.
  { cbn. split; [reflexivity|].
    destruct v; try reflexivity; apply isinstance_type_of. }
  rewrite lookup_insert_eq.
  split; [reflexivity|].
  split; [destruct (str_in key own), (str_in key class_names); reflexivity|].
  split; [intros k Hk; now rewrite lookup_insert_ne|].
  intros ->. unfold __setitem__, __init__. rewrite Hnone, Hc. reflexivity.
Qed.

(** X8: assigning to a key the object holds already.  A value that is no
    [hyperparameter] becomes the value of the item that is there, coerced
    to its [dtype] (and kept as it is when it is an instance already);
    the name, the [dtype], the space, the bounds, the step and the choices
    of the item stay.  A [hyperparameter] replaces every attribute of the
    item that is there. *)
Theorem assignment_to_an_item :
  ∀ (self self' : hyperparameters) (key : string) (old : hyperparameter)
    (t : pytype) (v : pyval),
    self !! key = Some old →
    cast_follows_dtype old →
    dtype old = Some t →
    setitem key (Plain v) self = Ok self' →
    (∃ h,
       self' = <[key := h]> self
       ∧ isinstance (value h) t = true
       ∧ (isinstance v t = true → value h = v)
       ∧ (name h, dtype h, _cast_dtype h, optimization_space h,
          minval h, maxval h, step h, choices h)
         = (name old, dtype old, _cast_dtype old, optimization_space old,
            minval old, maxval old, step old, choices old)
       ∧ ∀ own, __getattr__ own key self' = Ok (ItemValue (value h)))
    ∧ ∀ new, setitem key (Hyper new) self = Ok (<[key := new]> self).
Proof.
  intros self self' key old t v Hold Hcast Ht Hset.
  split; [|intros new; unfold __setitem__; now rewrite Hold].
  unfold __setitem__, set_value in Hset. rewrite Hold, Ht, Hcast, Ht in Hset.
  destruct (coerce _ _ _ _ _ (Some t) (_set_dtype_cast_method (Some t)) v)
    as [w|e] eqn:E; cbn in Hset; [|discriminate Hset].
  injection Hset as <-.
  destruct (coerce_settled _ _ _ E) as [Hw Hsame].
  eexists. split; [reflexivity|]. cbn.
  split; [exact Hw|]. split; [exact Hsame|].
  split; [unfold cast_follows_dtype in Hcast; now rewrite Hcast, Ht|].
  intros own. unfold __getattr__. now rewrite lookup_insert_eq.
Qed.

(** Assigning [hyperparameter] objects item by item inserts them. *)
Lemma update_hyper (l : list (string * hyperparameter))
    (self : hyperparameters) :
  update_items (map (fun item => (fst item, Hyper (snd item))) l) self
  = Ok (foldl (fun acc item => <[fst item := snd item]> acc) self l).
Proof.
  unfold Hyperparameters.update. revert self.
  induction l as [|[k h] l IH]; intros self; cbn; [reflexivity|].
  destruct (self !! k); cbn; apply IH.
Qed.

Lemma foldl_insert_lookup (l : list (string * hyperparameter))
    (acc : hyperparameters) (k : string) :
  NoDup (map fst l) →
  foldl (fun acc item => <[fst item := snd item]> acc) acc l !! k
  = match (list_to_map l : hyperparameters) !! k with
    | Some h => Some h
    | None => acc !! k
    end.
Proof.
  revert acc. induction l as [|[k0 h0] l IH]; intros acc Hnd; cbn.
  - now rewrite lookup_empty.
  - apply NoDup_cons in Hnd as [Hk0 Hnd].
    rewrite IH by exact Hnd.
    destruct (decide (k = k0)) as [-> | Hne].
    + rewrite lookup_insert_eq.
      rewrite (not_elem_of_list_to_map_1 l k0) by exact Hk0.
      now rewrite lookup_insert_eq.
    + rewrite !lookup_insert_ne by congruence. reflexivity.
Qed.

Lemma from_dict_id (d : gmap string hyperparameter) : from_dict d = Ok d.
Proof.
  unfold Hyperparameters.from_dict. rewrite update_hyper. f_equal.
  apply map_eq. intros k.
  rewrite foldl_insert_lookup by apply NoDup_fst_map_to_list.
  rewrite list_to_map_to_list, lookup_empty.
  now destruct (d !! k).
Qed.

Lemma copy_loop (self : hyperparameters) (keys : list string)
    (acc : gmap string hyperparameter) :
  match for_each
          (fun key (d : gmap string hyperparameter) =>
             h ← __getitem__ key self; c ← hcopy h; Ok (<[key := c]> d))
          keys acc with
  | Ok d =>
      (∀ k, In k keys → is_Some (copied self k))
      ∧ ∀ k, d !! k = if str_in k keys then copied self k else acc !! k
  | Raise _ => ∃ k, In k keys ∧ copied self k = None
  end.
Proof.
  revert acc. induction keys as [|k0 keys IH]; intros acc.
  - cbn. split; [intros k Hk; destruct Hk | reflexivity].
  - cbn [for_each].
    change (__getitem__ k0 self)
      with (match self !! k0 with
            | Some h => Ok h
            | None => Raise (KeyError k0)
            end).
    destruct (self !! k0) as [h|] eqn:Hh; cbn [mbind result_bind].
    2:{ exists k0. split; [now left|]. unfold Hyperparameters.copied. now rewrite Hh. }
    destruct (hcopy h) as [c|e] eqn:Hc; cbn [mbind result_bind].
    2:{ exists k0. split; [now left|]. unfold Hyperparameters.copied. now rewrite Hh, Hc. }
    assert (Hk0 : copied self k0 = Some c)
      by (unfold Hyperparameters.copied; now rewrite Hh, Hc).
    specialize (IH (<[k0 := c]> acc)).
    destruct (for_each _ keys (<[k0 := c]> acc)) as [d|e].
    + destruct IH as [Hall Hd]. split.
      * intros k [<- | Hk]; [rewrite Hk0; eauto | exact (Hall k Hk)].
      * intros k. rewrite Hd. unfold str_in. cbn.
        destruct (String.eqb_spec k k0) as [-> | Hne]; cbn.
        -- destruct (existsb (String.eqb k0) keys); [reflexivity|].
           now rewrite lookup_insert_eq.
        -- destruct (existsb (String.eqb k) keys); [reflexivity|].
           rewrite lookup_insert_ne by congruence. reflexivity.
    + destruct IH as (k & Hk & Hnone). exists k. split; [now right | exact Hnone].
Qed.

(** X9: [copy(keys)] returns exactly when the object holds every key asked
    for and the copy of each of these items returns; what it returns holds
    the copies of these items under their keys, and nothing else. *)
Theorem copy_selects_the_keys :
  ∀ (self : hyperparameters) (keys : list string),
    (is_ok (copy_keys (Some keys) self) = true
     ↔ ∀ k, In k keys → ∃ h, self !! k = Some h ∧ is_ok (hcopy h) = true)
    ∧ ∀ c, copy_keys (Some keys) self = Ok c →
           ∀ k, c !! k = if str_in k keys then copied self k else None.
Proof.
  intros self keys. unfold Hyperparameters.copy.
  pose proof (copy_loop self keys ∅) as Hloop.
  destruct (for_each _ keys ∅) as [d|e]; cbn [mbind result_bind].
  - rewrite from_dict_id. destruct Hloop as [Hall Hd]. split.
    + split; [|reflexivity]. intros _ k Hk.
      destruct (Hall k Hk) as [c Hc]. unfold Hyperparameters.copied in Hc.
      destruct (self !! k) as [h|]; [|discriminate Hc].
      exists h. split; [reflexivity|]. now destruct (hcopy h).
    + intros c [= <-] k. rewrite Hd. now rewrite lookup_empty.
  - destruct Hloop as (k & Hk & Hnone). split; [|discriminate].
    split; [discriminate|]. intros Hall.
    destruct (Hall k Hk) as (h & Hh & Hok).
    unfold Hyperparameters.copied in Hnone. rewrite Hh in Hnone.
    destruct (hcopy h); [discriminate Hnone | discriminate Hok].
Qed.

(** X10: copying a selection of settled items and merging the copy back
    with [update] gives the object back as it was. *)
Theorem copy_update_round_trip :
  ∀ (self c : hyperparameters) (keys : list string),
    (∀ k h, In k keys → self !! k = Some h → settled h) →
    copy_keys (Some keys) self = Ok c →
    (∀ k h, c !! k = Some h → self !! k = Some h)
    ∧ update_items
        (map (fun item => (fst item, Hyper (snd item))) (map_to_list c)) self
      = Ok self.
Proof.
  intros self c keys Hsettled Hcopy.
  unfold Hyperparameters.copy in Hcopy.
  pose proof (copy_loop self keys ∅) as Hloop.
  destruct (for_each _ keys ∅) as [d|e]; cbn [mbind result_bind] in Hcopy;
    [|discriminate Hcopy].
  rewrite from_dict_id in Hcopy. injection Hcopy as <-.
  destruct Hloop as [_ Hd].
  assert (Hsub : ∀ k h, d !! k = Some h → self !! k = Some h).
  { intros k h Hk. rewrite Hd in Hk.
    destruct (str_in k keys) eqn:Hin; [|now rewrite lookup_empty in Hk].
    unfold Hyperparameters.copied in Hk. destruct (self !! k) as [h0|] eqn:Hh0; [|discriminate Hk].
    assert (Hk' : In k keys).
    { unfold str_in in Hin. apply existsb_exists in Hin as (y & Hy & E).
      apply String.eqb_eq in E. now subst. }
    rewrite (proj2 (hcopy_exact_iff h0) (Hsettled k h0 Hk' Hh0)) in Hk.
    exact Hk. }
  split; [exact Hsub|].
  rewrite update_hyper. f_equal.
  apply map_eq. intros k.
  rewrite foldl_insert_lookup by apply NoDup_fst_map_to_list.
  rewrite list_to_map_to_list.
  destruct (d !! k) as [h|] eqn:Hk; [|reflexivity].
  symmetry. exact (Hsub k h Hk).
Qed.

End HyperparameterCopy.
Section HyperparametersExamples.

Import Hyperparameter Hyperparameters.

(** A new key [max_epochs] on the training defaults, with [copy] and
    [keys] among the names of the class. *)
Lemma new_item_round_trip_witness :
  getattr ["copy"; "keys"] ["data"] "max_epochs" training_defaults
  = (if str_in "max_epochs" ["data"] || str_in "max_epochs" ["copy"; "keys"]
     then Ok (Attribute "max_epochs") else Raise (KeyError "max_epochs"))
  ∧ ∃ h,
      setitem_ex "max_epochs" (Plain (PInt 100)) training_defaults
      = Ok (<["max_epochs" := h]> training_defaults)
      ∧ h = {| name := "max_epochs"; dtype := Some py_int;
               _cast_dtype := Some (Constructor py_int);
               value := PInt 100; optimization_space := "linear";
               minval := PNone; maxval := PNone; step := PNone;
               choices := [] |}
      ∧ settled h
      ∧ __getitem__ "max_epochs" (<["max_epochs" := h]> training_defaults)
        = Ok h
      ∧ getattr ["copy"; "keys"] ["data"] "max_epochs"
          (<["max_epochs" := h]> training_defaults)
        = (if str_in "max_epochs" ["data"]
              || str_in "max_epochs" ["copy"; "keys"]
           then Ok (Attribute "max_epochs") else Ok (ItemValue (PInt 100)))
      ∧ (∀ k, k ≠ "max_epochs" →
              <["max_epochs" := h]> training_defaults !! k
              = training_defaults !! k)
      ∧ (String.prefix "__" "max_epochs" || str_in "max_epochs" ["data"]
         || String.eqb "max_epochs" "data" = false →
         __setattr__ parse_len (fun s => inject_Z <$> parse_len s)
           float_of_int_ex (fun _ => "") (fun _ => Ok []) ["data"]
           "max_epochs" (Plain (PInt 100)) training_defaults
         = Ok (Item (<["max_epochs" := h]> training_defaults))).
Proof.
  apply (new_item_round_trip parse_len (fun s => inject_Z <$> parse_len s)
           float_of_int_ex (fun _ => "") (fun _ => Ok [])
           training_defaults ["data"] ["copy"; "keys"] "max_epochs"
           (PInt 100)).
  vm_compute. reflexivity.
Defined.

(** An item under the key [copy]: the attribute [copy] is the method of
    the class before and after, and the subscript returns the item; under
    the key [max_epochs] the attribute is the value of the item. *)
Lemma item_under_a_class_name :
  let class_names := ["copy"; "keys"; "update"] in
  ∃ self' self'',
    setitem_ex "copy" (Plain (PInt 1)) training_defaults = Ok self'
    ∧ getattr class_names ["data"] "copy" training_defaults
      = Ok (Attribute "copy")
    ∧ getattr class_names ["data"] "copy" self' = Ok (Attribute "copy")
    ∧ value <$> __getitem__ "copy" self' = Ok (PInt 1)
    ∧ getattr class_names ["data"] "data" self' = Ok (Attribute "data")
    ∧ setitem_ex "max_epochs" (Plain (PInt 100)) training_defaults = Ok self''
    ∧ getattr class_names ["data"] "max_epochs" training_defaults
      = Raise (KeyError "max_epochs")
    ∧ getattr class_names ["data"] "max_epochs" self''
      = Ok (ItemValue (PInt 100)).
Proof. intros class_names. eexists. eexists. repeat split; reflexivity. Qed.

(** The float 33/2 assigned to [batch_size], whose [dtype] is [int]:
    the item keeps its bounds and holds the int 16. *)
Lemma assignment_to_an_item_witness :
  (∃ h,
     <["batch_size" :=
         {| name := ""; dtype := Some py_int;
            _cast_dtype := Some (Constructor py_int);
            value := PInt 16; optimization_space := "linear";
            minval := PInt 1; maxval := PInt 1024; step := PNone;
            choices := [] |}]> training_defaults
     = <["batch_size" := h]> training_defaults
     ∧ isinstance (value h) py_int = true
     ∧ (isinstance (PFloat (33 # 2)) py_int = true → value h = PFloat (33 # 2))
     ∧ (name h, dtype h, _cast_dtype h, optimization_space h,
        minval h, maxval h, step h, choices h)
       = (name batch_size, dtype batch_size, _cast_dtype batch_size,
          optimization_space batch_size, minval batch_size, maxval batch_size,
          step batch_size, choices batch_size)
     ∧ ∀ own,
         __getattr__ own "batch_size"
           (<["batch_size" :=
                {| name := ""; dtype := Some py_int;
                   _cast_dtype := Some (Constructor py_int);
                   value := PInt 16; optimization_space := "linear";
                   minval := PInt 1; maxval := PInt 1024; step := PNone;
                   choices := [] |}]> training_defaults)
         = Ok (ItemValue (value h)))
  ∧ ∀ new, setitem_ex "batch_size" (Hyper new) training_defaults
           = Ok (<["batch_size" := new]> training_defaults).
Proof.
  apply (assignment_to_an_item parse_len (fun s => inject_Z <$> parse_len s)
      float_of_int_ex
           (fun _ => "") (fun _ => Ok [])
           training_defaults _ "batch_size" batch_size py_int
           (PFloat (33 # 2))).
  - vm_compute. reflexivity.
  - reflexivity.
  - reflexivity.
  - vm_compute. reflexivity.
Defined.

(** Copying [batch_size] out of the training defaults and merging the
    copy back. *)
Lemma copy_update_round_trip_witness :
  (∀ k h, <["batch_size" := batch_size]> (∅ : hyperparameters) !! k = Some h →
          training_defaults !! k = Some h)
  ∧ update_ex
      (map (fun item => (fst item, Hyper (snd item)))
           (map_to_list (<["batch_size" := batch_size]> (∅ : hyperparameters))))
      training_defaults
    = Ok training_defaults.
Proof.
  apply (copy_update_round_trip parse_len (fun s => inject_Z <$> parse_len s)
      float_of_int_ex
           (fun _ => "") (fun _ => Ok [])
           training_defaults (<["batch_size" := batch_size]> (∅ : hyperparameters))
           ["batch_size"]).
  - intros k h [<- | []] H. vm_compute in H. injection H as <-.
    split; reflexivity.
  - vm_compute. reflexivity.
Defined.

(** A hyperparameter created with the value 1, then given the [dtype]
    [str]: the value is still the int, and [copy] casts it. *)
Lemma copy_recasts_a_stale_value :
  ∃ h,
    init_ex (PInt 1) None = Ok h
    ∧ value (set_dtype h (Some py_str)) = PInt 1
    ∧ (value <$> hyperparameter_copy_ex (set_dtype h (Some py_str)))
      = Ok (PStr "")
    ∧ hyperparameter_copy_ex h = Ok h.
Proof. eexists. repeat split; reflexivity. Qed.

(** [copy] with a key the object does not hold. *)
Lemma copy_of_a_missing_key :
  copy_ex (Some ["batch_size"; "sigma"]) training_defaults
  = Raise (KeyError "sigma")
  ∧ copy_ex None training_defaults = Ok training_defaults.
Proof. split; vm_compute; reflexivity. Qed.

End HyperparametersExamples.

(** ** [ml_model.predict] and the names the validation engine reads *)

Section PredictionNames.

Import Validation MLModel.

(** X11: the validation engine reads the predictions under the names
    [get_property_to_predict] and [get_xyz_derivative_property_to_predict]
    give, and [predict] writes them under the names [ml_model.predict]
    returns, for the same keywords.  The two agree for the scalar property
    exactly when: with [calculate_energy=True], the keywords name
    ['energy'] as [property_to_predict]; with [calculate_energy=False],
    they name some [property_to_predict] (or the signature defaults to
    ['estimated_energy']); without the flag, they name one or the signature
    defaults to ['estimated_y'].  Likewise for the derivatives, with
    ['energy_gradients'], ['estimated_energy_gradients'] and
    ['estimated_xyz_derivatives_y']. *)
Theorem engine_reads_what_predict_writes :
  ∀ (sig : signature) (kw : option prediction_kwargs)
    (db : molecular_database),
    ∃ p q h,
      predict_with sig kw db = Ok (db, p, q, h)
      ∧ (p = Some (get_property_to_predict kw)
         ↔ names_agree (kw ≫= pk_calculate_energy)
             (kw ≫= pk_property_to_predict)
             (default_property_to_predict sig)
             "estimated_energy" "estimated_y" "energy")
      ∧ (q = Some (get_xyz_derivative_property_to_predict kw)
         ↔ names_agree (kw ≫= pk_calculate_energy_gradients)
             (kw ≫= pk_xyz_derivative_property_to_predict)
             (default_xyz_derivative_property_to_predict sig)
             "estimated_energy_gradients" "estimated_xyz_derivatives_y"
             "energy_gradients").
Proof.
  intros [dp dq dh] kw db. unfold predict_with, predict. cbn.
  eexists. eexists. eexists. split; [reflexivity|].
  unfold get_property_to_predict, get_xyz_derivative_property_to_predict,
    names_agree, keyword.
  destruct kw as [[ptp xtp ce ceg]|]; cbn.
  - split.
    + destruct ce as [[]|], ptp as [v|]; cbn; split;
        try (intros [= <-]); try (intros [= ->]); try reflexivity;
        try (left; eauto; fail); try (now right);
        try (intros [[? [=]] | ->]; reflexivity);
        try (intros [[? [=]] | [=]]);
        try discriminate; try (intros [_ | ?]; reflexivity).
    + destruct ceg as [[]|], xtp as [v|]; cbn; split;
        try (intros [= <-]); try (intros [= ->]); try reflexivity;
        try (left; eauto; fail); try (now right);
        try (intros [[? [=]] | ->]; reflexivity);
        try (intros [[? [=]] | [=]]);
        try discriminate; try (intros [_ | ?]; reflexivity).
  - split; (split; [intros [= ->]; now right | intros [[? [=]] | ->]; reflexivity]).
Qed.

(** The classes of the sources.  With no keyword at all the base class
    and [ani] are read under the name they write, ['estimated_y'], and
    [krr] is not: it writes under [None].  With [calculate_energy=True]
    and no name, each writes ['energy'] and is read under
    ['estimated_energy']. *)
Lemma prediction_names_by_class :
  let flag := Some {| pk_property_to_predict := None;
                      pk_xyz_derivative_property_to_predict := None;
                      pk_calculate_energy := Some true;
                      pk_calculate_energy_gradients := None |} in
  predict_with ml_model_signature None []
  = Ok ([], Some (get_property_to_predict None),
        Some (get_xyz_derivative_property_to_predict None),
        Some "estimated_hessian_y")
  ∧ predict_with ani_signature None []
    = Ok ([], Some (get_property_to_predict None), None, None)
  ∧ predict_with krr_signature None [] = Ok ([], None, None, None)
  ∧ predict_with ani_signature flag [] = Ok ([], Some "energy", None, None)
  ∧ get_property_to_predict flag = "estimated_energy".
Proof. repeat split; reflexivity. Qed.

End PredictionNames.

(** ** The RE descriptor of [krr] and the equilibrium distances of [kreg] *)

Section REDescriptor.

Import KREG.

Context {F P : Type}.
Variable distance_tensor : P → P → F.
Variable div : F → F → F.

Abbreviation pair_body := (pair_body distance_tensor div).
Abbreviation RE_descriptor_tensor := (RE_descriptor_tensor distance_tensor div).

Lemma for_each_app {A S} (body : A → S → result S) (l1 l2 : list A) (s : S) :
  for_each body (l1 ++ l2) s = (s' ← for_each body l1 s; for_each body l2 s').
Proof.
  revert s. induction l1 as [|x l1 IH]; intros s; cbn; [reflexivity|].
  destruct (body x s); cbn; [apply IH | reflexivity].
Qed.

(** Two nested loops are one loop over the pairs. *)
Lemma for_each_pairs {S} (body : nat → nat → S → result S)
    (inner : nat → list nat) (outer : list nat) (s : S) :
  for_each (fun i s => for_each (body i) (inner i) s) outer s
  = for_each (fun ij s => body (fst ij) (snd ij) s)
             (flat_map (fun i => map (pair i) (inner i)) outer) s.
Proof.
  revert s. induction outer as [|i outer IH]; intros s; cbn; [reflexivity|].
  rewrite for_each_app.
  assert (E : ∀ l s, for_each (λ ij s0, body ij.1 ij.2 s0) (map (pair i) l) s
                     = for_each (body i) l s).
  { intros l. induction l as [|j l IHl]; intros s0; cbn; [reflexivity|].
    destruct (body i j s0); cbn; [apply IHl | reflexivity]. }
  rewrite E. destruct (for_each (body i) (inner i) s); cbn;
    [apply IH | reflexivity].
Qed.

Lemma atom_pairs_from (Natoms a k : nat) :
  a + k = Natoms →
  length (flat_map (fun i => map (pair i) (seq (i + 1) (Natoms - (i + 1))))
                   (seq a k)) * 2
  = k * (k - 1).
Proof.
  revert a. induction k as [|k IH]; intros a Hak; cbn; [reflexivity|].
  rewrite length_app, length_map, length_seq.
  specialize (IH (S a) ltac:(lia)).
  replace (Natoms - (a + 1)) with k by lia.
  rewrite Nat.sub_0_r.
  revert IH.
  generalize (length (flat_map
                        (λ i, map (pair i) (seq (i + 1) (Natoms - (i + 1))))
                        (seq (S a) k))).
  intros L IH. destruct k as [|k]; [cbn in IH; lia|].
  replace (S k - 1) with k in IH by lia. nia.
Qed.

Lemma length_atom_pairs (Natoms : nat) :
  length (atom_pairs Natoms) * 2 = Natoms * (Natoms - 1).
Proof. apply (atom_pairs_from Natoms 0 Natoms). reflexivity. Qed.

Lemma atom_pairs_bound (Natoms i j : nat) :
  In (i, j) (atom_pairs Natoms) → i < j ∧ j < Natoms.
Proof.
  unfold atom_pairs. rewrite in_flat_map. intros (i0 & Hi0 & Hin).
  apply in_map_iff in Hin as (j0 & [= <- <-] & Hj0).
  apply in_seq in Hi0, Hj0. lia.
Qed.

Abbreviation described := (described distance_tensor div).

Lemma pairs_loop (coord : list P) (Req : list F) (all : list (nat * nat)) :
  (∀ i j, In (i, j) all → i < length coord ∧ j < length coord) →
  ∀ (todo done : list (nat * nat)) (d : list F) (dsc : option (list F)),
    all = done ++ todo →
    described coord Req all (length done) d →
    (0 < length done → dsc = Some d) →
    (length all ≤ length Req →
     ∃ d', for_each (fun ij st => pair_body coord Req (fst ij) (snd ij) st)
                    todo (length done, dsc)
           = Ok (length all, match todo with [] => dsc | _ => Some d' end)
           ∧ described coord Req all (length all) d'
           ∧ (todo = [] → d' = d))
    ∧ (length done ≤ length Req → length Req < length all →
       ∃ msg, for_each (fun ij st => pair_body coord Req (fst ij) (snd ij) st)
                       todo (length done, dsc)
              = Raise (IndexError msg)).
Proof.
  intros Hvalid todo.
  induction todo as [|[i j] todo IH]; intros done d dsc Hall Hd Hdsc.
  - rewrite app_nil_r in Hall. subst done. split.
    + intros _. exists d. cbn. auto.
    + intros Hle Hlt. lia.
  - assert (Hij : all !! length done = Some (i, j)).
    { rewrite Hall. rewrite lookup_app_r by lia.
      now rewrite Nat.sub_diag. }
    destruct (Hvalid i j) as [Hi Hj].
    { rewrite Hall. apply in_or_app. right. now left. }
    destruct (lookup_lt_is_Some_2 coord i Hi) as [ci Hci].
    destruct (lookup_lt_is_Some_2 coord j Hj) as [cj Hcj].
    assert (Hstep :
      pair_body coord Req i j (length done, dsc)
      = match Req !! length done with
        | Some r =>
            Ok (length done + 1, Some (d ++ [div r (distance_tensor ci cj)]))
        | None => Raise (IndexError "index out of range")
        end).
    { unfold KREG.pair_body, KREG.index. rewrite Hci, Hcj.
      destruct (Req !! length done) as [r|]; cbn; [|reflexivity].
      destruct Hd as [Hlen _].
      destruct (Nat.eqb_spec (length done) 0) as [E0 | Hn0].
      - rewrite E0 in Hlen. now destruct d.
      - rewrite (Hdsc ltac:(lia)). reflexivity. }
    cbn [for_each fst snd]. rewrite Hstep.
    destruct (Req !! length done) as [r|] eqn:Hr.
    2:{ cbn. apply lookup_ge_None in Hr. split.
        - intros Hle. rewrite Hall, length_app in Hle. cbn in Hle. lia.
        - intros _ _. eexists. reflexivity. }
    cbn [mbind result_bind].
    set (output := div r (distance_tensor ci cj)).
    assert (Hd' : described coord Req all (length (done ++ [(i, j)]))
                            (d ++ [output])).
    { destruct Hd as [Hlen Hd]. rewrite length_app. cbn. split.
      - rewrite length_app. cbn. lia.
      - intros k i' j' r' ci' cj' Hk Hk1 Hk2 Hk3 Hk4.
        destruct (decide (k = length done)) as [-> | Hne].
        + rewrite Hij in Hk1. injection Hk1 as <- <-.
          rewrite Hr in Hk2. injection Hk2 as <-.
          rewrite Hci in Hk3. injection Hk3 as <-.
          rewrite Hcj in Hk4. injection Hk4 as <-.
          rewrite lookup_app_r by lia. rewrite Hlen, Nat.sub_diag. reflexivity.
        + rewrite lookup_app_l by lia.
          apply (Hd k i' j' r'); auto. lia. }
    specialize (IH (done ++ [(i, j)]) (d ++ [output]) (Some (d ++ [output]))).
    rewrite length_app in IH. cbn [length] in IH.
    rewrite <- app_assoc in IH. cbn [app] in IH.
    rewrite length_app in Hd'. cbn [length] in Hd'.
    specialize (IH Hall Hd' (fun _ => eq_refl)).
    destruct IH as [IHok IHraise]. split.
    + intros Hle. destruct (IHok Hle) as (d' & Hrun & Hd'' & Hsame).
      exists d'. rewrite Hrun. split; [|split; [exact Hd'' | discriminate]].
      destruct todo; [|reflexivity].
      now rewrite (Hsame eq_refl).
    + intros _ Hlt. apply lookup_lt_Some in Hr.
      apply IHraise; [lia | exact Hlt].
Qed.

Lemma RE_descriptor_tensor_run (coord : list P) (Req : list F) :
  let n := length coord in
  (n < 2 →
   RE_descriptor_tensor coord Req = Raise (UnboundLocalError "descriptor"))
  ∧ (2 ≤ n → length Req < length (atom_pairs n) →
     ∃ msg, RE_descriptor_tensor coord Req = Raise (IndexError msg))
  ∧ (2 ≤ n → length (atom_pairs n) ≤ length Req →
     ∃ d, RE_descriptor_tensor coord Req = Ok d
          ∧ length d = length (atom_pairs n)
          ∧ ∀ k i j r ci cj,
              atom_pairs n !! k = Some (i, j) → Req !! k = Some r →
              coord !! i = Some ci → coord !! j = Some cj →
              d !! k = Some (div r (distance_tensor ci cj))).
Proof.
  intros n.
  unfold KREG.RE_descriptor_tensor. fold n.
  rewrite (for_each_pairs (KREG.pair_body distance_tensor div coord Req)).
  fold (atom_pairs n).
  assert (Hvalid : ∀ i j, In (i, j) (atom_pairs n) → i < n ∧ j < n).
  { intros i j H. apply atom_pairs_bound in H. lia. }
  assert (H0 : described coord Req (atom_pairs n) (length (@nil (nat * nat))) []).
  { split; [reflexivity|]. cbn. intros; lia. }
  destruct (pairs_loop coord Req (atom_pairs n) Hvalid (atom_pairs n) [] []
              None eq_refl H0 ltac:(cbn; lia)) as [Hok Hraise].
  cbn [length] in Hok, Hraise.
  split; [|split].
  - intros Hn.
    assert (E : atom_pairs n = []).
    { pose proof (length_atom_pairs n) as Hlen.
      destruct (atom_pairs n); [reflexivity|]. cbn in Hlen. nia. }
    rewrite E. reflexivity.
  - intros Hn Hlt. destruct (Hraise ltac:(lia) Hlt) as (msg & ->).
    exists msg. reflexivity.
  - intros Hn Hle. destruct (Hok Hle) as (d & Hrun & [Hlen Hd] & _).
    rewrite Hrun. cbn [mbind result_bind snd].
    pose proof (length_atom_pairs n) as Hpairs.
    destruct (atom_pairs n) as [|p ps] eqn:E; [cbn in Hpairs; nia|].
    exists d. split; [reflexivity|]. split; [exact Hlen|].
    intros k i j r ci cj Hk. apply (Hd k i j r ci cj); [|exact Hk].
    now apply lookup_lt_Some in Hk.
Qed.

(** X12: [RE_descriptor_tensor] on a geometry of [n] atoms.  With fewer
    than two atoms it raises [UnboundLocalError]: no pass of the loops
    binds [descriptor].  With two or more and fewer than n(n-1)/2 entries
    in [Req] it raises [IndexError].  Otherwise it returns n(n-1)/2
    entries, the entry at position [k] being [Req[k]] divided by the
    distance between the atoms of the pair visited at position [k];
    entries of [Req] past n(n-1)/2 are not read. *)
Theorem RE_descriptor_tensor_courses :
  ∀ (coord : list P) (Req : list F),
    let n := length coord in
    length (atom_pairs n) * 2 = n * (n - 1)
    ∧ (n < 2 →
       RE_descriptor_tensor coord Req = Raise (UnboundLocalError "descriptor"))
    ∧ (2 ≤ n → length Req < length (atom_pairs n) →
       ∃ msg, RE_descriptor_tensor coord Req = Raise (IndexError msg))
    ∧ (2 ≤ n → length (atom_pairs n) ≤ length Req →
       ∃ d, RE_descriptor_tensor coord Req = Ok d
            ∧ length d = length (atom_pairs n)
            ∧ ∀ k i j r ci cj,
                atom_pairs n !! k = Some (i, j) → Req !! k = Some r →
                coord !! i = Some ci → coord !! j = Some cj →
                d !! k = Some (div r (distance_tensor ci cj))).
Proof.
  intros coord Req n.
  split; [apply length_atom_pairs | apply RE_descriptor_tensor_run].
Qed.

Lemma fold_left_app_flat_map {A B} (f : B → list A) (l : list B)
    (acc : list A) :
  fold_left (fun acc x => acc ++ f x) l acc = acc ++ flat_map f l.
Proof.
  revert acc. induction l as [|x l IH]; intros acc; cbn.
  - now rewrite app_nil_r.
  - rewrite IH. now rewrite app_assoc.
Qed.

Lemma Forall2_flat_map {A B C} (R : A → B → Prop) (f : C → list A)
    (g : C → list B) (l : list C) :
  (∀ x, In x l → Forall2 R (f x) (g x)) →
  Forall2 R (flat_map f l) (flat_map g l).
Proof.
  induction l as [|x l IH]; intros H; cbn; [constructor|].
  apply Forall2_app.
  - apply H. now left.
  - apply IH. intros y Hy. apply H. now right.
Qed.

(** The equilibrium distances run through the matrix as the loops of the
    descriptor run through the pairs of atoms. *)
Lemma equilibrium_distances_by_pair (M : list (list F)) (n : nat) :
  length M = n →
  Forall (fun row => length row = n) M →
  Forall2 (fun e ij => entry M (fst ij) (snd ij) = Some e)
          (get_equilibrium_distances M) (atom_pairs n).
Proof.
  intros Hn Hrows. unfold get_equilibrium_distances, atom_pairs.
  rewrite fold_left_app_flat_map, Hn. cbn [app].
  apply Forall2_flat_map. intros i Hi. apply in_seq in Hi.
  destruct (lookup_lt_is_Some_2 M i ltac:(lia)) as [row Hrow].
  assert (Hlen : length row = n).
  { rewrite Forall_forall in Hrows. apply Hrows.
    now apply list_elem_of_lookup_2 with i. }
  rewrite (nth_lookup_Some _ _ _ _ Hrow).
  apply Forall2_same_length_lookup_2.
  - rewrite length_drop, length_map, length_seq. lia.
  - intros t e ij He Hij.
    rewrite lookup_drop in He.
    rewrite list_lookup_fmap in Hij.
    destruct (seq (i + 1) (n - (i + 1)) !! t) as [j|] eqn:Hj;
      [|discriminate Hij].
    injection Hij as <-. apply lookup_seq in Hj as [-> _].
    unfold entry. cbn. rewrite Hrow. cbn. exact He.
Qed.

(** X13: with the equilibrium distances of a molecule of [n] atoms as
    [Req], the descriptor of a geometry of the same [n] atoms, two or
    more, is computed without an exception, has n(n-1)/2 entries, and
    holds for every pair of atoms the entry [eq_distmat[i][j]] of the
    equilibrium matrix divided by the distance between the same two atoms
    [i] and [j] of the geometry: the two functions walk the pairs in the
    same order. *)
Theorem equilibrium_distances_fit_the_descriptor :
  ∀ (coord : list P) (eq_distmat : list (list F)),
    2 ≤ length coord →
    length eq_distmat = length coord →
    Forall (fun row => length row = length coord) eq_distmat →
    ∃ d,
      RE_descriptor_tensor coord (get_equilibrium_distances eq_distmat) = Ok d
      ∧ length d * 2 = length coord * (length coord - 1)
      ∧ ∀ k i j e ci cj,
          atom_pairs (length coord) !! k = Some (i, j) →
          entry eq_distmat i j = Some e →
          coord !! i = Some ci → coord !! j = Some cj →
          d !! k = Some (div e (distance_tensor ci cj)).
Proof.
  intros coord M Hn HM Hrows.
  pose proof (equilibrium_distances_by_pair M (length coord) HM Hrows) as Hreq.
  destruct (RE_descriptor_tensor_run coord (get_equilibrium_distances M))
    as (_ & _ & Hok).
  destruct (Hok Hn) as (d & Hrun & Hlen & Hd).
  { apply Forall2_length in Hreq. lia. }
  exists d. split; [exact Hrun|].
  split; [rewrite Hlen; apply length_atom_pairs|].
  intros k i j e ci cj Hk He Hci Hcj.
  destruct (Forall2_lookup_r _ _ _ _ _ Hreq Hk) as (r & Hr & Hentry).
  cbn in Hentry. rewrite He in Hentry. injection Hentry as <-.
  exact (Hd k i j e ci cj Hk Hr Hci Hcj).
Qed.

End REDescriptor.

Section REDescriptorExamples.

Import KREG.

(** Three atoms on a line with their own distance matrix as the
    equilibrium one. *)
Lemma equilibrium_distances_fit_the_descriptor_witness :
  ∃ d,
    RE_descriptor_tensor line_distance Qdiv on_a_line
      (get_equilibrium_distances line_distmat) = Ok d
    ∧ length d * 2 = length on_a_line * (length on_a_line - 1)
    ∧ ∀ k i j e ci cj,
        atom_pairs (length on_a_line) !! k = Some (i, j) →
        entry line_distmat i j = Some e →
        on_a_line !! i = Some ci → on_a_line !! j = Some cj →
        d !! k = Some (Qdiv e (line_distance ci cj)).
Proof.
  apply (equilibrium_distances_fit_the_descriptor line_distance Qdiv
           on_a_line line_distmat).
  - cbn. lia.
  - reflexivity.
  - repeat constructor.
Defined.

(** The same geometry: the descriptor, entry by entry; a single atom;
    a [Req] that is too short; the pairs of four atoms. *)
Lemma RE_descriptor_examples :
  RE_descriptor_tensor line_distance Qdiv on_a_line
    (get_equilibrium_distances line_distmat)
  = Ok [1 / (1 - 0); 3 / (3 - 0); 2 / (3 - 1)]%Q
  ∧ RE_descriptor_tensor line_distance Qdiv [0%Q] [1%Q]
    = Raise (UnboundLocalError "descriptor")
  ∧ RE_descriptor_tensor line_distance Qdiv on_a_line [1%Q]
    = Raise (IndexError "index out of range")
  ∧ atom_pairs 4 = [(0, 1); (0, 2); (0, 3); (1, 2); (1, 3); (2, 3)].
Proof. repeat split; reflexivity. Qed.

End REDescriptorExamples.

(** ** The ANI front end: single atoms, and databases *)

Section AniSingleAtom.

Import ANI.

Variable ensemble_predict : bool → bool → bool → molecule → result molecule.

Lemma method_model_setup (m : string) : method (model_setup m) = m.
Proof.
  unfold model_setup.
  repeat match goal with |- context [if ?b then _ else _] => destruct b end;
    reflexivity.
Qed.

Lemma guard_supported (available : list Z) (a : atom) :
  In (atomic_number a) available → guard available [a] = false.
Proof.
  intros H. cbn. apply z_in_In in H. now rewrite H.
Qed.

(** X14: on a molecule of one atom of a supported element,
    [predict_for_molecule] never calls the networks and reads no flag.
    Under the method name ['ANI-1ccx'], spelt so, it stores the tabulated
    energy of the atom as the energy of the molecule; under every other
    method name it raises [KeyError] with that name, the table
    [atomic_energies] having the one key. *)
Theorem ani_single_atom :
  ∀ (m : string) (available : list Z) (mol : molecule) (a : atom)
    (ce ceg ch : bool),
    atoms mol = [a] →
    atomic_number_available (model_setup m) = Some available →
    In (atomic_number a) available →
    (m = "ANI-1ccx"
     ∧ ∃ e, dict_get Z.eqb (atomic_number a)
              [(1%Z, (-0.50088088)%Q); (6%Z, (-37.79199048)%Q);
               (7%Z, (-54.53379230)%Q); (8%Z, (-75.00968205)%Q)] = Some e
            ∧ predict_for_molecule ensemble_predict (model_setup m) mol
                ce ceg ch
              = Ok {| out_molecule :=
                        {| atoms := [a];
                           mol_dict :=
                             <["energy" := Num (Scalar e)]> (mol_dict mol) |};
                      out_stdout := [] |})
    ∨ (m ≠ "ANI-1ccx"
       ∧ predict_for_molecule ensemble_predict (model_setup m) mol ce ceg ch
         = Raise (KeyError m)).
Proof.
  intros m available mol a ce ceg ch Hat Hav Hin.
  unfold predict_for_molecule, check_atoms. rewrite Hat, Hav.
  rewrite (guard_supported _ _ Hin). cbn [mbind result_bind].
  rewrite method_model_setup.
  destruct (String.eqb_spec m "ANI-1ccx") as [-> | Hne].
  - left. split; [reflexivity|].
    cbn in Hav. injection Hav as <-.
    destruct Hin as [H | [H | [H | [H | []]]]]; rewrite <- H;
      eexists; split; reflexivity.
  - right. split; [exact Hne|].
    unfold atomic_energies, dict_get. cbn.
    apply String.eqb_neq in Hne. now rewrite Hne.
Qed.

End AniSingleAtom.

Section AniSingleAtomExamples.

Import ANI.

(** A hydrogen atom under ANI-2x. *)
Lemma ani_single_atom_witness :
  let mol := {| atoms := [Samples.h_atom 0]; mol_dict := ∅ |} in
  ("ANI-2x" = "ANI-1ccx"
   ∧ ∃ e, dict_get Z.eqb (atomic_number (Samples.h_atom 0))
            [(1%Z, (-0.50088088)%Q); (6%Z, (-37.79199048)%Q);
             (7%Z, (-54.53379230)%Q); (8%Z, (-75.00968205)%Q)] = Some e
          ∧ predict_for_molecule (fun _ _ _ m => Ok m) (model_setup "ANI-2x")
              mol true true false
            = Ok {| out_molecule :=
                      {| atoms := [Samples.h_atom 0];
                         mol_dict :=
                           <["energy" := Num (Scalar e)]> (mol_dict mol) |};
                    out_stdout := [] |})
  ∨ ("ANI-2x" ≠ "ANI-1ccx"
     ∧ predict_for_molecule (fun _ _ _ m => Ok m) (model_setup "ANI-2x")
         mol true true false
       = Raise (KeyError "ANI-2x")).
Proof.
  intros mol.
  apply (ani_single_atom (fun _ _ _ m => Ok m) "ANI-2x"
           [1; 6; 7; 8; 9; 16; 17]%Z mol (Samples.h_atom 0) true true false).
  - reflexivity.
  - reflexivity.
  - left. reflexivity.
Defined.

(** The atom under the three method families, and under a lower-case
    spelling the set-up accepts. *)
Lemma ani_single_atom_courses :
  let mol := {| atoms := [Samples.h_atom 0]; mol_dict := ∅ |} in
  let run m := predict_for_molecule (fun _ _ _ m => Ok m) (model_setup m)
                 mol true true false in
  run "ANI-1ccx"
  = Ok {| out_molecule :=
            {| atoms := [Samples.h_atom 0];
               mol_dict := {[ "energy" := Num (Scalar (-0.50088088)) ]} |};
          out_stdout := [] |}
  ∧ run "ANI-1x" = Raise (KeyError "ANI-1x")
  ∧ run "ani-1ccx" = Raise (KeyError "ani-1ccx")
  ∧ run "ANI-1x-D4" = Raise (KeyError "ANI-1x-D4").
Proof. repeat split; reflexivity. Qed.

End AniSingleAtomExamples.

Section AniDatabase.

Import ANI ANIDatabase.

Variable ensemble_predict : bool → bool → bool → molecule → result molecule.

Lemma skipped_molecule (self : ani_methods) (available : list Z)
    (mol : molecule) (ce ceg ch : bool) :
  atomic_number_available self = Some available →
  skipped available mol = true →
  predict_for_molecule ensemble_predict self mol ce ceg ch
  = Ok {| out_molecule := mol; out_stdout := [warning self] |}.
Proof.
  unfold skipped, predict_for_molecule, check_atoms. intros Hav Hg.
  destruct (atoms mol) as [|a ats]; [discriminate Hg|].
  rewrite Hav, Hg. reflexivity.
Qed.

Lemma passed_molecule (self : ani_methods) (available : list Z)
    (mol : molecule) (ce ceg ch : bool) (o : outcome) :
  atomic_number_available self = Some available →
  skipped available mol = false →
  predict_for_molecule ensemble_predict self mol ce ceg ch = Ok o →
  out_stdout o = [].
Proof.
  unfold skipped, predict_for_molecule, check_atoms. intros Hav Hg.
  destruct (atoms mol) as [|a ats].
  - cbn. destruct (ensemble_predict ce ceg ch mol); cbn; [|discriminate].
    now intros [= <-].
  - rewrite Hav, Hg. cbn [mbind result_bind].
    destruct ats as [|b ats].
    + destruct (dict_get String.eqb (method self) atomic_energies);
        [|discriminate].
      destruct (dict_get Z.eqb (atomic_number a) l); [|discriminate].
      now intros [= <-].
    + cbn. destruct (ensemble_predict ce ceg ch mol); cbn; [|discriminate].
      now intros [= <-].
Qed.

(** X15: [predict] on a database goes on after a molecule it skips.  When
    it returns, the database has as many molecules as before, every
    molecule holding an unsupported element is as it was, and the lines
    printed are one warning for each such molecule and nothing else. *)
Theorem ani_predict_database :
  ∀ (self : ani_methods) (available : list Z)
    (db db' : list molecule) (mol0 : option molecule)
    (out : list string) (ce ceg ch : bool),
    atomic_number_available self = Some available →
    predict ensemble_predict self (Some db) mol0 ce ceg ch = Ok (db', out) →
    length db' = length db
    ∧ (∀ i mol, db !! i = Some mol → skipped available mol = true →
                db' !! i = Some mol)
    ∧ out = repeat (warning self)
                   (length (List.filter (skipped available) db)).
Proof.
  intros self available db db' mol0 out ce ceg ch Hav.
  unfold predict. cbn [Model.predict mbind result_bind].
  revert db' out. induction db as [|mol db IH]; intros db' out E.
  - cbn in E. injection E as <- <-. repeat split. intros i mol H. discriminate H.
  - cbn [predict_loop] in E.
    destruct (predict_for_molecule ensemble_predict self mol ce ceg ch)
      as [o|e] eqn:Eo; cbn [mbind result_bind] in E; [|discriminate E].
    destruct (predict_loop ensemble_predict self db ce ceg ch)
      as [[rest lines]|e] eqn:Er; cbn [mbind result_bind] in E;
      [|discriminate E].
    injection E as <- <-. cbn [fst snd].
    destruct (IH rest lines eq_refl) as (Hlen & Hsame & Hout).
    destruct (skipped available mol) eqn:Hs.
    + rewrite (skipped_molecule self available mol ce ceg ch Hav Hs) in Eo.
      injection Eo as <-. cbn [out_molecule out_stdout].
      split; [cbn; now rewrite Hlen|]. split.
      * intros [|i] mol' Hi Hs'; cbn in Hi |- *; [exact Hi|].
        now apply Hsame.
      * cbn [List.filter]. rewrite Hs. cbn. now rewrite Hout.
    + rewrite (passed_molecule self available mol ce ceg ch o Hav Hs Eo).
      split; [cbn; now rewrite Hlen|]. split.
      * intros [|i] mol' Hi Hs'; cbn in Hi |- *.
        -- injection Hi as <-. congruence.
        -- now apply Hsame.
      * cbn [List.filter]. rewrite Hs. cbn. exact Hout.
Qed.

End AniDatabase.

Section AniDatabaseExamples.

Import ANI ANIDatabase.

(** Hydrogen, helium, hydrogen, helium under ANI-1ccx with networks that
    leave a molecule as it is: the two helium atoms are skipped, with a
    warning each, and the hydrogen atoms receive their tabulated energy. *)
Lemma ani_predict_database_witness :
  let self := model_setup "ANI-1ccx" in
  let h := {| atoms := [Samples.h_atom 0]; mol_dict := ∅ |} in
  let h' := {| atoms := [Samples.h_atom 0];
               mol_dict := {[ "energy" := Num (Scalar (-0.50088088)) ]} |} in
  let db := [h; Samples.he; h; Samples.he] in
  let db' := [h'; Samples.he; h'; Samples.he] in
  length db' = length db
  ∧ (∀ i mol, db !! i = Some mol → skipped [1; 6; 7; 8]%Z mol = true →
              db' !! i = Some mol)
  ∧ [warning self; warning self]
    = repeat (warning self)
             (length (List.filter (skipped [1; 6; 7; 8]%Z) db)).
Proof.
  intros self h h' db db'.
  apply (ani_predict_database (fun _ _ _ m => Ok m) self [1; 6; 7; 8]%Z
           db db' None [warning self; warning self] true false false).
  - reflexivity.
  - reflexivity.
Defined.

End AniDatabaseExamples.

(** ** [model_tree_node]: threads, and leaves that cannot predict *)

Section TreeThreads.

Import ModelTree Threads.

Lemma model_tree_node_ind' (P : model_tree_node → Prop) :
  (∀ nm op md, P (Build_node nm None op md)) →
  (∀ nm cs op md, Forall P cs → P (Build_node nm (Some cs) op md)) →
  ∀ t, P t.
Proof.
  intros Hleaf Hnode. fix IH 1. intros [nm [cs|] op md].
  - apply Hnode. induction cs as [|c cs IHcs]; constructor.
    + apply IH.
    + exact IHcs.
  - apply Hleaf.
Qed.

Lemma set_num_threads_node (n : Z) (nm : string) (cs : list model_tree_node)
    (op : option string) (md : option leaf_model) :
  n ≠ 0%Z →
  set_num_threads n (Build_node nm (Some cs) op md)
  = (nm :: fst (children_threads n cs), snd (children_threads n cs)).
Proof.
  intros Hn. cbn [set_num_threads].
  apply Z.eqb_neq in Hn. rewrite Hn.
  match goal with
  | |- (let '(log, e) := ?L cs in _) = _ =>
      assert (E : ∀ l, L l = children_threads n l)
  end.
  { induction l as [|c l IHl]; cbn; [reflexivity|].
    destruct (set_num_threads n c) as [log [e|]]; [reflexivity|].
    now rewrite IHl. }
  rewrite E. now destruct (children_threads n cs).
Qed.

(** X16: [set_num_threads(n)] on a tree.  With [n = 0] it assigns the
    root and returns.  With any other [n] it returns exactly when every
    node of the tree holds a list of children, and has then assigned
    every node, parents first; a node whose [children] is [None], as a
    leaf is built, makes it raise [TypeError] after the assignment to
    that node.  The wrapped models are never called. *)
Theorem set_num_threads_on_a_tree :
  ∀ (n : Z) (t : model_tree_node),
    (n = 0%Z → set_num_threads n t = ([name t], None))
    ∧ (n ≠ 0%Z → children_are_lists t = true →
       set_num_threads n t = (node_names t, None))
    ∧ (n ≠ 0%Z → children_are_lists t = false →
       snd (set_num_threads n t)
       = Some (TypeError "'NoneType' object is not iterable")).
Proof.
  intros n t. split.
  { intros ->. now destruct t. }
  destruct (Z.eq_dec n 0%Z) as [-> | Hn].
  { split; intros H; now destruct H. }
  assert (H : (children_are_lists t = true →
               set_num_threads n t = (node_names t, None))
              ∧ (children_are_lists t = false →
                 snd (set_num_threads n t)
                 = Some (TypeError "'NoneType' object is not iterable"))).
  2:{ destruct H. split; auto. }
  induction t as [nm op md | nm cs op md IHcs] using model_tree_node_ind'.
  - split; [discriminate|]. intros _. cbn.
    apply Z.eqb_neq in Hn. now rewrite Hn.
  - rewrite set_num_threads_node by exact Hn.
    cbn [children_are_lists node_names].
    induction cs as [|c cs IH]; cbn [forallb flat_map children_threads].
    + split; [reflexivity | discriminate].
    + apply Forall_cons in IHcs as [[Hc1 Hc2] Hcs].
      specialize (IH Hcs). destruct IH as [IH1 IH2].
      destruct (children_are_lists c) eqn:Ec; cbn [andb].
      * rewrite (Hc1 eq_refl). split.
        -- intros Hall. specialize (IH1 Hall).
           destruct (children_threads n cs) as [log' e'].
           cbn in IH1 |- *. now injection IH1 as -> ->.
        -- intros Hall. specialize (IH2 Hall).
           destruct (children_threads n cs) as [log' e']. exact IH2.
      * split; [discriminate|]. intros _.
        specialize (Hc2 eq_refl).
        destruct (set_num_threads n c) as [log e]. cbn in Hc2. subst e.
        reflexivity.
Qed.

(** Under the three leaves as they are built, with [children=None], the
    call with four threads assigns the root and the first leaf and raises;
    with zero it assigns the root alone; with leaves that hold an empty
    list it assigns all four nodes. *)
Lemma set_num_threads_courses :
  set_num_threads 4 (three_leaves "sum")
  = (["root"; "a"], Some (TypeError "'NoneType' object is not iterable"))
  ∧ set_num_threads 0 (three_leaves "sum") = (["root"], None)
  ∧ set_num_threads 4
      (Build_node "root"
         (Some [listed_leaf "a"; listed_leaf "b"; listed_leaf "c"])
         (Some "sum") None)
    = (["root"; "a"; "b"; "c"], None).
Proof. repeat split; reflexivity. Qed.

End TreeThreads.

Section TreeLeaves.

Import ModelTree.

Lemma ensure_root_leaf (nm : string) (mol : molecule) :
  is_ok (ensure_container nm None None mol) = true.
Proof.
  unfold ensure_container. destruct (mol_dict mol !! nm); reflexivity.
Qed.

Lemma map_result_is_ok {A B} (f : A → result B) (l : list A) :
  (∀ x, is_ok (f x) = true) → is_ok (map_result f l) = true.
Proof.
  intros H. induction l as [|x l IH]; cbn; [reflexivity|].
  specialize (H x). destruct (f x); [|discriminate H].
  cbn. now destruct (map_result f l).
Qed.

(** X17: a root node without children predicts only as a leaf.  With an
    operator other than ['predict'], also ['sum'] or ['average'], it
    raises [TypeError]: the loop over its children finds [None].  With
    the operator ['predict'] and no model it raises [AttributeError].
    This is so on every database, the empty one included. *)
Theorem childless_root_cannot_combine :
  ∀ (nm : string) (operator : option string) (md : option leaf_model)
    (f : flags) (db : list molecule),
    (operator ≠ Some "predict" →
     predict (Build_node nm None operator md) None f db
     = Raise (TypeError "'NoneType' object is not iterable"))
    ∧ (operator = Some "predict" → md = None →
       predict (Build_node nm None operator md) None f db
       = Raise (AttributeError "predict")).
Proof.
  intros nm operator md f db.
  pose proof (map_result_is_ok (ensure_container nm None None) db
                (ensure_root_leaf nm)) as Hok.
  cbn [predict fmap option_fmap option_map].
  destruct (map_result (ensure_container nm None None) db) as [db1|e];
    [|discriminate Hok].
  cbn [mbind result_bind]. split.
  - intros Hop. rewrite bool_decide_eq_false_2 by exact Hop. reflexivity.
  - intros -> ->. reflexivity.
Qed.

End TreeLeaves.

(** ** [optimize_grid] on a grid without points *)

Section GridDegenerate.

Import Grid.

Context {V : Type}.
Variable func : list V → Q.

(** The exceptions of a grid without points. *)
Lemma optimize_grid_rec_degenerate (fuel : nat) (grid : list (list V)) :
  open_axes (removelast grid) < fuel →
  grid = [] ∨ Exists (fun ax => ax = []) grid →
  optimize_grid_rec func fuel grid
  = Raise (IndexError "list index out of range")
  ∨ optimize_grid_rec func fuel grid
    = Raise (UnboundLocalError "opt_params").
Proof.
  revert grid. induction fuel as [|fuel IH]; intros grid Hfuel Hdeg; [lia|].
  cbn [optimize_grid_rec].
  destruct (decide (grid = [])) as [-> | Hne]; [left; reflexivity|].
  destruct Hdeg as [? | Hex]; [contradiction|].
  destruct (last grid) eqn:Hlast.
  - left. destruct (last_shape grid Hne Hlast) as (others & axis & ->).
    assert (axis = []) as ->.
    { apply Exists_app in Hex as [Hex | Hex].
      - apply Exists_exists in Hex as (ax & Hin & ->).
        apply list_elem_of_In, in_map_iff in Hin as (x & Hx & _).
        discriminate Hx.
      - inversion Hex as [? ? H | ? ? H]; [exact H | inversion H]. }
    unfold scan_last_axis.
    rewrite removelast_last, comprehension_first_singles. cbn.
    rewrite last_last.
    now destruct (map sing others ++ [[]]) eqn:E;
      [destruct (map sing others)|].
  - destruct (first_open_axis 0 (removelast grid)) as [kk|] eqn:Hkk.
    2:{ apply first_open_axis_none in Hkk. unfold last in Hlast. congruence. }
    destruct (first_open_axis_shape _ _ _ Hkk) as (xs & ax & rest & E & -> & Hax).
    cbn [Nat.add].
    assert (Hgrid : grid = map sing xs ++ ax :: (rest ++ [List.last grid []])).
    { rewrite (app_removelast_last [] Hne) at 1. rewrite E.
      rewrite <- app_assoc. reflexivity. }
    set (right := rest ++ [List.last grid []]) in *.
    assert (Hright : right ≠ []) by (subst right; now destruct rest).
    clearbody right.
    assert (Hlen : length (map sing xs) = length xs) by apply length_map.
    rewrite Hgrid.
    rewrite take_app_length' by (symmetry; exact Hlen).
    rewrite comprehension_left_singles. cbn [mbind result_bind].
    replace (nth (length xs) (map sing xs ++ ax :: right) []) with ax
      by (rewrite <- Hlen; now rewrite nth_middle).
    replace (drop (S (length xs)) (map sing xs ++ ax :: right)) with right
      by (rewrite <- Hlen;
          change (ax :: right) with ([ax] ++ right);
          rewrite app_assoc, drop_app_length';
          [reflexivity | rewrite length_app; cbn; lia]).
    destruct ax as [|p0 params]; [right; reflexivity|].
    assert (Hexr : Exists (fun a => a = []) right).
    { rewrite Hgrid in Hex. apply Exists_app in Hex as [Hex | Hex].
      - apply Exists_exists in Hex as (a & Hin & ->).
        apply list_elem_of_In, in_map_iff in Hin as (x & Hx & _).
        discriminate Hx.
      - inversion Hex as [? ? H | ? ? H]; [discriminate H | exact H]. }
    cbn [for_each].
    destruct (IH (map sing xs ++ [[p0]] ++ right)) as [Er | Er].
    + cbn [app].
      rewrite removelast_app_ne by discriminate.
      rewrite open_axes_singles.
      rewrite Hgrid in Hfuel.
      rewrite removelast_app_ne in Hfuel by discriminate.
      rewrite open_axes_singles in Hfuel.
      destruct right as [|r0 right0]; [congruence|].
      cbn [removelast] in Hfuel |- *.
      unfold open_axes in Hfuel |- *. cbn [List.filter] in Hfuel |- *.
      destruct (Nat.eqb_spec (length (p0 :: params)) 1); [contradiction|].
      cbn in Hfuel |- *. lia.
    + right. apply Exists_app. right. cbn. now right.
    + left. rewrite Er. reflexivity.
    + right. rewrite Er. reflexivity.
Qed.

(** X18: [optimize_grid] on a grid with no axis, or with an axis that
    has no value, raises [IndexError] or [UnboundLocalError] and never
    returns; the loss may or may not have been called on the way. *)
Theorem optimize_grid_without_points :
  ∀ grid : list (list V),
    grid = [] ∨ Exists (fun ax => ax = []) grid →
    optimize_grid func grid = Raise (IndexError "list index out of range")
    ∨ optimize_grid func grid = Raise (UnboundLocalError "opt_params").
Proof.
  intros grid Hdeg. unfold optimize_grid.
  apply optimize_grid_rec_degenerate; [|exact Hdeg].
  pose proof (open_axes_le (removelast grid)).
  pose proof (removelast_length_le grid). lia.
Qed.

End GridDegenerate.

Section GridDegenerateExamples.

Import Grid.

(** Three values on the first axis and none on the second. *)
Lemma optimize_grid_without_points_witness :
  optimize_grid ridge_loss [[0; 1; 2]; []]%Z
  = Raise (IndexError "list index out of range")
  ∨ optimize_grid ridge_loss [[0; 1; 2]; []]%Z
    = Raise (UnboundLocalError "opt_params").
Proof.
  apply (optimize_grid_without_points ridge_loss [[0; 1; 2]; []]%Z).
  right. apply Exists_cons_tl. apply Exists_cons_hd. reflexivity.
Defined.

End GridDegenerateExamples.

(** ** [dump] and [load_dict]: the round trip of a tree *)

Section PersistenceRoundTrip.

Import Persistence.

Context {M : Type}.
Variable leaf_dump : M → result pyobj.
Variable methods_new : dict → result M.
Variable ml_model_class : string → option (dict → result M).

Abbreviation dump := (dump leaf_dump).
Abbreviation load_dict_rec := (load_dict_rec methods_new ml_model_class).
Abbreviation load_children := (load_children methods_new ml_model_class).
Abbreviation load_dict := (load_dict methods_new ml_model_class).
Abbreviation leaf_round_trip :=
  (leaf_round_trip leaf_dump methods_new ml_model_class).
Abbreviation comes_back := (comes_back leaf_dump methods_new ml_model_class).

Lemma object_ind' (P : object M → Prop) :
  P Nothing →
  (∀ m, P (Leaf m)) →
  (∀ name operator children model,
     match children with
     | Some l => Forall P l
     | None => True
     end →
     P model → P (TreeNode name operator children model)) →
  ∀ t, P t.
Proof.
  intros HN HL HT. fix IH 1. intros [|m|name operator children model].
  - exact HN.
  - apply HL.
  - apply HT; [|apply IH].
    destruct children as [l|]; [|exact I].
    induction l as [|c l IHl]; constructor; [apply IH | exact IHl].
Qed.

(** [load_dict] on the dictionary of a tree node. *)
Lemma load_tree_dict (fuel : nat) (name cv operator mv : pyobj) :
  load_dict_rec (S fuel)
    (ODict [("type", OStr "model_tree_node"); ("name", name);
            ("children", cv); ("operator", operator); ("model", mv)])
  = let '(cv', children) :=
      if truthy cv then
        match cv with
        | OList l =>
            let '(l', r) := load_children fuel l in (OList l', Some <$> r)
        | _ => (cv, Raise (AttributeError "pop"))
        end
      else (cv, Ok None) in
    match children with
    | Raise e =>
        (ODict [("name", name); ("children", cv'); ("operator", operator);
                ("model", mv)], Raise e)
    | Ok children =>
        let '(mv', model) :=
          if truthy mv then load_dict_rec fuel mv else (mv, Ok Nothing) in
        (ODict [("name", name); ("children", cv'); ("operator", operator);
                ("model", mv')],
         model ← model; new_tree_node name operator children model)
    end.
Proof.
  cbn [Persistence.load_dict_rec].
  change (pop "type" _)
    with (Some (OStr "model_tree_node",
                [("name", name); ("children", cv); ("operator", operator);
                 ("model", mv)])).
  cbn [is_str String.eqb Ascii.eqb Bool.eqb].
  change (getitem "children" _) with (Ok cv : result pyobj).
  cbn iota beta.
  destruct (truthy cv).
  2:{ cbn. destruct (truthy mv); [|reflexivity].
      now destruct (load_dict_rec fuel mv). }
  destruct cv as [| s | l | d]; try reflexivity.
  match goal with
  | |- context [?L l] =>
      is_fix L; assert (E : ∀ l0, L l0 = load_children fuel l0)
  end.
  { induction l0 as [|c l0 IHl]; cbn; [reflexivity|].
    destruct (load_dict_rec fuel c) as [c' [o|e]]; [|reflexivity].
    now rewrite IHl. }
  rewrite E. destruct (load_children fuel l) as [l' [children|e]]; cbn;
    [|reflexivity].
  destruct (truthy mv); [|reflexivity].
  now destruct (load_dict_rec fuel mv).
Qed.

Lemma reloaded_is_nothing (t : object M) :
  is_nothing (reloaded t) = is_nothing t.
Proof. now destruct t. Qed.

Lemma dumpable_not_nothing (t : object M) :
  dumpable t = true → is_nothing t = false.
Proof. now destruct t. Qed.

Lemma children_come_back (cs : list (object M)) :
  Forall comes_back cs →
  forallb dumpable cs = true →
  Forall leaf_round_trip (flat_map leaves cs) →
  ∃ ds, map_result dump cs = Ok ds
        ∧ length ds = length cs
        ∧ ∀ fuel, depth (OList ds) ≤ fuel →
            ∃ ds', load_children fuel ds = (ds', Ok (map reloaded cs)).
Proof.
  induction 1 as [|c cs Hc _ IH]; intros Hd Hl.
  - exists []. repeat split. intros fuel _. exists []. reflexivity.
  - cbn in Hd, Hl. apply andb_true_iff in Hd as [Hdc Hdcs].
    apply Forall_app in Hl as [Hlc Hlcs].
    destruct (Hc Hdc Hlc) as (d & Hdump & Hload).
    destruct (IH Hdcs Hlcs) as (ds & Hdumps & Hlen & Hloads).
    exists (d :: ds). cbn [map_result]. rewrite Hdump, Hdumps.
    split; [reflexivity|]. split; [cbn; now rewrite Hlen|].
    intros fuel Hfuel. cbn in Hfuel.
    destruct (Hload fuel ltac:(lia)) as (d' & Hd').
    destruct (Hloads fuel ltac:(cbn; lia)) as (ds' & Hds').
    exists (d' :: ds'). cbn [Persistence.load_children].
    rewrite Hd', Hds'. reflexivity.
Qed.

Lemma every_tree_comes_back (t : object M) : comes_back t.
Proof.
  induction t as [|m|name operator children model IHc IHm] using object_ind';
    intros Hd Hl.
  - discriminate Hd.
  - cbn in Hl. apply Forall_cons in Hl as [(d & Hdump & Hload) _].
    exists d. split; [exact Hdump|]. intros fuel Hfuel.
    specialize (Hload fuel Hfuel).
    destruct (load_dict_rec fuel d) as [d' r]. cbn in Hload. subst r. eauto.
  - cbn [dumpable leaves] in Hd, Hl.
    apply andb_true_iff in Hd as [Hdc Hdm].
    apply Forall_app in Hl as [Hlc Hlm].
    (* the children *)
    assert (Hchildren :
      ∃ cv, match children with
            | None | Some [] => Ok ONone
            | Some children => OList <$> map_result dump children
            end = Ok cv
            ∧ ∀ fuel, depth cv ≤ fuel →
                ∃ cv',
                  (if truthy cv then
                     match cv with
                     | OList l =>
                         let '(l', r) := load_children fuel l in
                         (OList l', Some <$> r)
                     | _ => (cv, Raise (AttributeError "pop"))
                     end
                   else (cv, Ok None))
                  = (cv', Ok match children with
                             | None | Some [] => None
                             | Some children => Some (map reloaded children)
                             end)).
    { destruct children as [[|c cs]|].
      - exists ONone. split; [reflexivity|]. intros. exists ONone. reflexivity.
      - destruct (children_come_back (c :: cs) IHc Hdc Hlc)
          as (ds & Hdumps & Hlen & Hloads).
        exists (OList ds). rewrite Hdumps. split; [reflexivity|].
        intros fuel Hfuel.
        destruct (Hloads fuel Hfuel) as (ds' & Hds').
        exists (OList ds').
        destruct ds as [|d0 ds]; [discriminate Hlen|].
        cbn [truthy length Nat.eqb negb]. rewrite Hds'. reflexivity.
      - exists ONone. split; [reflexivity|]. intros. exists ONone. reflexivity. }
    destruct Hchildren as (cv & Hcv & Hcvload).
    (* the model *)
    assert (Hmodel :
      ∃ mv, match model with
            | Nothing => Ok ONone
            | _ => dump model
            end = Ok mv
            ∧ ∀ fuel, depth mv < fuel →
                ∃ mv',
                  (if truthy mv then load_dict_rec fuel mv
                   else (mv, Ok Nothing))
                  = (mv', Ok (reloaded model))).
    { destruct (is_nothing model) eqn:Hn.
      - destruct model; try discriminate Hn.
        exists ONone. split; [reflexivity|]. intros. exists ONone. reflexivity.
      - assert (Hdm' : dumpable model = true)
          by (destruct model; [discriminate Hn | exact Hdm | exact Hdm]).
        destruct (IHm Hdm' Hlm) as (mv & Hmv & Hmvload).
        exists mv. split; [destruct model; [discriminate Hn | exact Hmv | exact Hmv]|].
        intros fuel Hfuel.
        destruct (truthy mv) eqn:Ht.
        + destruct (Hmvload fuel Hfuel) as (mv' & Hmv').
          exists mv'. exact Hmv'.
        + (* a falsy dictionary does not load *)
          destruct (Hmvload (S (depth mv)) ltac:(lia)) as (mv' & Hbad).
          destruct mv as [| s | l | d]; try discriminate Hbad.
          destruct d; [discriminate Hbad | discriminate Ht]. }
    destruct Hmodel as (mv & Hmv & Hmvload).
    cbn [Persistence.dump]. rewrite Hcv. cbn [mbind result_bind].
    rewrite Hmv. cbn [mbind result_bind].
    eexists. split; [reflexivity|].
    intros [|fuel] Hfuel; [lia|].
    rewrite load_tree_dict.
    assert (Hdc' : depth cv ≤ fuel) by (cbn in Hfuel; lia).
    assert (Hdm'' : depth mv < fuel) by (cbn in Hfuel; lia).
    destruct (Hcvload fuel Hdc') as (cv' & ->).
    destruct (Hmvload fuel Hdm'') as (mv' & ->).
    eexists. cbn [mbind result_bind]. f_equal.
    unfold new_tree_node.
    destruct children as [[|c cs]|]; try reflexivity.
    assert (Hex : existsb is_nothing (map reloaded (c :: cs)) = false).
    { apply not_true_is_false. intros Hex.
      apply existsb_exists in Hex as (x & Hx & Hnx).
      apply in_map_iff in Hx as (y & <- & Hy).
      rewrite reloaded_is_nothing in Hnx.
      rewrite forallb_forall in Hdc.
      apply Hdc, dumpable_not_nothing in Hy. congruence. }
    rewrite Hex. reflexivity.
Qed.

(** X19: a tree of [model_tree_node] objects whose lists of children hold
    no [None], and whose leaf objects come back from their own
    dictionaries, comes back from [load_dict(tree.dump(format='dict'))]
    with every name, operator, child and model in its place, except that
    a node whose [children] was the empty list has [children=None]. *)
Theorem tree_round_trip :
  ∀ t : object M,
    dumpable t = true →
    Forall leaf_round_trip (leaves t) →
    ∃ d, dump t = Ok d ∧ snd (load_dict d) = Ok (reloaded t).
Proof.
  intros t Hd Hl.
  destruct (every_tree_comes_back t Hd Hl) as (d & Hdump & Hload).
  exists d. split; [exact Hdump|].
  unfold Persistence.load_dict.
  destruct (Hload (S (depth d)) ltac:(lia)) as (d' & ->). reflexivity.
Qed.

Lemma dict_get_filter_same (t : string) (d : dict) :
  dict_get String.eqb t
    (List.filter (fun item => negb (String.eqb t (fst item))) d) = None.
Proof.
  unfold dict_get. induction d as [|[k v] d IH]; cbn; [reflexivity|].
  destruct (String.eqb t k) eqn:E; cbn; [exact IH|].
  rewrite E. exact IH.
Qed.

Lemma dict_get_filter_other (t key : string) (d : dict) :
  dict_get String.eqb t d = None →
  dict_get String.eqb t
    (List.filter (fun item => negb (String.eqb key (fst item))) d) = None.
Proof.
  unfold dict_get. induction d as [|[k v] d IH]; cbn; [reflexivity|].
  destruct (String.eqb t k) eqn:E; cbn; [discriminate|].
  intros H. destruct (String.eqb key k); cbn; [now apply IH|].
  rewrite E. now apply IH.
Qed.

Lemma dict_get_setitem (t key : string) (v : pyobj) (d : dict) :
  dict_get String.eqb t d = None →
  dict_get String.eqb t (setitem key v d) = None.
Proof.
  unfold dict_get, setitem. induction d as [|[k w] d IH]; cbn; [reflexivity|].
  destruct (String.eqb t k) eqn:E; cbn; [discriminate|].
  intros H. destruct (String.eqb key k); cbn; rewrite E; now apply IH.
Qed.

Lemma load_without_type (fuel : nat) (d : dict) :
  dict_get String.eqb "type" d = None →
  load_dict_rec (S fuel) (ODict d) = (ODict d, Raise (KeyError "type")).
Proof.
  intros H. cbn [Persistence.load_dict_rec]. unfold pop. now rewrite H.
Qed.

(** What a call that found the type leaves of the dictionary. *)
Lemma load_leaves_no_type (fuel : nat) (d : dict) :
  is_Some (dict_get String.eqb "type" d) →
  ∃ d', fst (load_dict_rec (S fuel) (ODict d)) = ODict d'
        ∧ dict_get String.eqb "type" d' = None.
Proof.
  intros [type Htype]. cbn [Persistence.load_dict_rec]. unfold pop at 1.
  rewrite Htype.
  set (rest := List.filter (fun item => negb (String.eqb "type" (fst item))) d).
  assert (Hrest : dict_get String.eqb "type" rest = None)
    by apply dict_get_filter_same.
  clearbody rest.
  destruct (is_str type "method").
  { unfold pop. destruct (dict_get String.eqb "kwargs" rest) as [kw|].
    - destruct kw; cbn [fst]; eexists; (split; [reflexivity|]);
        now apply dict_get_filter_other.
    - eexists. split; [reflexivity | exact Hrest]. }
  destruct (is_str type "ml_model").
  { eexists. split; [reflexivity | exact Hrest]. }
  destruct (is_str type "model_tree_node").
  2:{ eexists. split; [reflexivity | exact Hrest]. }
  destruct (getitem "children" rest) as [cv|e].
  2:{ eexists. split; [reflexivity | exact Hrest]. }
  match goal with
  | |- context [let '(cv0, children) := ?X in _] => destruct X as [cv' children]
  end.
  assert (Hc : dict_get String.eqb "type" (setitem "children" cv' rest) = None)
    by now apply dict_get_setitem.
  destruct children as [children|e].
  2:{ eexists. split; [reflexivity | exact Hc]. }
  destruct (getitem "name" _) as [name|e].
  2:{ eexists. split; [reflexivity | exact Hc]. }
  destruct (getitem "operator" _) as [operator|e].
  2:{ eexists. split; [reflexivity | exact Hc]. }
  destruct (getitem "model" _) as [mv|e].
  2:{ eexists. split; [reflexivity | exact Hc]. }
  match goal with
  | |- context [let '(mv0, model) := ?X in _] => destruct X as [mv' model]
  end.
  eexists. split; [reflexivity|]. now apply dict_get_setitem.
Qed.

(** X20: [load_dict] changes the dictionary it is given: a call that
    found the key ['type'] has removed it, whatever it went on to do, so
    that a second [load_dict] on the same dictionary raises
    [KeyError('type')]. *)
Theorem load_dict_consumes_its_argument :
  ∀ d : dict,
    is_Some (dict_get String.eqb "type" d) →
    snd (load_dict (fst (load_dict (ODict d)))) = Raise (KeyError "type").
Proof.
  intros d Htype. unfold Persistence.load_dict at 2.
  destruct (load_leaves_no_type (depth (ODict d)) d Htype) as (d' & -> & Hno).
  unfold Persistence.load_dict.
  now rewrite load_without_type.
Qed.

End PersistenceRoundTrip.

Section PersistenceExamples.

Import Persistence.

Lemma name_round_trip (m : string) :
  leaf_round_trip name_dump name_new (fun _ => None) m.
Proof.
  eexists. split; [reflexivity|].
  intros [|fuel] H; [cbn in H; lia | reflexivity].
Qed.

(** The tree of ANI-1ccx with its D4 correction. *)
Lemma tree_round_trip_witness :
  ∃ d, dump_ex corrected_ensemble = Ok d
       ∧ snd (load_dict_ex d) = Ok (reloaded corrected_ensemble).
Proof.
  apply (tree_round_trip name_dump name_new (fun _ => None) corrected_ensemble).
  - reflexivity.
  - repeat constructor; apply name_round_trip.
Defined.

(** The dictionary of a method, loaded twice. *)
Lemma load_dict_consumes_its_argument_witness :
  snd (load_dict_ex
         (fst (load_dict_ex
                 (ODict [("type", OStr "method"); ("method", OStr "D4")]))))
  = Raise (KeyError "type").
Proof.
  apply (load_dict_consumes_its_argument name_new (fun _ => None)
           [("type", OStr "method"); ("method", OStr "D4")]).
  cbn. eauto.
Defined.

(** The dictionary of a leaf node; the node whose list of children was
    empty; a dictionary of an unknown type among the children. *)
Lemma dump_and_load_examples :
  dump_ex (TreeNode (OStr "d4") (OStr "predict") (Some []) (Leaf "D4"))
  = Ok (ODict [("type", OStr "model_tree_node"); ("name", OStr "d4");
               ("children", ONone); ("operator", OStr "predict");
               ("model", ODict [("type", OStr "method");
                                ("method", OStr "D4")])])
  ∧ load_dict_ex
      (ODict [("type", OStr "model_tree_node"); ("name", OStr "d4");
              ("children", ONone); ("operator", OStr "predict");
              ("model", ODict [("type", OStr "method");
                               ("method", OStr "D4")])])
    = (ODict [("name", OStr "d4"); ("children", ONone);
              ("operator", OStr "predict");
              ("model", ODict [("method", OStr "D4")])],
       Ok (TreeNode (OStr "d4") (OStr "predict") None (Leaf "D4")))
  ∧ snd (load_dict_ex
           (ODict [("type", OStr "model_tree_node"); ("name", OStr "root");
                   ("children", OList [ODict [("type", OStr "scaler")]]);
                   ("operator", OStr "sum"); ("model", ONone)]))
    = Raise (AttributeError "parent")
  ∧ snd (load_dict_ex (ODict [("name", OStr "root")]))
    = Raise (KeyError "type").
Proof. repeat split; reflexivity. Qed.

End PersistenceExamples.

(** ** A tree of leaves on fresh molecules *)

Section TreeLeafStep.

Import ModelTree TreeRun.


Lemma geometry_set_mol (k : string) (v : pyvalue) (mol : molecule) :
  geometry (set_mol k v mol) = geometry mol.
Proof. reflexivity. Qed.







End TreeLeafStep.

Section TreeLeafLoop.

Import ModelTree TreeRun.

Variable nm : string.
Variable f : flags.






End TreeLeafLoop.

Section TreeTotal.

Import ModelTree TreeRun.

Variable nm : string.









End TreeTotal.

Section FreshTree.

Import ModelTree TreeRun.







End FreshTree.

Section RootLeaf.

Import ModelTree TreeRun.




End RootLeaf.

Section FreshTreeExamples.

Import ModelTree TreeRun.



End FreshTreeExamples.

(** ** [kreg]: the model file keeps its name *)

Section KregModelFile.

Import Load KREGFile.

Lemma length_app_string (s t : string) :
  String.length (String.append s t) = String.length s + String.length t.
Proof.
  induction s as [|c s IH]; [reflexivity|].
  change (S (String.length (String.append s t))
          = S (String.length s + String.length t)).
  now rewrite IH.
Qed.

Lemma drop_chars_app (s t : string) :
  drop_chars (String.length s) (String.append s t) = t.
Proof. induction s as [|c s IH]; cbn; [now destruct t | exact IH]. Qed.

Lemma last_chars_app (s t : string) :
  last_chars (String.length t) (String.append s t) = t.
Proof.
  unfold last_chars. rewrite length_app_string.
  replace (String.length s + String.length t - String.length t)
    with (String.length s) by lia.
  apply drop_chars_app.
Qed.

Lemma app_string_assoc (a b c : string) :
  String.append a (String.append b c) = String.append (String.append a b) c.
Proof.
  induction a as [|x a IH]; [reflexivity|].
  change (String x (String.append a (String.append b c))
          = String x (String.append (String.append a b) c)).
  now rewrite IH.
Qed.

Lemma with_npz_ends (file : string) : last_chars 4 (with_npz file) = ".npz".
Proof.
  unfold with_npz.
  destruct (String.eqb (last_chars 4 file) ".npz") eqn:E.
  - now apply String.eqb_eq.
  - apply (last_chars_app file ".npz").
Qed.

Lemma with_npz_fixed (file : string) :
  last_chars 4 file = ".npz" → with_npz file = file.
Proof. intros H. unfold with_npz. now rewrite H. Qed.

(** X23: under [ml_program='KREG_API'], in any spelling of its case, the
    constructor leaves a model file name that ends in [.npz], the given
    name or that name with [.npz] appended.  The name is then settled:
    constructing another object from it, or training with or without
    [save_model], keeps it.  The name [train] makes up when it has to save
    a model without a name is settled in the same way. *)
Theorem kreg_api_model_file :
  ∀ (ml_program file fresh : string) (save_model : bool),
    casefold ml_program = casefold "KREG_API" →
    ∃ settled,
      init_model_file ml_program (Some file) = Some settled
      ∧ (settled = file ∨ settled = String.append file ".npz")
      ∧ last_chars 4 settled = ".npz"
      ∧ init_model_file ml_program (Some settled) = Some settled
      ∧ train_model_file ml_program save_model fresh (Some settled)
        = Some settled
      ∧ init_model_file ml_program
          (train_model_file ml_program true fresh None)
        = train_model_file ml_program true fresh None.
Proof.
  intros ml_program file fresh save_model H.
  unfold init_model_file, train_model_file. rewrite H.
  change (String.eqb (casefold "KREG_API") (casefold "KREG_API")) with true.
  change (String.eqb (casefold "KREG_API") (casefold "MLatomF")) with false.
  cbn [fmap option_fmap option_map].
  exists (with_npz file).
  pose proof (with_npz_ends file) as Hend.
  split; [reflexivity|]. split.
  { unfold with_npz. destruct (String.eqb (last_chars 4 file) ".npz"); auto. }
  split; [exact Hend|].
  split; [now rewrite with_npz_fixed|].
  split.
  - destruct save_model; [now rewrite with_npz_fixed | reflexivity].
  - f_equal. apply with_npz_fixed.
    rewrite app_string_assoc. apply (last_chars_app _ ".npz").
Qed.

(** Under another [ml_program] the constructor leaves the name as it is
    given, and [train] invents a [.unf] name only for MLatomF. *)
Lemma kreg_model_file_courses :
  init_model_file "KREG_API" (Some "model") = Some "model.npz"
  ∧ init_model_file "kreg_api" (Some "model.npz") = Some "model.npz"
  ∧ init_model_file "KREG_API" (Some "npz") = Some "npz.npz"
  ∧ init_model_file "KREG_API" None = None
  ∧ init_model_file "MLatomF" (Some "model") = Some "model"
  ∧ train_model_file "MLatomF" true "0a1b" None = Some "kreg_0a1b.unf"
  ∧ train_model_file "KREG_API" true "0a1b" None = Some "kreg_0a1b.npz"
  ∧ train_model_file "KREG_API" false "0a1b" None = None
  ∧ train_model_file "numpy" true "0a1b" None = None.
Proof. repeat split; reflexivity. Qed.

Lemma kreg_api_model_file_witness :
  ∃ settled,
    init_model_file "kreg_api" (Some "model") = Some settled
    ∧ (settled = "model" ∨ settled = String.append "model" ".npz")
    ∧ last_chars 4 settled = ".npz"
    ∧ init_model_file "kreg_api" (Some settled) = Some settled
    ∧ train_model_file "kreg_api" true "0a1b" (Some settled) = Some settled
    ∧ init_model_file "kreg_api" (train_model_file "kreg_api" true "0a1b" None)
      = train_model_file "kreg_api" true "0a1b" None.
Proof.
  apply (kreg_api_model_file "kreg_api" "model" "0a1b" true).
  reflexivity.
Defined.

End KregModelFile.

(** ** [methods.__init__]: the order of the resolution *)

Section MethodsFamily.

Import Methods.

(** X24: the resolution of an ASCII method name with [program] unset.  A
    name that is on the MNDO list, or is a lower-cased name of the Sparrow
    list, resolves to MNDO when [mndobin] is set and the name is on the
    MNDO list; otherwise to Sparrow when [sparrowbin] is set and the name
    is on the Sparrow list; otherwise to MNDO at the default path
    [~/apps/mndo2020/mndo2020], written into the environment, when
    [mndobin] is unset and the name is on the MNDO list; the resolution
    raises [ValueError] exactly when neither program is eligible in this
    sense.  A name on neither list goes to the first program of the
    registry that lists it, whatever the environment holds, and raises
    [ValueError] only when no program lists it. *)
Theorem methods_resolution :
  ∀ (m : string) (environ : gmap string string),
    is_ascii m = true →
    let r := resolve (Some m) None environ in
    let family := casefold_in m "mndo" || verbatim_in m "sparrow" in
    (casefold_in m "mndo" = true →
     set_and_not_empty (environ !! "mndobin") = true →
     r = (environ, Ok (Some (mndo_methods m None))))
    ∧ (family = true →
       casefold_in m "mndo" && set_and_not_empty (environ !! "mndobin") = false →
       sparrow_eligible m environ = true →
       r = (environ, Ok (Some (sparrow_methods m))))
    ∧ (∀ path, casefold_in m "mndo" = true →
       environ !! "mndobin" = None →
       sparrow_eligible m environ = false →
       environ !! "PATH" = Some path →
       r = (<["mndobin" := default_mndobin]>
              (<["PATH" := (path ++ ":~/apps/mndo2020")%string]> environ),
            Ok (Some (mndo_methods m (Some default_mndobin)))))
    ∧ (family = true → is_Some (environ !! "PATH") →
       raises_ValueError (snd r)
       = negb (mndo_eligible m environ || sparrow_eligible m environ)
       ∧ is_ok (snd r) = mndo_eligible m environ || sparrow_eligible m environ)
    ∧ (casefold_in m "mndo" = false → casefold_in m "sparrow" = false →
       verbatim_in m "sparrow" = false →
       r = (environ,
            match first_interface m with
            | Some program => Ok (Some (interfaces_dict program (Some m)))
            | None =>
                Raise (ValueError
                  "Can't find appropriate interface for the requested method")
            end)).
Proof.
  intros m environ _. exact (resolution_cases m environ).
Qed.

(** The resolution theorem at [PM3] with only [sparrowbin] set. *)
Lemma methods_resolution_witness :
  let m := "PM3" in
  let environ := <["sparrowbin" := "/opt/sparrow"]> bare_environ in
  let r := resolve (Some m) None environ in
  let family := casefold_in m "mndo" || verbatim_in m "sparrow" in
  (casefold_in m "mndo" = true →
   set_and_not_empty (environ !! "mndobin") = true →
   r = (environ, Ok (Some (mndo_methods m None))))
  ∧ (family = true →
     casefold_in m "mndo" && set_and_not_empty (environ !! "mndobin") = false →
     sparrow_eligible m environ = true →
     r = (environ, Ok (Some (sparrow_methods m))))
  ∧ (∀ path, casefold_in m "mndo" = true →
     environ !! "mndobin" = None →
     sparrow_eligible m environ = false →
     environ !! "PATH" = Some path →
     r = (<["mndobin" := default_mndobin]>
            (<["PATH" := (path ++ ":~/apps/mndo2020")%string]> environ),
          Ok (Some (mndo_methods m (Some default_mndobin)))))
  ∧ (family = true → is_Some (environ !! "PATH") →
     raises_ValueError (snd r)
     = negb (mndo_eligible m environ || sparrow_eligible m environ)
     ∧ is_ok (snd r) = mndo_eligible m environ || sparrow_eligible m environ)
  ∧ (casefold_in m "mndo" = false → casefold_in m "sparrow" = false →
     verbatim_in m "sparrow" = false →
     r = (environ,
          match first_interface m with
          | Some program => Ok (Some (interfaces_dict program (Some m)))
          | None =>
              Raise (ValueError
                "Can't find appropriate interface for the requested method")
          end)).
Proof.
  intros m environ.
  apply (methods_resolution m environ).
  reflexivity.
Defined.

End MethodsFamily.
